(** * Conservative Q-Learning (cql.py): replay buffer, networks and update rule

    A shallow embedding of [src/code/cql.py].  Tensors of 32-bit floats are
    idealised as real numbers: a tensor of shape (B,) is a [list R], of shape
    (B, d) a [list (list R)], and so on.  Random draws (numpy's generator,
    the policy's reparameterisation noise, the uniform candidate actions) are
    explicit inputs.  Python exceptions are values of [exn]; a method that
    mutates [self] is a state transformer over the object. *)

From Stdlib Require Import String Reals ZArith Lia Lra Bool PeanoNat List.
Import ListNotations.

(** ** Exceptions and the state-and-exception monad *)

Inductive exn : Type :=
| ValueError (msg : string)
| NotImplementedError
| ZeroDivisionError
| IndexError
| AttributeError
| TypeError
| RuntimeError.

(** A Python method run on a mutable object of type [S]: it either returns
    a value or raises, and in both cases leaves a (possibly mutated) object
    behind, because assignments to [self] are in place. *)
Definition M (S A : Type) : Type := S -> (exn + A) * S.

Definition ret {S A} (a : A) : M S A := fun s => (inr a, s).

Definition raise {S A} (e : exn) : M S A := fun s => (inl e, s).

Definition bind {S A B} (m : M S A) (k : A -> M S B) : M S B :=
  fun s =>
    match m s with
    | (inl e, s') => (inl e, s')
    | (inr a, s') => k a s'
    end.

Definition get {S} : M S S := fun s => (inr s, s).

Definition put {S} (s : S) : M S unit := fun _ => (inr tt, s).

Definition modify {S} (f : S -> S) : M S unit := fun s => (inr tt, f s).

(** A computation that may raise but touches no state. *)
Definition lift {S A} (r : exn + A) : M S A :=
  match r with
  | inl e => raise e
  | inr a => ret a
  end.

Declare Scope py_scope.
Delimit Scope py_scope with py.
Notation "x <- m ;; k" := (bind m (fun x => k))
  (at level 61, m at next level, right associativity) : py_scope.
Notation "m ;;; k" := (bind m (fun _ => k))
  (at level 61, right associativity) : py_scope.

(** ** Replay buffer *)

Module Buffer.

Open Scope py_scope.

(** The d4rl dictionary: parallel arrays under the keys ["observations"],
    ["actions"], ["rewards"], ["next_observations"] and ["terminals"]. *)
Record Dataset : Type := mkDataset {
  observations : list (list R);
  actions : list (list R);
  rewards : list R;
  next_observations : list (list R);
  terminals : list R
}.

(** The five arrays have the same leading dimension. *)
Definition wf_dataset (d : Dataset) : Prop :=
  length (actions d) = length (observations d) /\
  length (rewards d) = length (observations d) /\
  length (next_observations d) = length (observations d) /\
  length (terminals d) = length (observations d).

Record ReplayBuffer : Type := mkReplayBuffer {
  _buffer_size : nat;
  _pointer : nat;
  _size : nat;
  _states : list (list R);
  _actions : list (list R);
  _rewards : list (list R);
  _next_states : list (list R);
  _dones : list (list R)
}.

(** [torch.zeros((rows, cols))]. *)
Definition zeros (rows cols : nat) : list (list R) :=
  repeat (repeat 0%R cols) rows.

(** [ReplayBuffer.__init__]. *)
Definition init (state_dim action_dim buffer_size : nat) : ReplayBuffer :=
  {| _buffer_size := buffer_size;
     _pointer := 0;
     _size := 0;
     _states := zeros buffer_size state_dim;
     _actions := zeros buffer_size action_dim;
     _rewards := zeros buffer_size 1;
     _next_states := zeros buffer_size state_dim;
     _dones := zeros buffer_size 1 |}.

(** [x[..., None]]: a trailing axis of length one. *)
Definition unsqueeze_last (xs : list R) : list (list R) :=
  map (fun x => [x]) xs.

(** [dst[:n] = src].  torch refuses a source whose leading dimension is not
    [n] (shapes that broadcast aside); trailing dimensions are taken to
    agree with the buffer's. *)
Definition assign_prefix (n : nat) (src dst : list (list R))
  : exn + list (list R) :=
  if length src =? n then inr (src ++ skipn n dst) else inl RuntimeError.

Section WithCast.

(** [torch.tensor(data, dtype=torch.float32)] rounds every entry to single
    precision. *)
Variable float32 : R -> R.

Definition _to_tensor (data : list (list R)) : list (list R) :=
  map (map float32) data.

Definition set_states (v : list (list R)) (b : ReplayBuffer) : ReplayBuffer :=
  mkReplayBuffer (_buffer_size b) (_pointer b) (_size b)
    v (_actions b) (_rewards b) (_next_states b) (_dones b).

Definition set_actions (v : list (list R)) (b : ReplayBuffer) : ReplayBuffer :=
  mkReplayBuffer (_buffer_size b) (_pointer b) (_size b)
    (_states b) v (_rewards b) (_next_states b) (_dones b).

Definition set_rewards (v : list (list R)) (b : ReplayBuffer) : ReplayBuffer :=
  mkReplayBuffer (_buffer_size b) (_pointer b) (_size b)
    (_states b) (_actions b) v (_next_states b) (_dones b).

Definition set_next_states (v : list (list R)) (b : ReplayBuffer)
  : ReplayBuffer :=
  mkReplayBuffer (_buffer_size b) (_pointer b) (_size b)
    (_states b) (_actions b) (_rewards b) v (_dones b).

Definition set_dones (v : list (list R)) (b : ReplayBuffer) : ReplayBuffer :=
  mkReplayBuffer (_buffer_size b) (_pointer b) (_size b)
    (_states b) (_actions b) (_rewards b) (_next_states b) v.

Definition set_size (v : nat) (b : ReplayBuffer) : ReplayBuffer :=
  mkReplayBuffer (_buffer_size b) (_pointer b) v
    (_states b) (_actions b) (_rewards b) (_next_states b) (_dones b).

Definition set_pointer (v : nat) (b : ReplayBuffer) : ReplayBuffer :=
  mkReplayBuffer (_buffer_size b) v (_size b)
    (_states b) (_actions b) (_rewards b) (_next_states b) (_dones b).

(** [ReplayBuffer.load_d4rl_dataset].  The two [print] calls only write to
    standard output. *)
Definition load_d4rl_dataset (data : Dataset) : M ReplayBuffer unit :=
  self <- get ;;
  if negb (_size self =? 0) then
    raise (ValueError "Trying to load data into non-empty replay buffer")
  else
    let n_transitions := length (observations data) in
    if _buffer_size self <? n_transitions then
      raise (ValueError
        "Replay buffer is smaller than the dataset you are trying to load!")
    else
      v <- lift (assign_prefix n_transitions
                   (_to_tensor (observations data)) (_states self)) ;;
      modify (set_states v) ;;;
      v <- lift (assign_prefix n_transitions
                   (_to_tensor (actions data)) (_actions self)) ;;
      modify (set_actions v) ;;;
      v <- lift (assign_prefix n_transitions
                   (_to_tensor (unsqueeze_last (rewards data)))
                   (_rewards self)) ;;
      modify (set_rewards v) ;;;
      v <- lift (assign_prefix n_transitions
                   (_to_tensor (next_observations data))
                   (_next_states self)) ;;
      modify (set_next_states v) ;;;
      v <- lift (assign_prefix n_transitions
                   (_to_tensor (unsqueeze_last (terminals data)))
                   (_dones self)) ;;
      modify (set_dones v) ;;;
      modify (fun b => set_size (_size b + n_transitions) b) ;;;
      modify (fun b => set_pointer (Nat.min (_size b) n_transitions) b).

(** numpy's global generator, as an unbounded supply of raw words read at a
    cursor.  [randint low high size] reduces [size] consecutive words into
    the half-open range and refuses an empty range, as numpy does. *)
Record RandomState : Type := mkRandomState {
  raw : nat -> nat;
  cursor : nat
}.

Definition randint (low high size : nat) : M RandomState (list nat) :=
  fun g =>
    if high <=? low then (inl (ValueError "low >= high"), g)
    else
      (inr (map (fun k => low + raw g (cursor g + k) mod (high - low))
                (seq 0 size)),
       mkRandomState (raw g) (cursor g + size)).

(** [t[indices]] for an integer index array: one row per index; an index
    past the end raises. *)
Fixpoint index_rows (t : list (list R)) (indices : list nat)
  : exn + list (list R) :=
  match indices with
  | [] => inr []
  | i :: rest =>
      match nth_error t i with
      | None => inl IndexError
      | Some row =>
          match index_rows t rest with
          | inl e => inl e
          | inr rows => inr (row :: rows)
          end
      end
  end.

(** The interpreter state a call of [sample] can touch: the buffer object
    and numpy's generator. *)
Record World : Type := mkWorld {
  buffer : ReplayBuffer;
  np_random : RandomState
}.

Definition with_rng {A} (m : M RandomState A) : M World A :=
  fun w =>
    let (r, g) := m (np_random w) in (r, mkWorld (buffer w) g).

(** [ReplayBuffer.sample]. *)
Definition sample (batch_size : nat) : M World (list (list (list R))) :=
  w <- get ;;
  let self := buffer w in
  indices <- with_rng (randint 0 (Nat.min (_size self) (_pointer self))
                         batch_size) ;;
  states <- lift (index_rows (_states self) indices) ;;
  actions <- lift (index_rows (_actions self) indices) ;;
  rewards <- lift (index_rows (_rewards self) indices) ;;
  next_states <- lift (index_rows (_next_states self) indices) ;;
  dones <- lift (index_rows (_dones self) indices) ;;
  ret [states; actions; rewards; next_states; dones].

(** [ReplayBuffer.add_transition]. *)
Definition add_transition : M ReplayBuffer unit :=
  raise NotImplementedError.

(** The buffer left by a successful bulk load into a fresh buffer. *)
Definition loaded (state_dim action_dim buffer_size : nat) (d : Dataset)
  : ReplayBuffer :=
  let n := length (observations d) in
  {| _buffer_size := buffer_size;
     _pointer := n;
     _size := n;
     _states := _to_tensor (observations d)
                  ++ skipn n (zeros buffer_size state_dim);
     _actions := _to_tensor (actions d)
                   ++ skipn n (zeros buffer_size action_dim);
     _rewards := _to_tensor (unsqueeze_last (rewards d))
                   ++ skipn n (zeros buffer_size 1);
     _next_states := _to_tensor (next_observations d)
                       ++ skipn n (zeros buffer_size state_dim);
     _dones := _to_tensor (unsqueeze_last (terminals d))
                 ++ skipn n (zeros buffer_size 1) |}.

End WithCast.

End Buffer.


(** ** Tensors, autograd leaves and the numeric operations used by cql.py *)

Module Torch.

Local Open Scope R_scope.

(** The parameter groups of the trainer.  A tensor's autograd graph reaches
    some of them; gradients can flow back only to those. *)
Inductive leaf : Type :=
| Actor
| Critic1
| Critic2
| TargetCritic1
| TargetCritic2
| LogAlpha
| LogAlphaPrime.

(** A tensor: its values and the leaves its graph reaches. *)
Record tensor (A : Type) : Type := mkTensor {
  data : A;
  leaves : list leaf
}.

Arguments mkTensor {A} _ _.
Arguments data {A} _.
Arguments leaves {A} _.

(** Plain data (a batch row, a Python float, [new_tensor]). *)
Definition constant {A} (a : A) : tensor A := mkTensor a [].

(** [t.detach()]: the same values, cut off from the graph. *)
Definition detach {A} (t : tensor A) : tensor A := mkTensor (data t) [].

Definition lift1 {A B} (f : A -> B) (x : tensor A) : tensor B :=
  mkTensor (f (data x)) (leaves x).

Definition lift2 {A B C} (f : A -> B -> C) (x : tensor A) (y : tensor B)
  : tensor C :=
  mkTensor (f (data x) (data y)) (leaves x ++ leaves y).

(** Shapes: (B,), (B, n) and (B, n, d). *)
Abbreviation vec := (list R) (only parsing).
Abbreviation mat := (list (list R)) (only parsing).
Abbreviation cube := (list (list (list R))) (only parsing).

Fixpoint map2 {A B C} (f : A -> B -> C) (xs : list A) (ys : list B)
  : list C :=
  match xs, ys with
  | x :: xs', y :: ys' => f x y :: map2 f xs' ys'
  | _, _ => []
  end.

(** [enumerate]-style map: the function sees the position. *)
Fixpoint imap_from {A B} (i : nat) (f : nat -> A -> B) (xs : list A)
  : list B :=
  match xs with
  | [] => []
  | x :: xs' => f i x :: imap_from (S i) f xs'
  end.

Definition imap {A B} (f : nat -> A -> B) (xs : list A) : list B :=
  imap_from 0 f xs.

Definition sum (xs : vec) : R := fold_right Rplus 0 xs.

(** [t.mean()] of a one-dimensional tensor. *)
Definition mean (xs : vec) : R := sum xs / INR (length xs).

(** [torch.clamp(x, lo, hi)]. *)
Definition clamp (lo hi x : R) : R := Rmin (Rmax x lo) hi.

(** [torch.clamp] with bounds that may be infinite: [None] is the infinite
    bound on that side ([-np.inf] below, [np.inf] above). *)
Definition clamp_ext (lo hi : option R) (x : R) : R :=
  let y := match lo with Some l => Rmax x l | None => x end in
  match hi with Some h => Rmin y h | None => y end.

(** [torch.logsumexp(row, dim)] on one row. *)
Definition logsumexp (row : vec) : R := ln (sum (map exp row)).

(** [torch.std(row)] (Bessel's correction). *)
Definition std (row : vec) : R :=
  let m := mean row in
  sqrt (sum (map (fun x => (x - m) ^ 2) row) / (INR (length row) - 1)).

(** [F.mse_loss(input, target)]. *)
Definition mse_loss (input target : vec) : R :=
  mean (map2 (fun a b => (a - b) ^ 2) input target).

(** [torch.max(row, dim=-1)] on one row: the maximum and the position of
    its first occurrence.  torch refuses an empty row. *)
Fixpoint max_from (best : R) (best_i i : nat) (row : vec) : R * nat :=
  match row with
  | [] => (best, best_i)
  | x :: rest =>
      if Rlt_dec best x then max_from x i (S i) rest
      else max_from best best_i (S i) rest
  end.

Definition max_row (row : vec) : exn + R * nat :=
  match row with
  | [] => inl IndexError
  | x :: rest => inr (max_from x 0%nat 1%nat rest)
  end.

Fixpoint max_rows (m : mat) : exn + vec * list nat :=
  match m with
  | [] => inr ([], [])
  | row :: rest =>
      match max_row row with
      | inl e => inl e
      | inr (v, i) =>
          match max_rows rest with
          | inl e => inl e
          | inr (vs, idx) => inr (v :: vs, i :: idx)
          end
      end
  end.

(** [torch.gather(t, -1, index.unsqueeze(-1)).squeeze(-1)]: per row, the
    entry at that row's index. *)
Definition gather_rows (t : mat) (index : list nat) : vec :=
  map2 (fun row i => nth i row 0) t index.

(** [t.unsqueeze(-1)] and [t.squeeze(-1)] between shapes (B,) and (B, 1). *)
Definition unsqueeze (xs : vec) : mat := map (fun x => [x]) xs.

Definition squeeze (m : mat) : vec := map (fun row => hd 0 row) m.

(** [torch.unsqueeze(t, 1)]: the same shape change, read as one candidate
    per row. *)
Definition unsqueeze1 (xs : vec) : mat := map (fun x => [x]) xs.

(** [torch.cat(ts, dim=1)] of tensors with a common batch size. *)
Fixpoint cat1 (ts : list mat) : mat :=
  match ts with
  | [] => []
  | [t] => t
  | t :: rest => map2 (@app R) t (cat1 rest)
  end.

(** [extend_and_repeat(tensor, 1, repeat)]. *)
Definition extend_and_repeat {A} (t : list A) (n : nat) : list (list A) :=
  map (fun row => repeat row n) t.

(** ** torch.distributions *)

(** [Normal(loc, scale).log_prob(value)], one coordinate. *)
Definition Normal_log_prob (loc scale value : R) : R :=
  - ((value - loc) ^ 2) / (2 * scale ^ 2) - ln scale - ln (sqrt (2 * PI)).

(** [Normal(loc, scale).rsample()] for the standard-normal draw [eps]. *)
Definition Normal_rsample (loc scale eps : R) : R := loc + eps * scale.

Definition softplus (x : R) : R := ln (1 + exp x).

(** [TanhTransform]: inverse and log-determinant of the Jacobian. *)
Definition atanh (y : R) : R := (ln (1 + y) - ln (1 - y)) / 2.

Definition log_abs_det_jacobian (x : R) : R :=
  2 * (ln 2 - x - softplus (-2 * x)).

(** [TransformedDistribution(Normal, TanhTransform).log_prob] at the image
    of the pre-activation [x], one coordinate. *)
Definition TanhNormal_log_prob_pre (loc scale x : R) : R :=
  Normal_log_prob loc scale x - log_abs_det_jacobian x.

(** The same at a value [y]: the transform is inverted first. *)
Definition TanhNormal_log_prob (loc scale y : R) : R :=
  TanhNormal_log_prob_pre loc scale (atanh y).

End Torch.

(** ** Networks: initialisation, policy and critics *)

(** Construction time.  The initial weights are random, so a freshly built
    layer is described by the initialiser that filled it. *)
Module Init.

Inductive weight_init : Type :=
| default_weight                 (* left as [nn.Linear] set it *)
| orthogonal_ (gain : R)         (* [nn.init.orthogonal_] *)
| xavier_uniform_ (gain : R).    (* [nn.init.xavier_uniform_] *)

Inductive bias_init : Type :=
| default_bias                   (* left as [nn.Linear] set it *)
| constant_ (val : R).           (* [nn.init.constant_] *)

Inductive submodule : Type :=
| Linear (in_features out_features : nat) (weight : weight_init)
         (bias : bias_init)
| ReLU.

(** [nn.Sequential]. *)
Definition Sequential := list submodule.

(** [nn.Linear(in_features, out_features)]. *)
Definition nn_Linear (in_features out_features : nat) : submodule :=
  Linear in_features out_features default_weight default_bias.

(** The body of the loop over [module[:-1]]. *)
Definition init_inner (s : submodule) : submodule :=
  match s with
  | Linear i o _ _ => Linear i o (orthogonal_ (sqrt 2)) (constant_ 0)
  | ReLU => ReLU
  end.

(** [init_module_weights(module, orthogonal_init)].  [module[-1]] raises on
    an empty container, and [.weight] on a layer without weights. *)
Definition init_module_weights (module : Sequential) (orthogonal_init : bool)
  : exn + Sequential :=
  let inner :=
    if orthogonal_init then map init_inner (removelast module)
    else removelast module in
  match rev module with
  | [] => inl IndexError
  | ReLU :: _ => inl AttributeError
  | Linear i o _ _ :: _ =>
      inr (inner ++
           [Linear i o
              (if orthogonal_init then orthogonal_ 1e-2
               else xavier_uniform_ 1e-2)
              (constant_ 0)])
  end.

End Init.

Module Scalar.

(** [Scalar]: a module holding one learnable number. *)
Record t : Type := mk { constant : R }.

(** [Scalar.forward], called on behalf of the group [id]. *)
Definition forward (id : Torch.leaf) (self : t) : Torch.tensor R :=
  Torch.mkTensor (constant self) [id].

End Scalar.

Module ReparameterizedTanhGaussian.

Import Torch.
Local Open Scope R_scope.

Record t : Type := mk {
  log_std_min : R;
  log_std_max : R;
  no_tanh : bool
}.

(** [ReparameterizedTanhGaussian.__init__] with its default bounds. *)
Definition __init__ (no_tanh : bool) : t := mk (-20) 2 no_tanh.

(** [action_distribution.log_prob(value)], one coordinate. *)
Definition coordinate_log_prob (self : t) (ms : R * R) (value : R) : R :=
  if no_tanh self then Normal_log_prob (fst ms) (snd ms) value
  else TanhNormal_log_prob (fst ms) (snd ms) value.

(** [ReparameterizedTanhGaussian.log_prob(mean, log_std, sample)] on one
    row of the batch. *)
Definition log_prob (self : t) (mean log_std sample : vec) : R :=
  let log_std := map (clamp (log_std_min self) (log_std_max self)) log_std in
  let std := map exp log_std in
  sum (map2 (coordinate_log_prob self) (combine mean std) sample).

(** [ReparameterizedTanhGaussian.forward(mean, log_std, deterministic)] on
    one row; [eps k] is the standard-normal draw behind coordinate [k] of
    [rsample()].  A sample drawn by [rsample] hits the transform's cache
    ([cache_size=1]), so its log-density is taken at the pre-activation. *)
Definition forward (self : t) (mean log_std : vec) (deterministic : bool)
    (eps : nat -> R) : vec * R :=
  let log_std := map (clamp (log_std_min self) (log_std_max self)) log_std in
  let std := map exp log_std in
  if deterministic then
    let action_sample := map tanh mean in
    (action_sample,
     sum (map2 (coordinate_log_prob self) (combine mean std) action_sample))
  else
    let pre :=
      imap (fun k ms => Normal_rsample (fst ms) (snd ms) (eps k))
           (combine mean std) in
    if no_tanh self then
      (pre,
       sum (map2 (fun ms x => Normal_log_prob (fst ms) (snd ms) x)
                 (combine mean std) pre))
    else
      (map tanh pre,
       sum (map2 (fun ms x => TanhNormal_log_prob_pre (fst ms) (snd ms) x)
                 (combine mean std) pre)).

End ReparameterizedTanhGaussian.

(** Parameter tensors of a module, in [parameters()] order, each flattened. *)
Definition Parameters := list (list R).

Module TanhGaussianPolicy.

Import Torch.
Local Open Scope R_scope.

Definition EPS : R := 1e-7.

(** The policy object.  [Net] is the state of [base_network]: its
    initialisers right after construction, its parameter tensors during
    training. *)
Record t (Net : Type) : Type := mk {
  observation_dim : nat;
  action_dim : nat;
  max_action : R;
  orthogonal_init : bool;
  no_tanh : bool;
  base_network : Net;
  log_std_multiplier : Scalar.t;
  log_std_offset : Scalar.t;
  tanh_gaussian : ReparameterizedTanhGaussian.t
}.

Arguments mk {Net}.
Arguments observation_dim {Net}.
Arguments action_dim {Net}.
Arguments max_action {Net}.
Arguments orthogonal_init {Net}.
Arguments no_tanh {Net}.
Arguments base_network {Net}.
Arguments log_std_multiplier {Net}.
Arguments log_std_offset {Net}.
Arguments tanh_gaussian {Net}.

(** [TanhGaussianPolicy.__init__]. *)
Definition __init__ (state_dim action_dim : nat) (max_action : R)
    (log_std_multiplier log_std_offset : R) (orthogonal_init no_tanh : bool)
  : exn + t Init.Sequential :=
  let base_network :=
    [Init.nn_Linear state_dim 256; Init.ReLU;
     Init.nn_Linear 256 256; Init.ReLU;
     Init.nn_Linear 256 256; Init.ReLU;
     Init.nn_Linear 256 (2 * action_dim)] in
  (* init_module_weights(self.base_network): the flag takes its default *)
  match Init.init_module_weights base_network false with
  | inl e => inl e
  | inr base_network =>
      inr (mk state_dim action_dim max_action orthogonal_init no_tanh
              base_network (Scalar.mk log_std_multiplier)
              (Scalar.mk log_std_offset)
              (ReparameterizedTanhGaussian.__init__ no_tanh))
  end.

Section Forward.

(** [nn.Sequential.forward] on one input row, as a function of the
    parameter tensors. *)
Variable apply_net : Parameters -> vec -> vec.

(** The lines shared by [log_prob], [forward] and [get_log_density]: the
    network output split into mean and rescaled log-std. *)
Definition mean_log_std (self : t Parameters) (observation : vec)
  : vec * vec :=
  let base_network_output := apply_net (base_network self) observation in
  let mean := firstn (action_dim self) base_network_output in
  let log_std := skipn (action_dim self) base_network_output in
  (mean,
   map (fun l => Scalar.constant (log_std_multiplier self) * l
                 + Scalar.constant (log_std_offset self)) log_std).

Definition forward_row (self : t Parameters) (deterministic : bool)
    (observation : vec) (eps : nat -> R) : vec * R :=
  let (mean, log_std) := mean_log_std self observation in
  let (actions, log_probs) :=
    ReparameterizedTanhGaussian.forward (tanh_gaussian self) mean log_std
      deterministic eps in
  (map (Rmult (max_action self)) actions, log_probs).

(** [TanhGaussianPolicy.forward(observations, deterministic)] with
    [repeat=None]; [eps i] is the noise behind row [i]. *)
Definition forward (id : leaf) (self : t Parameters) (observations : mat)
    (deterministic : bool) (eps : nat -> nat -> R)
  : tensor mat * tensor vec :=
  let rows :=
    imap (fun i o => forward_row self deterministic o (eps i)) observations in
  (mkTensor (map fst rows) [id], mkTensor (map snd rows) [id]).

(** [TanhGaussianPolicy.forward(observations, deterministic, repeat)]. *)
Definition forward_repeat (id : leaf) (self : t Parameters)
    (observations : mat) (deterministic : bool) (repeat : nat)
    (eps : nat -> nat -> nat -> R)
  : tensor cube * tensor mat :=
  let observations := extend_and_repeat observations repeat in
  let rows :=
    imap (fun i candidates =>
            imap (fun j o => forward_row self deterministic o (eps i j))
                 candidates)
         observations in
  (mkTensor (map (map fst) rows) [id], mkTensor (map (map snd) rows) [id]).

(** [TanhGaussianPolicy.log_prob(observations, actions)] for a
    two-dimensional [actions] (the [ndim == 3] branch is not taken).  The
    body calls the distribution's [forward], which draws a sample of its
    own and returns that sample's log-density. *)
Definition log_prob (id : leaf) (self : t Parameters) (observations : mat)
    (actions : tensor mat) (eps : nat -> nat -> R) : tensor vec :=
  let log_probs :=
    imap (fun i o =>
            let (mean, log_std) := mean_log_std self o in
            snd (ReparameterizedTanhGaussian.forward (tanh_gaussian self)
                   mean log_std false (eps i)))
         observations in
  mkTensor log_probs [id].

(** [TanhGaussianPolicy.get_log_density(observations, action)]. *)
Definition get_log_density (id : leaf) (self : t Parameters)
    (observations : mat) (action : tensor mat) : tensor vec :=
  let rtg := tanh_gaussian self in
  let logp_prob :=
    map2 (fun o a =>
            let (mean, log_std) := mean_log_std self o in
            let log_std :=
              map (clamp (ReparameterizedTanhGaussian.log_std_min rtg)
                         (ReparameterizedTanhGaussian.log_std_max rtg))
                  log_std in
            let std := map exp log_std in
            let action_clip := map (clamp (-1 + EPS) (1 - EPS)) a in
            sum (map2 (fun ms y => TanhNormal_log_prob (fst ms) (snd ms) y)
                      (combine mean std) action_clip))
         observations (data action) in
  mkTensor logp_prob (id :: leaves action).

End Forward.

End TanhGaussianPolicy.

Module FullyConnectedQFunction.

Import Torch.
Local Open Scope R_scope.

Record t (Net : Type) : Type := mk {
  observation_dim : nat;
  action_dim : nat;
  orthogonal_init : bool;
  network : Net
}.

Arguments mk {Net}.
Arguments observation_dim {Net}.
Arguments action_dim {Net}.
Arguments orthogonal_init {Net}.
Arguments network {Net}.

(** The layers appended by the loop over [range(n_hidden_layers - 1)]. *)
Fixpoint hidden (n : nat) : Init.Sequential :=
  match n with
  | O => []
  | S n' => Init.nn_Linear 256 256 :: Init.ReLU :: hidden n'
  end.

(** [FullyConnectedQFunction.__init__]. *)
Definition __init__ (observation_dim action_dim : nat)
    (orthogonal_init : bool) (n_hidden_layers : nat)
  : exn + t Init.Sequential :=
  let layers :=
    [Init.nn_Linear (observation_dim + action_dim) 256; Init.ReLU]
      ++ hidden (n_hidden_layers - 1)
      ++ [Init.nn_Linear 256 1] in
  match Init.init_module_weights layers orthogonal_init with
  | inl e => inl e
  | inr network =>
      inr (mk observation_dim action_dim orthogonal_init network)
  end.

Section Forward.

Variable apply_net : Parameters -> vec -> vec.

(** One evaluation: [squeeze(network(cat([observation, action])), -1)]. *)
Definition q_value (self : t Parameters) (observation action : vec) : R :=
  hd 0 (apply_net (network self) (observation ++ action)).

(** [FullyConnectedQFunction.forward] with one action per row. *)
Definition forward (id : leaf) (self : t Parameters) (observations : mat)
    (actions : tensor mat) : tensor vec :=
  mkTensor (map2 (q_value self) observations (data actions))
           (id :: leaves actions).

(** [FullyConnectedQFunction.forward] with several actions per row
    ([multiple_actions]): the observation is repeated along the candidate
    axis and the values come back as (batch, candidates). *)
Definition forward_multi (id : leaf) (self : t Parameters)
    (observations : mat) (actions : tensor cube) : tensor mat :=
  mkTensor (map2 (fun o candidates => map (q_value self o) candidates)
                 observations (data actions))
           (id :: leaves actions).

End Forward.

End FullyConnectedQFunction.

(** ** The trainer: ContinuousCQL *)

Module CQL.

Import Torch.
Local Open Scope R_scope.
Local Open Scope py_scope.

Module Policy := TanhGaussianPolicy.
Module QFunction := FullyConnectedQFunction.

(** The attributes of the trainer that [__init__] copies from its
    arguments and nothing writes afterwards ([self.discount],
    [self.bc_steps], ...), kept together.  The two clip bounds default to
    minus and plus infinity; [None] is the infinite bound. *)
Record Hyperparameters : Type := mkHyperparameters {
  policy_alpha : R;
  discount : R;
  target_entropy : R;
  alpha_multiplier : R;
  use_automatic_entropy_tuning : bool;
  backup_entropy : bool;
  policy_lr : R;
  qf_lr : R;
  soft_target_update_rate : R;
  bc_steps : Z;
  target_update_period : Z;
  cql_n_actions : nat;
  cql_importance_sample : bool;
  cql_lagrange : bool;
  cql_target_action_gap : R;
  cql_temp : R;
  cql_alpha : R;
  cql_max_target_backup : bool;
  cql_clip_diff_min : option R;
  cql_clip_diff_max : option R
}.

(** The trainer object. *)
Record ContinuousCQL : Type := mkContinuousCQL {
  hyper : Hyperparameters;
  total_it : Z;
  critic_1 : QFunction.t Parameters;
  critic_2 : QFunction.t Parameters;
  target_critic_1 : QFunction.t Parameters;
  target_critic_2 : QFunction.t Parameters;
  actor : Policy.t Parameters;
  log_alpha : option Scalar.t;
  log_alpha_prime : Scalar.t
}.

(** [ContinuousCQL.__init__]: the targets start as copies of the critics. *)
Definition __init__ (h : Hyperparameters)
    (critic_1 critic_2 : QFunction.t Parameters)
    (actor : Policy.t Parameters) : ContinuousCQL :=
  {| hyper := h;
     total_it := 0;
     critic_1 := critic_1;
     critic_2 := critic_2;
     target_critic_1 := critic_1;
     target_critic_2 := critic_2;
     actor := actor;
     log_alpha :=
       if use_automatic_entropy_tuning h then Some (Scalar.mk 0) else None;
     log_alpha_prime := Scalar.mk 1 |}.

Definition set_total_it (v : Z) (s : ContinuousCQL) : ContinuousCQL :=
  mkContinuousCQL (hyper s) v (critic_1 s) (critic_2 s) (target_critic_1 s)
    (target_critic_2 s) (actor s) (log_alpha s) (log_alpha_prime s).

Definition set_critic_1 (v : QFunction.t Parameters) (s : ContinuousCQL)
  : ContinuousCQL :=
  mkContinuousCQL (hyper s) (total_it s) v (critic_2 s) (target_critic_1 s)
    (target_critic_2 s) (actor s) (log_alpha s) (log_alpha_prime s).

Definition set_critic_2 (v : QFunction.t Parameters) (s : ContinuousCQL)
  : ContinuousCQL :=
  mkContinuousCQL (hyper s) (total_it s) (critic_1 s) v (target_critic_1 s)
    (target_critic_2 s) (actor s) (log_alpha s) (log_alpha_prime s).

Definition set_target_critic_1 (v : QFunction.t Parameters)
    (s : ContinuousCQL) : ContinuousCQL :=
  mkContinuousCQL (hyper s) (total_it s) (critic_1 s) (critic_2 s) v
    (target_critic_2 s) (actor s) (log_alpha s) (log_alpha_prime s).

Definition set_target_critic_2 (v : QFunction.t Parameters)
    (s : ContinuousCQL) : ContinuousCQL :=
  mkContinuousCQL (hyper s) (total_it s) (critic_1 s) (critic_2 s)
    (target_critic_1 s) v (actor s) (log_alpha s) (log_alpha_prime s).

Definition set_actor (v : Policy.t Parameters) (s : ContinuousCQL)
  : ContinuousCQL :=
  mkContinuousCQL (hyper s) (total_it s) (critic_1 s) (critic_2 s)
    (target_critic_1 s) (target_critic_2 s) v (log_alpha s)
    (log_alpha_prime s).

Definition set_log_alpha (v : option Scalar.t) (s : ContinuousCQL)
  : ContinuousCQL :=
  mkContinuousCQL (hyper s) (total_it s) (critic_1 s) (critic_2 s)
    (target_critic_1 s) (target_critic_2 s) (actor s) v (log_alpha_prime s).

Definition set_log_alpha_prime (v : Scalar.t) (s : ContinuousCQL)
  : ContinuousCQL :=
  mkContinuousCQL (hyper s) (total_it s) (critic_1 s) (critic_2 s)
    (target_critic_1 s) (target_critic_2 s) (actor s) (log_alpha s) v.

(** *** Target synchronisation *)

Definition lerp (tau target_param source_param : R) : R :=
  (1 - tau) * target_param + tau * source_param.

(** The loop of [soft_update] over [zip(target.parameters(),
    source.parameters())]: the zip stops at the shorter list, and the
    target's remaining tensors are left alone.  Paired tensors have the
    same shape. *)
Fixpoint soft_update_parameters (tau : R) (target source : Parameters)
  : Parameters :=
  match target, source with
  | t :: target', s :: source' =>
      map2 (lerp tau) t s :: soft_update_parameters tau target' source'
  | _, _ => target
  end.

(** Two parameter lists of one architecture: as many tensors, each pair of
    the same size. *)
Definition same_shape (p q : Parameters) : Prop :=
  Forall2 (fun a b => length a = length b) p q.

(** [soft_update(target, source, tau)]. *)
Definition soft_update (target source : QFunction.t Parameters) (tau : R)
  : QFunction.t Parameters :=
  QFunction.mk (QFunction.observation_dim target)
    (QFunction.action_dim target) (QFunction.orthogonal_init target)
    (soft_update_parameters tau (QFunction.network target)
       (QFunction.network source)).

(** [ContinuousCQL.update_target_network]. *)
Definition update_target_network (soft_target_update_rate : R)
    (s : ContinuousCQL) : ContinuousCQL :=
  let s :=
    set_target_critic_1
      (soft_update (target_critic_1 s) (critic_1 s) soft_target_update_rate)
      s in
  set_target_critic_2
    (soft_update (target_critic_2 s) (critic_2 s) soft_target_update_rate) s.

(** *** Autograd and optimizer calls *)

Inductive optimizer : Type :=
| alpha_optimizer
| alpha_prime_optimizer
| actor_optimizer
| critic_1_optimizer
| critic_2_optimizer.

(** The calls a training step makes on autograd and on the optimizers, in
    the order it makes them. *)
Inductive call : Type :=
| zero_grad (o : optimizer)
| backward (loss : tensor R) (retain_graph : bool)
| step (o : optimizer).

(** What a training step can touch: the trainer object and the record of
    the calls made so far. *)
Record World : Type := mkWorld {
  self : ContinuousCQL;
  calls : list call
}.

Definition emit (c : call) : M World unit :=
  modify (fun w => mkWorld (self w) (calls w ++ [c])).

Definition update (f : ContinuousCQL -> ContinuousCQL) : M World unit :=
  modify (fun w => mkWorld (f (self w)) (calls w)).

(** What Adam writes into the parameters is outside the model: the values
    an optimizer step leaves behind are inputs of the training step. *)
Record OptimizerSteps : Type := mkOptimizerSteps {
  stepped_log_alpha : R;
  stepped_log_alpha_prime : R;
  stepped_base_network : Parameters;
  stepped_log_std_multiplier : R;
  stepped_log_std_offset : R;
  stepped_critic_1 : Parameters;
  stepped_critic_2 : Parameters
}.

Definition write_actor (o : OptimizerSteps) (a : Policy.t Parameters)
  : Policy.t Parameters :=
  Policy.mk (Policy.observation_dim a) (Policy.action_dim a)
    (Policy.max_action a) (Policy.orthogonal_init a) (Policy.no_tanh a)
    (stepped_base_network o) (Scalar.mk (stepped_log_std_multiplier o))
    (Scalar.mk (stepped_log_std_offset o)) (Policy.tanh_gaussian a).

Definition write_critic (p : Parameters) (q : QFunction.t Parameters)
  : QFunction.t Parameters :=
  QFunction.mk (QFunction.observation_dim q) (QFunction.action_dim q)
    (QFunction.orthogonal_init q) p.

(** [optimizer.step()]. *)
Definition optimizer_step (opt : optimizer) (o : OptimizerSteps)
  : M World unit :=
  emit (step opt) ;;;
  match opt with
  | alpha_optimizer =>
      update (fun s =>
        set_log_alpha
          (option_map (fun _ => Scalar.mk (stepped_log_alpha o))
             (log_alpha s)) s)
  | alpha_prime_optimizer =>
      update (set_log_alpha_prime (Scalar.mk (stepped_log_alpha_prime o)))
  | actor_optimizer =>
      update (fun s => set_actor (write_actor o (actor s)) s)
  | critic_1_optimizer =>
      update (fun s =>
        set_critic_1 (write_critic (stepped_critic_1 o) (critic_1 s)) s)
  | critic_2_optimizer =>
      update (fun s =>
        set_critic_2 (write_critic (stepped_critic_2 o) (critic_2 s)) s)
  end.

(** The random draws of one training step, by the call that consumes
    them; the indices are batch row, candidate and action coordinate. *)
Record Draws : Type := mkDraws {
  new_actions_eps : nat -> nat -> R;
  log_prob_eps : nat -> nat -> R;
  next_actions_eps : nat -> nat -> R;
  next_actions_repeat_eps : nat -> nat -> nat -> R;
  cql_random : nat -> nat -> nat -> R;
  cql_current_eps : nat -> nat -> nat -> R;
  cql_next_eps : nat -> nat -> nat -> R
}.

(** The log dictionary: the most recent binding of a key comes first. *)
Definition log_dict := list (string * R).

Definition dict_update (new old : log_dict) : log_dict := new ++ old.

Fixpoint dict_get (key : string) (d : log_dict) : option R :=
  match d with
  | [] => None
  | (k, v) :: rest => if String.eqb key k then Some v else dict_get key rest
  end.

(** Scalar and element-wise arithmetic on tensors. *)
Definition scale (a : tensor R) (v : tensor vec) : tensor vec :=
  lift2 (fun a v => map (Rmult a) v) a v.

Definition vsub (u v : tensor vec) : tensor vec := lift2 (map2 Rminus) u v.

Definition vmin (u v : tensor vec) : tensor vec := lift2 (map2 Rmin) u v.

Definition msub (u v : tensor mat) : tensor mat :=
  lift2 (map2 (map2 Rminus)) u v.

Definition mmin (u v : tensor mat) : tensor mat :=
  lift2 (map2 (map2 Rmin)) u v.

Definition tmean (v : tensor vec) : tensor R := lift1 mean v.

(** [torch.cat(ts, dim=1)] on tensors with their graphs. *)
Definition tcat (ts : list (tensor mat)) : tensor mat :=
  mkTensor (cat1 (map data ts)) (concat (map leaves ts)).

Section Networks.

Variable apply_net : Parameters -> vec -> vec.

(** [ContinuousCQL._alpha_and_alpha_loss]; with automatic tuning on and no
    [log_alpha] object the call [self.log_alpha()] raises. *)
Definition _alpha_and_alpha_loss (s : ContinuousCQL) (log_pi : tensor vec)
  : exn + tensor R * tensor R :=
  if use_automatic_entropy_tuning (hyper s) then
    match log_alpha s with
    | None => inl TypeError
    | Some la =>
        let alpha_loss :=
          lift1 Ropp
            (tmean
               (scale (lift1 exp (Scalar.forward LogAlpha la))
                  (detach
                     (lift1 (map (fun x => x + target_entropy (hyper s)))
                        log_pi)))) in
        let alpha :=
          lift1 (fun a => a * alpha_multiplier (hyper s))
            (lift1 exp (Scalar.forward LogAlpha la)) in
        inr (alpha, alpha_loss)
    end
  else
    inr (constant (alpha_multiplier (hyper s)), constant 0).

(** [ContinuousCQL._policy_loss_ori]; [eps] is the noise consumed by the
    call of [self.actor.log_prob]. *)
Definition _policy_loss_ori (s : ContinuousCQL) (observations : mat)
    (actions : tensor mat) (new_actions : tensor mat) (alpha : tensor R)
    (log_pi : tensor vec) (eps : nat -> nat -> R) : tensor R :=
  if (total_it s <=? bc_steps (hyper s))%Z then
    let log_probs :=
      Policy.log_prob apply_net Actor (actor s) observations actions eps in
    tmean (vsub (scale alpha log_pi) log_probs)
  else
    let q_new_actions :=
      vmin (QFunction.forward apply_net Critic1 (critic_1 s) observations
              new_actions)
           (QFunction.forward apply_net Critic2 (critic_2 s) observations
              new_actions) in
    tmean (vsub (scale alpha log_pi) q_new_actions).

(** The density of the dataset actions under the policy, by the
    distribution's own [log_prob(mean, log_std, sample)] (lines 385-396):
    the quantity the behaviour-cloning loss is described with. *)
Definition log_prob_of_dataset_action (pi : Policy.t Parameters)
    (observations actions : mat) : vec :=
  map2 (fun o a =>
          let (mean, log_std) := Policy.mean_log_std apply_net pi o in
          ReparameterizedTanhGaussian.log_prob (Policy.tanh_gaussian pi)
            mean log_std a)
       observations actions.

(** *** The critic loss, in the order of [_q_loss] *)

(** One draw of the policy at an observation: the action and its
    log-probability. *)
Definition policy_draw (s : ContinuousCQL) (observation : vec)
    (eps : nat -> R) : vec * R :=
  Policy.forward_row apply_net (actor s) false observation eps.

(** [min(target_Q1, target_Q2)] at one state-action pair. *)
Definition min_target (s : ContinuousCQL) (observation action : vec) : R :=
  Rmin (QFunction.q_value apply_net (target_critic_1 s) observation action)
       (QFunction.q_value apply_net (target_critic_2 s) observation action).

(** Lines 726-745: the value backed up from the next state, with the
    log-probability of the action it was taken at. *)
Definition target_backup (s : ContinuousCQL) (next_observations : mat)
    (d : Draws) : exn + tensor vec * tensor vec :=
  let h := hyper s in
  if cql_max_target_backup h then
    let (new_next_actions, next_log_pi) :=
      Policy.forward_repeat apply_net Actor (actor s) next_observations
        false (cql_n_actions h) (next_actions_repeat_eps d) in
    let candidates :=
      mmin (QFunction.forward_multi apply_net TargetCritic1
              (target_critic_1 s) next_observations new_next_actions)
           (QFunction.forward_multi apply_net TargetCritic2
              (target_critic_2 s) next_observations new_next_actions) in
    match max_rows (data candidates) with
    | inl e => inl e
    | inr (target_q_values, max_target_indices) =>
        inr (mkTensor target_q_values (leaves candidates),
             lift1 (fun lp => gather_rows lp max_target_indices)
               next_log_pi)
    end
  else
    let (new_next_actions, next_log_pi) :=
      Policy.forward apply_net Actor (actor s) next_observations false
        (next_actions_eps d) in
    inr (vmin (QFunction.forward apply_net TargetCritic1
                 (target_critic_1 s) next_observations new_next_actions)
              (QFunction.forward apply_net TargetCritic2
                 (target_critic_2 s) next_observations new_next_actions),
         next_log_pi).

(** Lines 747-752: the entropy term and the TD target.  Returns
    [target_q_values] (after [unsqueeze(-1)]) and [td_target] (after
    [squeeze(-1)]). *)
Definition td_target (s : ContinuousCQL) (next_observations : mat)
    (rewards dones : mat) (alpha : tensor R) (d : Draws)
  : exn + tensor mat * tensor vec :=
  let h := hyper s in
  match target_backup s next_observations d with
  | inl e => inl e
  | inr (target_q_values, next_log_pi) =>
      let target_q_values :=
        if backup_entropy h then
          vsub target_q_values (scale alpha next_log_pi)
        else target_q_values in
      let target_q_values := lift1 unsqueeze target_q_values in
      let td_target :=
        lift2 (map2 (map2 Rplus)) (constant rewards)
          (lift2 (map2 (map2 Rmult))
             (constant (map (map (fun done => (1 - done) * discount h))
                            dones))
             (detach target_q_values)) in
      inr (target_q_values, lift1 squeeze td_target)
  end.

(** Lines 757-782: the candidate actions and the critic's values at them.
    [cql_random_actions] is filled from the uniform draws; the policy's
    candidates and their log-probabilities are detached. *)
Definition cql_random_actions (actions : mat) (n : nat) (d : Draws)
  : tensor cube :=
  let batch_size := length actions in
  let action_dim := length (hd [] actions) in
  constant
    (map (fun i =>
            map (fun j => map (fun k => cql_random d i j k)
                              (seq 0 action_dim))
                (seq 0 n))
         (seq 0 batch_size)).

Record Candidates : Type := mkCandidates {
  cql_current_log_pis : tensor mat;
  cql_next_log_pis : tensor mat;
  cql_q_rand : tensor mat;
  cql_q_current_actions : tensor mat;
  cql_q_next_actions : tensor mat
}.

Definition candidates (id : leaf) (critic : QFunction.t Parameters)
    (s : ContinuousCQL) (observations actions next_observations : mat)
    (d : Draws) : Candidates :=
  let n := cql_n_actions (hyper s) in
  let (cql_current_actions, cql_current_log_pis) :=
    Policy.forward_repeat apply_net Actor (actor s) observations false n
      (cql_current_eps d) in
  let (cql_next_actions, cql_next_log_pis) :=
    Policy.forward_repeat apply_net Actor (actor s) next_observations false n
      (cql_next_eps d) in
  let cql_current_actions := detach cql_current_actions in
  let cql_current_log_pis := detach cql_current_log_pis in
  let cql_next_actions := detach cql_next_actions in
  let cql_next_log_pis := detach cql_next_log_pis in
  {| cql_current_log_pis := cql_current_log_pis;
     cql_next_log_pis := cql_next_log_pis;
     cql_q_rand :=
       QFunction.forward_multi apply_net id critic observations
         (cql_random_actions actions n d);
     cql_q_current_actions :=
       QFunction.forward_multi apply_net id critic observations
         cql_current_actions;
     cql_q_next_actions :=
       QFunction.forward_multi apply_net id critic observations
         cql_next_actions |}.

(** Row [i] of those tensors, written out: the critic at the uniform
    candidates, the critic at the policy's candidates drawn at [from] (the
    row's state or next state), and those candidates' log-probabilities. *)
Definition q_rand_row (critic : QFunction.t Parameters) (observation : vec)
    (action_dim n : nat) (d : Draws) (i : nat) : vec :=
  map (fun j =>
         QFunction.q_value apply_net critic observation
           (map (fun k => cql_random d i j k) (seq 0 action_dim)))
      (seq 0 n).

Definition q_policy_row (critic : QFunction.t Parameters)
    (pi : Policy.t Parameters) (observation from : vec) (n : nat)
    (eps : nat -> nat -> R) : vec :=
  map (fun j =>
         QFunction.q_value apply_net critic observation
           (fst (Policy.forward_row apply_net pi false from (eps j))))
      (seq 0 n).

Definition log_pi_row (pi : Policy.t Parameters) (from : vec) (n : nat)
    (eps : nat -> nat -> R) : vec :=
  map (fun j => snd (Policy.forward_row apply_net pi false from (eps j)))
      (seq 0 n).

(** Lines 784-801: the concatenation built first, used for the logged
    standard deviation and, without importance sampling, for the
    log-sum-exp. *)
Definition cql_cat_plain (c : Candidates) (q_predicted : tensor vec)
  : tensor mat :=
  tcat [cql_q_rand c;
        lift1 unsqueeze1 q_predicted;
        cql_q_next_actions c;
        cql_q_current_actions c].

(** Lines 805-822: the concatenation that replaces it under importance
    sampling. *)
Definition cql_cat_importance (c : Candidates) (action_dim : nat)
  : tensor mat :=
  let random_density := ln (0.5 ^ action_dim) in
  tcat [lift1 (map (map (fun q => q - random_density))) (cql_q_rand c);
        msub (cql_q_next_actions c) (detach (cql_next_log_pis c));
        msub (cql_q_current_actions c) (detach (cql_current_log_pis c))].

Definition cql_cat (s : ContinuousCQL) (c : Candidates)
    (q_predicted : tensor vec) (actions : mat) : tensor mat :=
  if cql_importance_sample (hyper s) then
    cql_cat_importance c (length (hd [] actions))
  else cql_cat_plain c q_predicted.

(** Row [i] of the two concatenations, written out. *)
Definition ood_row_plain (critic : QFunction.t Parameters)
    (s : ContinuousCQL) (observation action next_observation : vec)
    (action_dim : nat) (d : Draws) (i : nat) : vec :=
  let n := cql_n_actions (hyper s) in
  q_rand_row critic observation action_dim n d i
    ++ [QFunction.q_value apply_net critic observation action]
    ++ q_policy_row critic (actor s) observation next_observation n
         (cql_next_eps d i)
    ++ q_policy_row critic (actor s) observation observation n
         (cql_current_eps d i).

Definition ood_row_importance (critic : QFunction.t Parameters)
    (s : ContinuousCQL) (observation next_observation : vec)
    (action_dim : nat) (d : Draws) (i : nat) : vec :=
  let n := cql_n_actions (hyper s) in
  map (fun q => q - ln (0.5 ^ action_dim))
      (q_rand_row critic observation action_dim n d i)
    ++ map2 Rminus
         (q_policy_row critic (actor s) observation next_observation n
            (cql_next_eps d i))
         (log_pi_row (actor s) next_observation n (cql_next_eps d i))
    ++ map2 Rminus
         (q_policy_row critic (actor s) observation observation n
            (cql_current_eps d i))
         (log_pi_row (actor s) observation n (cql_current_eps d i)).

(** The row as the specification describes it under importance sampling:
    all four groups, the corrections subtracted from the first three, the
    value at the dataset action kept. *)
Definition ood_row_importance_four_groups (critic : QFunction.t Parameters)
    (s : ContinuousCQL) (observation action next_observation : vec)
    (action_dim : nat) (d : Draws) (i : nat) : vec :=
  let n := cql_n_actions (hyper s) in
  map (fun q => q - ln (0.5 ^ action_dim))
      (q_rand_row critic observation action_dim n d i)
    ++ map2 Rminus
         (q_policy_row critic (actor s) observation observation n
            (cql_current_eps d i))
         (log_pi_row (actor s) observation n (cql_current_eps d i))
    ++ map2 Rminus
         (q_policy_row critic (actor s) observation next_observation n
            (cql_next_eps d i))
         (log_pi_row (actor s) next_observation n (cql_next_eps d i))
    ++ [QFunction.q_value apply_net critic observation action].

(** Lines 824-825: [torch.logsumexp(cql_cat / cql_temp, dim=1) * cql_temp],
    on one row; the temperature is not zero and the row not empty. *)
Definition smoothed_max (temp : R) (row : vec) : R :=
  logsumexp (map (fun q => q / temp) row) * temp.

Definition cql_qf_ood (s : ContinuousCQL) (c : Candidates)
    (q_predicted : tensor vec) (actions : mat) : tensor vec :=
  lift1 (map (smoothed_max (cql_temp (hyper s))))
    (cql_cat s c q_predicted actions).

(** Lines 828-837: the clamped gap, averaged over the batch. *)
Definition cql_qf_diff (s : ContinuousCQL) (c : Candidates)
    (q_predicted : tensor vec) (actions : mat) : tensor R :=
  tmean
    (lift1 (map (clamp_ext (cql_clip_diff_min (hyper s))
                           (cql_clip_diff_max (hyper s))))
       (vsub (cql_qf_ood s c q_predicted actions) q_predicted)).

(** Line 840: [clamp(exp(log_alpha_prime()), min=0.0, max=1000000.0)]. *)
Definition lagrange_alpha_prime (s : ContinuousCQL) : tensor R :=
  lift1 (clamp 0 1000000)
    (lift1 exp (Scalar.forward LogAlphaPrime (log_alpha_prime s))).

(** Lines 843-852: one critic's conservative term in Lagrange mode. *)
Definition lagrange_term (s : ContinuousCQL) (alpha_prime diff : tensor R)
  : tensor R :=
  lift2 Rmult
    (lift1 (fun a => a * cql_alpha (hyper s)) alpha_prime)
    (lift1 (fun x => x - cql_target_action_gap (hyper s)) diff).

(** Line 855: [(-cql_min_qf1_loss - cql_min_qf2_loss) * 0.5]. *)
Definition lagrange_alpha_prime_loss (l1 l2 : tensor R) : tensor R :=
  lift1 (fun x => x * 0.5) (lift2 Rminus (lift1 Ropp l1) l2).

(** Lines 859-860: one critic's conservative term with a fixed weight. *)
Definition fixed_term (s : ContinuousCQL) (diff : tensor R) : tensor R :=
  lift1 (fun x => x * cql_alpha (hyper s)) diff.

Definition mean_all (m : mat) : R := mean (concat m).

(** [ContinuousCQL._q_loss].  Returns [qf_loss], [alpha_prime],
    [alpha_prime_loss] and the updated log dictionary; in Lagrange mode it
    steps the multiplier's optimizer before returning. *)
Definition _q_loss (observations actions next_observations rewards dones : mat)
    (alpha : tensor R) (log : log_dict) (d : Draws) (o : OptimizerSteps)
  : M World (tensor R * tensor R * tensor R * log_dict) :=
  w <- get ;;
  let s := self w in
  let h := hyper s in
  let q1_predicted :=
    QFunction.forward apply_net Critic1 (critic_1 s) observations
      (constant actions) in
  let q2_predicted :=
    QFunction.forward apply_net Critic2 (critic_2 s) observations
      (constant actions) in
  tt' <- lift (td_target s next_observations rewards dones alpha d) ;;
  let target_q_values := fst tt' in
  let td_target := snd tt' in
  let qf1_loss := lift2 mse_loss q1_predicted (detach td_target) in
  let qf2_loss := lift2 mse_loss q2_predicted (detach td_target) in
  (* CQL *)
  let c1 := candidates Critic1 (critic_1 s) s observations actions
              next_observations d in
  let c2 := candidates Critic2 (critic_2 s) s observations actions
              next_observations d in
  let cql_std_q1 := lift1 (map std) (cql_cat_plain c1 q1_predicted) in
  let cql_std_q2 := lift1 (map std) (cql_cat_plain c2 q2_predicted) in
  let cql_qf1_diff := cql_qf_diff s c1 q1_predicted actions in
  let cql_qf2_diff := cql_qf_diff s c2 q2_predicted actions in
  r <- (if cql_lagrange h then
          let alpha_prime := lagrange_alpha_prime s in
          let cql_min_qf1_loss := lagrange_term s alpha_prime cql_qf1_diff in
          let cql_min_qf2_loss := lagrange_term s alpha_prime cql_qf2_diff in
          emit (zero_grad alpha_prime_optimizer) ;;;
          let alpha_prime_loss :=
            lagrange_alpha_prime_loss cql_min_qf1_loss cql_min_qf2_loss in
          emit (backward alpha_prime_loss true) ;;;
          optimizer_step alpha_prime_optimizer o ;;;
          ret (cql_min_qf1_loss, cql_min_qf2_loss, alpha_prime_loss,
               alpha_prime)
        else
          ret (fixed_term s cql_qf1_diff, fixed_term s cql_qf2_diff,
               constant 0, constant 0)) ;;
  let '(cql_min_qf1_loss, cql_min_qf2_loss, alpha_prime_loss, alpha_prime) :=
    r in
  let qf_loss :=
    lift2 Rplus
      (lift2 Rplus (lift2 Rplus qf1_loss qf2_loss) cql_min_qf1_loss)
      cql_min_qf2_loss in
  let log :=
    dict_update
      [("qf1_loss", data qf1_loss);
       ("qf2_loss", data qf2_loss);
       ("alpha", data alpha);
       ("average_qf1", mean (data q1_predicted));
       ("average_qf2", mean (data q2_predicted));
       ("average_target_q", mean_all (data target_q_values))]%string
      log in
  let log :=
    dict_update
      [("cql_std_q1", mean (data cql_std_q1));
       ("cql_std_q2", mean (data cql_std_q2));
       ("cql_q1_rand", mean_all (data (cql_q_rand c1)));
       ("cql_q2_rand", mean_all (data (cql_q_rand c2)));
       ("cql_min_qf1_loss", data cql_min_qf1_loss);
       ("cql_min_qf2_loss", data cql_min_qf2_loss);
       ("cql_qf1_diff", data cql_qf1_diff);
       ("cql_qf2_diff", data cql_qf2_diff);
       ("cql_q1_current_actions", mean_all (data (cql_q_current_actions c1)));
       ("cql_q2_current_actions", mean_all (data (cql_q_current_actions c2)));
       ("cql_q1_next_actions", mean_all (data (cql_q_next_actions c1)));
       ("cql_q2_next_actions", mean_all (data (cql_q_next_actions c2)));
       ("alpha_prime_loss", data alpha_prime_loss);
       ("alpha_prime", data alpha_prime)]%string
      log in
  ret (qf_loss, alpha_prime, alpha_prime_loss, log).

(** [total_it % target_update_period == 0] on Python integers. *)
Definition is_sync_step (s : ContinuousCQL) : exn + bool :=
  if (target_update_period (hyper s) =? 0)%Z then inl ZeroDivisionError
  else inr ((total_it s mod target_update_period (hyper s)) =? 0)%Z.

(** Lines 982-998 of [train_ori]: the optimizer steps in their order,
    then the conditional target synchronisation. *)
Definition apply_updates (alpha_loss policy_loss qf_loss : tensor R)
    (o : OptimizerSteps) : M World unit :=
  w <- get ;;
  (if use_automatic_entropy_tuning (hyper (self w)) then
     emit (zero_grad alpha_optimizer) ;;;
     emit (backward alpha_loss false) ;;;
     optimizer_step alpha_optimizer o
   else ret tt) ;;;
  emit (zero_grad actor_optimizer) ;;;
  emit (backward policy_loss false) ;;;
  optimizer_step actor_optimizer o ;;;
  emit (zero_grad critic_1_optimizer) ;;;
  emit (zero_grad critic_2_optimizer) ;;;
  emit (backward qf_loss true) ;;;
  optimizer_step critic_1_optimizer o ;;;
  optimizer_step critic_2_optimizer o ;;;
  w <- get ;;
  sync <- lift (is_sync_step (self w)) ;;
  if sync : bool then
    update (update_target_network (soft_target_update_rate (hyper (self w))))
  else ret tt.

(** [ContinuousCQL.train_ori]. *)
Definition train_ori (batch : list mat) (d : Draws) (o : OptimizerSteps)
  : M World log_dict :=
  match batch with
  | [observations; actions; rewards; next_observations; dones] =>
      update (fun s => set_total_it (total_it s + 1) s) ;;;
      w <- get ;;
      let s := self w in
      let (new_actions, log_pi) :=
        Policy.forward apply_net Actor (actor s) observations false
          (new_actions_eps d) in
      aa <- lift (_alpha_and_alpha_loss s log_pi) ;;
      let alpha := fst aa in
      let alpha_loss := snd aa in
      (* Policy loss *)
      let policy_loss :=
        _policy_loss_ori s observations (constant actions) new_actions alpha
          log_pi (log_prob_eps d) in
      let log :=
        [("log_pi", mean (data log_pi));
         ("policy_loss", data policy_loss);
         ("alpha_loss", data alpha_loss);
         ("alpha", data alpha)]%string in
      (* Q function loss *)
      q <- _q_loss observations actions next_observations rewards dones
             alpha log d o ;;
      let '(qf_loss, alpha_prime, alpha_prime_loss, log) := q in
      apply_updates alpha_loss policy_loss qf_loss o ;;;
      ret log
  | _ =>
      raise (ValueError
               (if (length batch <? 5)%nat then "not enough values to unpack"
                else "too many values to unpack"))
  end.

End Networks.

(** The trainer once the optimizer steps of one training step have written
    their results; [s] is the trainer after the counter was incremented. *)
Definition after_steps (o : OptimizerSteps) (s : ContinuousCQL)
  : ContinuousCQL :=
  let s :=
    if cql_lagrange (hyper s) then
      set_log_alpha_prime (Scalar.mk (stepped_log_alpha_prime o)) s
    else s in
  let s :=
    if use_automatic_entropy_tuning (hyper s) then
      set_log_alpha
        (option_map (fun _ => Scalar.mk (stepped_log_alpha o)) (log_alpha s))
        s
    else s in
  let s := set_actor (write_actor o (actor s)) s in
  let s := set_critic_1 (write_critic (stepped_critic_1 o) (critic_1 s)) s in
  set_critic_2 (write_critic (stepped_critic_2 o) (critic_2 s)) s.

(** The calls of one training step: the multiplier's step (Lagrange mode),
    the temperature's step (automatic tuning), the actor's step and the
    joint step of the two critics. *)
Definition training_calls (h : Hyperparameters)
    (alpha_prime_loss alpha_loss policy_loss qf_loss : tensor R)
  : list call :=
  (if cql_lagrange h then
     [zero_grad alpha_prime_optimizer;
      backward alpha_prime_loss true;
      step alpha_prime_optimizer]
   else [])
  ++ (if use_automatic_entropy_tuning h then
        [zero_grad alpha_optimizer;
         backward alpha_loss false;
         step alpha_optimizer]
      else [])
  ++ [zero_grad actor_optimizer;
      backward policy_loss false;
      step actor_optimizer;
      zero_grad critic_1_optimizer;
      zero_grad critic_2_optimizer;
      backward qf_loss true;
      step critic_1_optimizer;
      step critic_2_optimizer].

End CQL.

(** ** Small concrete inputs *)

Module BufferExample.

Import Buffer.

(** A dataset with no transition, and one with a single transition. *)
Definition empty_dataset : Dataset := mkDataset [] [] [] [] [].

Definition one_transition : Dataset :=
  mkDataset [[1; 2]]%R [[3]]%R [4]%R [[5; 6]]%R [0]%R.

Definition exact (x : R) : R := x.

Definition zero_words : RandomState := mkRandomState (fun _ => 0) 0.

End BufferExample.

Module Example.

Import Torch CQL.
Local Open Scope R_scope.

(** A network with all weights at zero: two outputs, both 0. *)
Definition zero_net (_ : Parameters) (_ : list R) : list R := [0; 0].

(** A one-dimensional policy with [log_std_multiplier = 1] and
    [log_std_offset = 0], and a critic with two parameter tensors. *)
Definition actor0 : Policy.t Parameters :=
  Policy.mk 1 1 1 false false [] (Scalar.mk 1) (Scalar.mk 0)
    (ReparameterizedTanhGaussian.__init__ false).

Definition critic0 : QFunction.t Parameters :=
  QFunction.mk 1 1 false [[1; 2]; [3]].

(** One candidate per group, temperature 1, no automatic entropy tuning,
    target synchronisation at every step with rate 0.5, no behaviour
    cloning steps. *)
Definition hyper0 (importance_sample lagrange : bool) : Hyperparameters :=
  {| policy_alpha := 0.6;
     discount := 0.99;
     target_entropy := -1;
     alpha_multiplier := 1;
     use_automatic_entropy_tuning := false;
     backup_entropy := false;
     policy_lr := 3e-5;
     qf_lr := 3e-4;
     soft_target_update_rate := 0.5;
     bc_steps := 0;
     target_update_period := 1;
     cql_n_actions := 1;
     cql_importance_sample := importance_sample;
     cql_lagrange := lagrange;
     cql_target_action_gap := -1;
     cql_temp := 1;
     cql_alpha := 10;
     cql_max_target_backup := false;
     cql_clip_diff_min := None;
     cql_clip_diff_max := None |}.

Definition trainer0 (importance_sample lagrange : bool) : ContinuousCQL :=
  __init__ (hyper0 importance_sample lagrange) critic0 critic0 actor0.

(** A batch of one transition. *)
Definition observations0 : list (list R) := [[0]].
Definition actions0 : list (list R) := [[0]].
Definition rewards0 : list (list R) := [[1]].
Definition next_observations0 : list (list R) := [[0]].
Definition dones0 : list (list R) := [[0]].

Definition batch0 : list (list (list R)) :=
  [observations0; actions0; rewards0; next_observations0; dones0].

(** Every draw is 0, except as stated. *)
Definition draws0 : Draws :=
  {| new_actions_eps := fun _ _ => 0;
     log_prob_eps := fun _ _ => 0;
     next_actions_eps := fun _ _ => 0;
     next_actions_repeat_eps := fun _ _ _ => 0;
     cql_random := fun _ _ _ => 0;
     cql_current_eps := fun _ _ _ => 0;
     cql_next_eps := fun _ _ _ => 0 |}.

(** The draw inside [actor.log_prob] is 1. *)
Definition unit_eps (_ _ : nat) : R := 1.

(** The optimizers leave [[5; 6]; [7]] in both critics. *)
Definition steps0 : OptimizerSteps :=
  {| stepped_log_alpha := 0;
     stepped_log_alpha_prime := 2;
     stepped_base_network := [];
     stepped_log_std_multiplier := 1;
     stepped_log_std_offset := 0;
     stepped_critic_1 := [[5; 6]; [7]];
     stepped_critic_2 := [[5; 6]; [7]] |}.

Definition world0 (importance_sample lagrange : bool) : World :=
  mkWorld (trainer0 importance_sample lagrange) [].

End Example.

(** ** Further definitions *)

Module More.

Import Torch CQL.
Local Open Scope R_scope.

(** [k] synchronisations against a source that does not move. *)
Fixpoint sync_times (k : nat) (tau : R) (target source : Parameters)
  : Parameters :=
  match k with
  | O => target
  | S k' => soft_update_parameters tau (sync_times k' tau target source) source
  end.

(** Lines 1096-1104 of [train]: the two critics.  The first takes its
    depth from the configuration; the second is built without the depth
    argument, which then has its default, 3. *)
Definition build_critics (state_dim action_dim : nat)
    (orthogonal_init : bool) (q_n_hidden_layers : nat)
  : exn + QFunction.t Init.Sequential * QFunction.t Init.Sequential :=
  match QFunction.__init__ state_dim action_dim orthogonal_init
          q_n_hidden_layers with
  | inl e => inl e
  | inr critic_1 =>
      match QFunction.__init__ state_dim action_dim orthogonal_init 3 with
      | inl e => inl e
      | inr critic_2 => inr (critic_1, critic_2)
      end
  end.

Section Acting.

Variable apply_net : Parameters -> vec -> vec.

(** [TanhGaussianPolicy.act(state)]: the state becomes a batch of one row,
    the policy's [forward] runs on it, deterministic unless the module is
    in training mode, and the one action that comes back is flattened. *)
Definition act (self : Policy.t Parameters) (training : bool) (state : vec)
    (eps : nat -> R) : vec :=
  let (actions, _) :=
    Policy.forward apply_net Actor self [state] (negb training)
      (fun _ => eps) in
  concat (data actions).

End Acting.

End More.

(** ** Dataset utilities *)

Module Data.

Import Buffer.
Local Open Scope R_scope.

(** What the reward utilities can raise: the exceptions above, and the
    failure of an [assert]. *)
Inductive error : Type :=
| Raised (e : exn)
| AssertionError.

(** Truth value of an array entry used as a condition. *)
Definition truthy (d : R) : bool := if Req_dec_T d 0 then false else true.

(** The loop variables of [return_reward_range]. *)
Record episodes : Type := mkEpisodes {
  returns : list R;
  lengths : list nat;
  ep_ret : R;
  ep_len : nat
}.

(** One pass through the body of the loop over
    [zip(dataset["rewards"], dataset["terminals"])]. *)
Definition episode_step (max_episode_steps : Z) (st : episodes)
    (rd : R * R) : episodes :=
  let ep_ret := ep_ret st + fst rd in
  let ep_len := (ep_len st + 1)%nat in
  if truthy (snd rd) || (Z.of_nat ep_len =? max_episode_steps)%Z then
    mkEpisodes (returns st ++ [ep_ret]) (lengths st ++ [ep_len]) 0 0
  else
    mkEpisodes (returns st) (lengths st) ep_ret ep_len.

Definition episode_loop (max_episode_steps : Z) (rewards terminals : list R)
  : episodes :=
  fold_left (episode_step max_episode_steps) (combine rewards terminals)
    (mkEpisodes [] [] 0 0).

(** [min(returns)] and [max(returns)] of a non-empty list. *)
Definition list_min (x : R) (rest : list R) : R := fold_left Rmin rest x.
Definition list_max (x : R) (rest : list R) : R := fold_left Rmax rest x.

(** [return_reward_range(dataset, max_episode_steps)]. *)
Definition return_reward_range (dataset : Dataset) (max_episode_steps : Z)
  : error + R * R :=
  let st :=
    episode_loop max_episode_steps (rewards dataset) (terminals dataset) in
  let lengths := lengths st ++ [ep_len st] in
  if (list_sum lengths =? length (rewards dataset))%nat then
    match returns st with
    | [] => inl (Raised (ValueError "min() arg is an empty sequence"))
    | x :: rest => inr (list_min x rest, list_max x rest)
    end
  else inl AssertionError.

(** [s in env_name] on strings. *)
Definition contains (s env_name : string) : bool :=
  match String.index 0 s env_name with
  | Some _ => true
  | None => false
  end.

Definition set_rewards (v : list R) (d : Dataset) : Dataset :=
  mkDataset (observations d) (actions d) v (next_observations d)
    (terminals d).

(** [modify_reward(dataset, env_name, max_episode_steps, reward_scale,
    reward_bias)]; the result is the dictionary as the call leaves it. *)
Definition modify_reward (dataset : Dataset) (env_name : string)
    (max_episode_steps : Z) (reward_scale reward_bias : R)
  : error + Dataset :=
  let normalised :=
    if existsb (fun s => contains s env_name)
         ["halfcheetah"; "hopper"; "walker2d"]%string
    then
      match return_reward_range dataset max_episode_steps with
      | inl e => inl e
      | inr (min_ret, max_ret) =>
          inr (map (fun r => r / (max_ret - min_ret) * IZR max_episode_steps)
                 (rewards dataset))
      end
    else inr (rewards dataset) in
  match normalised with
  | inl e => inl e
  | inr rewards =>
      inr (set_rewards (map (fun r => r * reward_scale + reward_bias) rewards)
             dataset)
  end.

(** *** State normalisation *)

(** Column [j] of a two-dimensional array. *)
Definition column (j : nat) (states : list (list R)) : list R :=
  map (fun row => nth j row 0) states.

Definition n_columns (states : list (list R)) : nat :=
  length (hd [] states).

(** [xs.std()] of numpy: the population standard deviation. *)
Definition np_std (xs : list R) : R :=
  let m := Torch.mean xs in
  sqrt (Torch.mean (map (fun x => (x - m) ^ 2) xs)).

(** [states.mean(0)] and [states.std(0)] of an array with at least one
    row. *)
Definition mean0 (states : list (list R)) : list R :=
  map (fun j => Torch.mean (column j states)) (seq 0 (n_columns states)).

Definition std0 (states : list (list R)) : list R :=
  map (fun j => np_std (column j states)) (seq 0 (n_columns states)).

(** [compute_mean_std(states, eps)]. *)
Definition compute_mean_std (states : list (list R)) (eps : R)
  : list R * list R :=
  let mean := mean0 states in
  let std := map (fun s => s + eps) (std0 states) in
  (mean, std).

(** The statistics passed around are arrays, or the numbers 0 and 1 when
    normalisation is off. *)
Inductive operand : Type :=
| scalar (x : R)
| array (v : list R).

(** A row combined with an operand under numpy's broadcasting; an array
    operand has the row's length. *)
Definition broadcast (f : R -> R -> R) (row : list R) (o : operand)
  : list R :=
  match o with
  | scalar x => map (fun a => f a x) row
  | array v => Torch.map2 f row v
  end.

(** [normalize_states(states, mean, std)]. *)
Definition normalize_states (states : list (list R)) (mean std : operand)
  : list (list R) :=
  map (fun row => broadcast Rdiv (broadcast Rminus row mean) std) states.

(** *** Splitting a dataset *)

(** One transition as [dataset_split_diy] collects it.  The function
    keeps one list of trajectories per field and appends to all of them
    in step; here they are one list of trajectories of records. *)
Record transition : Type := mkTransition {
  obs : list R;
  next_obs : list R;
  action : list R;
  reward : R;
  done : bool
}.

(** One dictionary of the returned stack. *)
Record SplitDataset : Type := mkSplitDataset {
  split_observations : list (list R);
  split_actions : list (list R);
  split_next_observations : list (list R);
  split_rewards : list R;
  split_terminals : list bool
}.

(** [trajs[-1].append(x)]. *)
Fixpoint append_to_last {A : Type} (x : A) (trajs : list (list A))
  : list (list A) :=
  match trajs with
  | [] => []
  | [t] => [t ++ [x]]
  | t :: rest => t :: append_to_last x rest
  end.

(** [l[lo:hi]] for bounds that are not negative. *)
Definition slice {A : Type} (lo hi : nat) (l : list A) : list A :=
  firstn (hi - lo) (skipn lo l).

(** Results of a list of computations, up to the first that raises. *)
Fixpoint collect {A : Type} (rs : list (exn + A)) : exn + list A :=
  match rs with
  | [] => inr []
  | inl e :: _ => inl e
  | inr a :: rest =>
      match collect rest with
      | inl e => inl e
      | inr l => inr (a :: l)
      end
  end.

Definition is_empty {A : Type} (l : list A) : bool :=
  match l with [] => true | _ => false end.

(** The arrays are long enough for every read of the first loop, which
    takes its bound from the rewards. *)
Definition readable (dataset : Dataset) : Prop :=
  let n := length (rewards dataset) in
  (n <= length (observations dataset))%nat /\
  (n - 1 <= length (actions dataset))%nat /\
  (n - 1 <= length (terminals dataset))%nat.

Section Split.

(** [x.astype(np.float32)] on one entry. *)
Variable float32 : R -> R.

(** The five reads of one pass through the first loop. *)
Definition read_transition (dataset : Dataset) (i : nat)
  : exn + transition :=
  match nth_error (observations dataset) i,
        nth_error (observations dataset) (i + 1),
        nth_error (actions dataset) i,
        nth_error (rewards dataset) i,
        nth_error (terminals dataset) i with
  | Some o, Some o', Some a, Some r, Some d =>
      inr (mkTransition (map float32 o) (map float32 o') (map float32 a)
             (float32 r) (truthy d))
  | _, _, _, _, _ => inl IndexError
  end.

(** The loop over [range(n - 1)], from the indices still to visit. *)
Fixpoint split_loop (dataset : Dataset) (n : nat) (terminate_on_end : bool)
    (indices : list nat) (trajs : list (list transition))
  : exn + list (list transition) :=
  match indices with
  | [] => inr trajs
  | i :: rest =>
      match read_transition dataset i with
      | inl e => inl e
      | inr t =>
          let trajs := append_to_last t trajs in
          let trajs :=
            if negb terminate_on_end && negb (i =? n - 2)%nat
            then trajs ++ [[]]
            else trajs in
          split_loop dataset n terminate_on_end rest trajs
      end
  end.

(** The dictionary built from one selection of trajectories.
    [np.concatenate] refuses an empty list, and arrays of different
    dimensionality: an empty trajectory is a one-dimensional array, a
    trajectory of observation rows a two-dimensional one. *)
Definition dataset_dict (trajectories : list (list transition))
  : exn + SplitDataset :=
  match trajectories with
  | [] => inl (ValueError "need at least one array to concatenate")
  | _ =>
      if existsb is_empty trajectories
         && existsb (fun t => negb (is_empty t)) trajectories
      then
        inl (ValueError
               "all the input arrays must have same number of dimensions")
      else
        let ts := concat trajectories in
        inr (mkSplitDataset (map obs ts) (map action ts) (map next_obs ts)
               (map reward ts) (map done ts))
  end.

(** [dataset_split_diy(dataset, size, num_dataset, terminate_on_end)],
    for a [size] that is not negative. *)
Definition dataset_split_diy (dataset : Dataset) (size num_dataset : nat)
    (terminate_on_end : bool) : exn + list SplitDataset :=
  let n := length (rewards dataset) in
  let split_point := size in
  match split_loop dataset n terminate_on_end (seq 0 (n - 1)) [[]] with
  | inl e => inl e
  | inr obs_traj =>
      (* Select trajs *)
      let inds_all := seq 0 (length obs_traj) in
      let inds_data :=
        map (fun i =>
               slice (i * split_point) ((i + 1) * split_point) inds_all)
            (seq 0 num_dataset) in
      let subsets :=
        map (fun inds => map (fun j => nth j obs_traj []) inds) inds_data in
      collect (map dataset_dict subsets)
  end.

(** Transition [k] of a dataset: the observation, action, reward and
    terminal flag at row [k], and the observation at row [k + 1]. *)
Definition transition_at (dataset : Dataset) (k : nat) : transition :=
  mkTransition (map float32 (nth k (observations dataset) []))
    (map float32 (nth (k + 1) (observations dataset) []))
    (map float32 (nth k (actions dataset) []))
    (float32 (nth k (rewards dataset) 0))
    (truthy (nth k (terminals dataset) 0)).

(** The dictionary holding the transitions [ks], in that order. *)
Definition transitions_dict (dataset : Dataset) (ks : list nat)
  : SplitDataset :=
  mkSplitDataset
    (map (fun k => obs (transition_at dataset k)) ks)
    (map (fun k => action (transition_at dataset k)) ks)
    (map (fun k => next_obs (transition_at dataset k)) ks)
    (map (fun k => reward (transition_at dataset k)) ks)
    (map (fun k => done (transition_at dataset k)) ks).

End Split.

(** The loop variables when every reward is multiplied by [c]. *)
Definition scale_episodes (c : R) (st : episodes) : episodes :=
  mkEpisodes (map (Rmult c) (returns st)) (lengths st) (c * ep_ret st)
    (ep_len st).

End Data.

(** ** Further concrete inputs *)

Module MoreExample.

Import Torch CQL Example.
Local Open Scope R_scope.

(** Two parameter lists of one architecture. *)
Definition params_a : Parameters := [[1; 2]; [3]].
Definition params_b : Parameters := [[5; 6]; [7]].

(** The hyperparameters of [hyper0 false false] with automatic entropy
    tuning on. *)
Definition hyper_auto : Hyperparameters :=
  {| policy_alpha := 0.6;
     discount := 0.99;
     target_entropy := -1;
     alpha_multiplier := 1;
     use_automatic_entropy_tuning := true;
     backup_entropy := false;
     policy_lr := 3e-5;
     qf_lr := 3e-4;
     soft_target_update_rate := 0.5;
     bc_steps := 0;
     target_update_period := 1;
     cql_n_actions := 1;
     cql_importance_sample := false;
     cql_lagrange := false;
     cql_target_action_gap := -1;
     cql_temp := 1;
     cql_alpha := 10;
     cql_max_target_backup := false;
     cql_clip_diff_min := None;
     cql_clip_diff_max := None |}.

Definition trainer_auto : ContinuousCQL :=
  __init__ hyper_auto critic0 critic0 actor0.

(** The hyperparameters of [hyper0 false false] with a synchronisation
    period of 0. *)
Definition hyper_zero_period : Hyperparameters :=
  {| policy_alpha := 0.6;
     discount := 0.99;
     target_entropy := -1;
     alpha_multiplier := 1;
     use_automatic_entropy_tuning := false;
     backup_entropy := false;
     policy_lr := 3e-5;
     qf_lr := 3e-4;
     soft_target_update_rate := 0.5;
     bc_steps := 0;
     target_update_period := 0;
     cql_n_actions := 1;
     cql_importance_sample := false;
     cql_lagrange := false;
     cql_target_action_gap := -1;
     cql_temp := 1;
     cql_alpha := 10;
     cql_max_target_backup := false;
     cql_clip_diff_min := None;
     cql_clip_diff_max := None |}.

Definition world_zero_period : World :=
  mkWorld (__init__ hyper_zero_period critic0 critic0 actor0) [].


(** Two episodes of one step each, with returns 1 and 3. *)
Definition two_episodes : Buffer.Dataset :=
  Buffer.mkDataset [[0]; [0]] [[0]; [0]] [1; 3] [[0]; [0]] [1; 1].

(** Three rows of a one-dimensional task. *)
Definition three_rows : Buffer.Dataset :=
  Buffer.mkDataset [[1]; [2]; [3]] [[10]; [20]; [30]] [1; 2; 3]
    [[7]; [8]; [9]] [0; 0; 1].

(** Two states of dimension one. *)
Definition two_states : list (list R) := [[1]; [3]].

End MoreExample.
(** ** The monad's equations *)

Section MonadSteps.

Context {S A B : Type}.

Lemma bind_ret (a : A) (k : A -> M S B) (s : S) : bind (ret a) k s = k a s.
Proof. reflexivity. Qed.

Lemma bind_raise (e : exn) (k : A -> M S B) (s : S) :
  bind (raise e) k s = (inl e, s).
Proof. reflexivity. Qed.

Lemma bind_get (k : S -> M S B) (s : S) : bind get k s = k s s.
Proof. reflexivity. Qed.

Lemma bind_modify (f : S -> S) (k : unit -> M S B) (s : S) :
  bind (modify f) k s = k tt (f s).
Proof. reflexivity. Qed.

Lemma bind_put (s' : S) (k : unit -> M S B) (s : S) :
  bind (put s') k s = k tt s'.
Proof. reflexivity. Qed.

Lemma bind_assoc {C : Type} (m : M S A) (f : A -> M S B) (g : B -> M S C)
    (s : S) :
  bind (bind m f) g s = bind m (fun x => bind (f x) g) s.
Proof.
  unfold bind. destruct (m s) as [[e | a] s']; reflexivity.
Qed.

Lemma bind_run (m : M S A) (k : A -> M S B) (s s' : S) (a : A) :
  m s = (inr a, s') -> bind m k s = k a s'.
Proof. intros H. unfold bind. rewrite H. reflexivity. Qed.

End MonadSteps.

Ltac monad_steps :=
  repeat first
    [ rewrite bind_assoc
    | rewrite bind_ret
    | rewrite bind_get
    | rewrite bind_modify
    | rewrite bind_put
    | rewrite bind_raise ].

(** ** Replay buffer: facts *)

Module BufferFacts.

Import Buffer.

Lemma index_rows_in_range (t : list (list R)) (indices : list nat) :
  Forall (fun i => i < length t) indices ->
  index_rows t indices = inr (map (fun i => nth i t []) indices).
Proof.
  induction 1 as [| i rest Hi _ IH]; simpl.
  - reflexivity.
  - destruct (nth_error t i) as [row |] eqn:E.
    + rewrite IH. f_equal. f_equal.
      symmetry. apply nth_error_nth. exact E.
    + apply nth_error_None in E. lia.
Qed.

Lemma randint_spec (low high size : nat) (g : RandomState) :
  low < high ->
  exists indices,
    randint low high size g
      = (inr indices, mkRandomState (raw g) (cursor g + size)) /\
    length indices = size /\
    Forall (fun i => low <= i < high) indices.
Proof.
  intros Hlt. unfold randint.
  destruct (high <=? low) eqn:E.
  - apply Nat.leb_le in E. lia.
  - eexists. split; [reflexivity |]. split.
    + rewrite length_map, length_seq. reflexivity.
    + apply Forall_forall. intros i Hi.
      apply in_map_iff in Hi. destruct Hi as [k [<- _]].
      pose proof (Nat.mod_upper_bound (raw g (cursor g + k)) (high - low)).
      lia.
Qed.

Lemma nth_map_in_range {A B} (f : A -> B) (l : list A) (db : B) (da : A)
    (i : nat) :
  i < length l -> nth i (map f l) db = f (nth i l da).
Proof.
  intros Hi.
  rewrite (nth_indep (map f l) db (f da)) by (rewrite length_map; exact Hi).
  apply map_nth.
Qed.

Section WithCast.

Variable float32 : R -> R.

Lemma assign_prefix_exact (n : nat) (src dst : list (list R)) :
  length src = n -> assign_prefix n src dst = inr (src ++ skipn n dst).
Proof.
  intros H. unfold assign_prefix.
  apply Nat.eqb_eq in H. rewrite H. reflexivity.
Qed.

Lemma load_fresh (state_dim action_dim buffer_size : nat) (d : Dataset) :
  wf_dataset d ->
  length (observations d) <= buffer_size ->
  load_d4rl_dataset float32 d (init state_dim action_dim buffer_size)
    = (inr tt, loaded float32 state_dim action_dim buffer_size d).
Proof.
  intros (Ha & Hr & Hn & Ht) Hle.
  assert (E : (buffer_size <? length (observations d)) = false)
    by (apply Nat.ltb_ge; exact Hle).
  unfold load_d4rl_dataset. rewrite bind_get.
  cbn [init _size _buffer_size _states _actions _rewards _next_states _dones
       Nat.eqb negb].
  rewrite E.
  rewrite !assign_prefix_exact
    by (unfold _to_tensor, unsqueeze_last; rewrite ?length_map; congruence).
  cbn [lift].
  repeat (rewrite ?bind_ret, ?bind_modify).
  unfold modify, loaded.
  cbn [set_states set_actions set_rewards set_next_states set_dones set_size
       set_pointer _size _buffer_size _pointer _states _actions _rewards
       _next_states _dones Nat.add].
  rewrite Nat.min_id. reflexivity.
Qed.

Lemma load_nonempty (d : Dataset) (b : ReplayBuffer) :
  _size b <> 0 ->
  load_d4rl_dataset float32 d b
    = (inl (ValueError "Trying to load data into non-empty replay buffer"), b).
Proof.
  intros H. unfold load_d4rl_dataset, bind, get.
  apply Nat.eqb_neq in H. rewrite H. reflexivity.
Qed.

Lemma load_too_large (d : Dataset) (b : ReplayBuffer) :
  _size b = 0 ->
  _buffer_size b < length (observations d) ->
  load_d4rl_dataset float32 d b
    = (inl (ValueError
         "Replay buffer is smaller than the dataset you are trying to load!"),
       b).
Proof.
  intros H0 Hlt. unfold load_d4rl_dataset, bind, get.
  rewrite H0. cbn [Nat.eqb negb].
  apply Nat.ltb_lt in Hlt. rewrite Hlt. reflexivity.
Qed.

Lemma load_success_size (d : Dataset) (b b1 : ReplayBuffer) :
  load_d4rl_dataset float32 d b = (inr tt, b1) ->
  _size b = 0 /\ _size b1 = length (observations d).
Proof.
  unfold load_d4rl_dataset. rewrite bind_get.
  destruct (_size b =? 0) eqn:E0; cbn [negb]; [| discriminate].
  apply Nat.eqb_eq in E0.
  destruct (_buffer_size b <? length (observations d)); [discriminate |].
  unfold assign_prefix.
  repeat match goal with
         | |- context [if ?c then inr _ else inl _] =>
             destruct c; cbn [lift];
             [ rewrite bind_ret, bind_modify
             | rewrite bind_raise; discriminate ]
         end.
  unfold modify. intros H. injection H as <-.
  cbn. rewrite E0. auto.
Qed.

Lemma load_fresh_inv (state_dim action_dim buffer_size : nat) (d : Dataset)
    (b : ReplayBuffer) :
  wf_dataset d ->
  load_d4rl_dataset float32 d (init state_dim action_dim buffer_size)
    = (inr tt, b) ->
  length (observations d) <= buffer_size /\
  b = loaded float32 state_dim action_dim buffer_size d.
Proof.
  intros Hwf Hload.
  destruct (Nat.le_gt_cases (length (observations d)) buffer_size) as [Hle | Hgt].
  - rewrite (load_fresh state_dim action_dim buffer_size d Hwf Hle) in Hload.
    split; [exact Hle | congruence].
  - rewrite load_too_large in Hload by (cbn; auto). discriminate.
Qed.

Lemma nth_cast_prefix (rows rest : list (list R)) (i : nat) :
  i < length rows ->
  nth i (_to_tensor float32 rows ++ rest) [] = map float32 (nth i rows []).
Proof.
  intros Hi. unfold _to_tensor.
  rewrite app_nth1 by (rewrite length_map; exact Hi).
  apply nth_map_in_range. exact Hi.
Qed.

Lemma nth_cast_column (xs : list R) (rest : list (list R)) (i : nat) :
  i < length xs ->
  nth i (_to_tensor float32 (unsqueeze_last xs) ++ rest) []
    = [float32 (nth i xs 0%R)].
Proof.
  intros Hi. rewrite nth_cast_prefix
    by (unfold unsqueeze_last; rewrite length_map; exact Hi).
  unfold unsqueeze_last.
  rewrite (nth_map_in_range (fun x => [x]) xs [] 0%R i Hi).
  reflexivity.
Qed.

Lemma index_rows_prefix (rows rest : list (list R)) (indices : list nat) :
  Forall (fun i => i < length rows) indices ->
  index_rows (rows ++ rest) indices
    = inr (map (fun i => nth i (rows ++ rest) []) indices).
Proof.
  intros H. apply index_rows_in_range.
  eapply Forall_impl; [| exact H].
  cbn beta. intros i Hi. rewrite length_app. lia.
Qed.

Lemma sample_in_range (b : ReplayBuffer) (g : RandomState) (batch_size : nat) :
  let high := Nat.min (_size b) (_pointer b) in
  0 < high ->
  high <= length (_states b) ->
  high <= length (_actions b) ->
  high <= length (_rewards b) ->
  high <= length (_next_states b) ->
  high <= length (_dones b) ->
  exists indices,
    length indices = batch_size /\
    Forall (fun i => i < high) indices /\
    sample batch_size (mkWorld b g)
      = (inr [map (fun i => nth i (_states b) []) indices;
              map (fun i => nth i (_actions b) []) indices;
              map (fun i => nth i (_rewards b) []) indices;
              map (fun i => nth i (_next_states b) []) indices;
              map (fun i => nth i (_dones b) []) indices],
         mkWorld b (mkRandomState (raw g) (cursor g + batch_size))).
Proof.
  intros high Hpos Hs Ha Hr Hn Hd.
  destruct (randint_spec 0 high batch_size g Hpos)
    as (indices & Hrand & Hlen & Hall).
  assert (Hin : Forall (fun i => i < high) indices).
  { eapply Forall_impl; [| exact Hall]. cbn beta. intros i Hi. lia. }
  exists indices. split; [exact Hlen |]. split; [exact Hin |].
  assert (Hrows : forall t, high <= length t ->
            index_rows t indices = inr (map (fun i => nth i t []) indices)).
  { intros t Ht. apply index_rows_in_range.
    eapply Forall_impl; [| exact Hin]. cbn beta. intros i Hi. lia. }
  unfold sample, bind, get, with_rng. cbn [buffer np_random].
  fold high. rewrite Hrand.
  rewrite !Hrows by assumption.
  reflexivity.
Qed.

(** C9: every call of [add_transition] raises [NotImplementedError]: it
    never returns normally, and the buffer it leaves is the buffer it was
    called on. *)
Theorem add_transition_not_implemented (b : ReplayBuffer) :
  add_transition b = (inl NotImplementedError, b).
Proof. reflexivity. Qed.

(** C6 (amended): a load into a buffer whose size is not zero raises the
    non-empty [ValueError] and leaves the buffer as it was; a load of a
    dataset larger than the capacity raises the capacity [ValueError]
    before any write; hence after a successful load of a dataset with at
    least one transition, a second load raises and the contents of the
    first load stay intact. *)
Theorem load_guards (b : ReplayBuffer) (d : Dataset) :
  (_size b <> 0 ->
   load_d4rl_dataset float32 d b
     = (inl (ValueError "Trying to load data into non-empty replay buffer"),
        b)) /\
  (_size b = 0 ->
   _buffer_size b < length (observations d) ->
   load_d4rl_dataset float32 d b
     = (inl (ValueError
          "Replay buffer is smaller than the dataset you are trying to load!"),
        b)) /\
  (forall b1 d2,
   0 < length (observations d) ->
   load_d4rl_dataset float32 d b = (inr tt, b1) ->
   load_d4rl_dataset float32 d2 b1
     = (inl (ValueError "Trying to load data into non-empty replay buffer"),
        b1)).
Proof.
  split; [apply load_nonempty |].
  split; [apply load_too_large |].
  intros b1 d2 Hpos Hload.
  apply load_nonempty.
  destruct (load_success_size d b b1 Hload) as [_ Hsize]. lia.
Qed.

(** C7: on a buffer filled by one bulk load, [sample B] with
    [1 <= B <= size] returns the five tensors, each with [B] rows; the
    indices it drew lie in [0, min(size, pointer)); row [k] of each tensor
    is the stored field of the loaded transition at the [k]-th index; and
    the buffer object is the same afterwards. *)
Theorem sample_returns_loaded_rows
    (state_dim action_dim buffer_size : nat) (d : Dataset)
    (b : ReplayBuffer) (g : RandomState) (B : nat) :
  wf_dataset d ->
  load_d4rl_dataset float32 d (init state_dim action_dim buffer_size)
    = (inr tt, b) ->
  1 <= B <= _size b ->
  exists indices states actions rewards next_states dones g',
    sample B (mkWorld b g)
      = (inr [states; actions; rewards; next_states; dones], mkWorld b g') /\
    length indices = B /\
    length states = B /\ length actions = B /\ length rewards = B /\
    length next_states = B /\ length dones = B /\
    Forall (fun i => i < Nat.min (_size b) (_pointer b)) indices /\
    Forall (fun i => i < length (Buffer.observations d)) indices /\
    states = map (fun i => map float32 (nth i (Buffer.observations d) []))
                 indices /\
    actions = map (fun i => map float32 (nth i (Buffer.actions d) []))
                  indices /\
    rewards = map (fun i => [float32 (nth i (Buffer.rewards d) 0%R)])
                  indices /\
    next_states
      = map (fun i => map float32 (nth i (Buffer.next_observations d) []))
            indices /\
    dones = map (fun i => [float32 (nth i (Buffer.terminals d) 0%R)])
                indices.
Proof.
  intros Hwf Hload HB.
  destruct (load_fresh_inv _ _ _ _ _ Hwf Hload) as [Hcap ->].
  destruct Hwf as (Ha & Hr & Hn & Ht).
  cbn [loaded _size] in HB.
  set (n := length (Buffer.observations d)) in *.
  set (b := loaded float32 state_dim action_dim buffer_size d).
  assert (Hhigh : Nat.min (_size b) (_pointer b) = n)
    by (cbn; apply Nat.min_id).
  destruct (sample_in_range b g B) as (indices & Hlen & Hin & Hs);
    try (rewrite Hhigh; cbn; rewrite length_app; unfold _to_tensor,
         unsqueeze_last; rewrite ?length_map; fold n; lia).
  { rewrite Hhigh. lia. }
  rewrite Hhigh in Hin.
  exists indices,
    (map (fun i => nth i (_states b) []) indices),
    (map (fun i => nth i (_actions b) []) indices),
    (map (fun i => nth i (_rewards b) []) indices),
    (map (fun i => nth i (_next_states b) []) indices),
    (map (fun i => nth i (_dones b) []) indices),
    (mkRandomState (raw g) (cursor g + B)).
  split; [exact Hs |].
  rewrite !length_map.
  do 6 (split; [exact Hlen |]).
  split; [rewrite Hhigh; exact Hin |].
  split; [exact Hin |].
  assert (Hext : forall (A : Type) (f h : nat -> A),
            (forall i, i < n -> f i = h i) -> map f indices = map h indices).
  { intros A f h Hfh. apply map_ext_in. intros i Hi.
    apply Hfh. rewrite Forall_forall in Hin. apply Hin. exact Hi. }
  repeat split; apply Hext; intros i Hi; cbn [b loaded _states _actions
    _rewards _next_states _dones].
  - apply nth_cast_prefix. exact Hi.
  - apply nth_cast_prefix. fold n in Ha. lia.
  - apply nth_cast_column. fold n in Hr. lia.
  - apply nth_cast_prefix. fold n in Hn. lia.
  - apply nth_cast_column. fold n in Ht. lia.
Qed.

End WithCast.

End BufferFacts.

(** ** Lists as tensors: positions, rows and shapes *)

Module TorchFacts.

Import Torch.

Section Lists.

Context {A B C : Type}.

Lemma map2_length (f : A -> B -> C) (xs : list A) (ys : list B) :
  length (map2 f xs ys) = Nat.min (length xs) (length ys).
Proof.
  revert ys. induction xs as [| x xs IH]; intros [| y ys]; simpl; auto.
Qed.

Lemma nth_map2 (f : A -> B -> C) (xs : list A) (ys : list B) (i : nat)
    (dc : C) (da : A) (db : B) :
  i < length xs -> i < length ys ->
  nth i (map2 f xs ys) dc = f (nth i xs da) (nth i ys db).
Proof.
  revert ys i. induction xs as [| x xs IH]; intros [| y ys] [| i] Hx Hy;
    simpl in *; try lia; auto.
  apply IH; lia.
Qed.

Lemma map2_map_l (f : B -> C -> A) (g : A -> B) (xs : list A) (ys : list C) :
  map2 f (map g xs) ys = map2 (fun x y => f (g x) y) xs ys.
Proof.
  revert ys. induction xs as [| x xs IH]; intros [| y ys]; simpl; auto.
  f_equal. apply IH.
Qed.

Lemma imap_from_length (f : nat -> A -> B) (xs : list A) (k : nat) :
  length (imap_from k f xs) = length xs.
Proof.
  revert k. induction xs as [| x xs IH]; intros k; simpl; auto.
Qed.

Lemma nth_imap_from (f : nat -> A -> B) (xs : list A) (k i : nat) (db : B)
    (da : A) :
  i < length xs ->
  nth i (imap_from k f xs) db = f (k + i) (nth i xs da).
Proof.
  revert k i. induction xs as [| x xs IH]; intros k [| i] Hi; simpl in *;
    try lia.
  - rewrite Nat.add_0_r. reflexivity.
  - rewrite IH by lia. f_equal. lia.
Qed.

Lemma imap_from_repeat (f : nat -> A -> B) (x : A) (n k : nat) :
  imap_from k f (repeat x n) = map (fun j => f j x) (seq k n).
Proof.
  revert k. induction n as [| n IH]; intros k; simpl; auto.
  f_equal. apply IH.
Qed.

Lemma map2_map_same (f : B -> C -> A) (g : A -> B) (h : A -> C)
    (xs : list A) :
  map2 f (map g xs) (map h xs) = map (fun x => f (g x) (h x)) xs.
Proof. induction xs as [| x xs IH]; simpl; [| rewrite IH]; reflexivity. Qed.

End Lists.

Lemma imap_length {A B} (f : nat -> A -> B) (xs : list A) :
  length (imap f xs) = length xs.
Proof. apply imap_from_length. Qed.

Lemma nth_imap {A B} (f : nat -> A -> B) (xs : list A) (i : nat) (db : B)
    (da : A) :
  i < length xs -> nth i (imap f xs) db = f i (nth i xs da).
Proof.
  intros Hi. unfold imap.
  rewrite (nth_imap_from f xs 0 i db da Hi). reflexivity.
Qed.

Lemma imap_repeat {A B} (f : nat -> A -> B) (x : A) (n : nat) :
  imap f (repeat x n) = map (fun j => f j x) (seq 0 n).
Proof. apply imap_from_repeat. Qed.

Lemma nth_map_seq {A} (f : nat -> A) (n i : nat) (d : A) :
  i < n -> nth i (map f (seq 0 n)) d = f i.
Proof.
  intros Hi.
  rewrite (nth_indep _ d (f 0)) by (rewrite length_map, length_seq; exact Hi).
  rewrite map_nth, seq_nth by exact Hi. reflexivity.
Qed.

Lemma nth_map_default {A B} (f : A -> B) (l : list A) (db : B) (da : A)
    (i : nat) :
  i < length l -> nth i (map f l) db = f (nth i l da).
Proof.
  intros Hi.
  rewrite (nth_indep (map f l) db (f da)) by (rewrite length_map; exact Hi).
  apply map_nth.
Qed.

(** Row [i] of a concatenation along the candidate axis. *)
Lemma nth_cat1_two (a b : mat) (i : nat) :
  i < length a -> i < length b ->
  nth i (cat1 [a; b]) [] = nth i a [] ++ nth i b [].
Proof.
  intros Ha Hb. cbn [cat1]. apply nth_map2; assumption.
Qed.

Lemma cat1_length_three (a b c : mat) (n : nat) :
  length a = n -> length b = n -> length c = n ->
  length (cat1 [a; b; c]) = n.
Proof.
  intros Ha Hb Hc. cbn [cat1]. rewrite !map2_length. lia.
Qed.

Lemma cat1_length_four (a b c d : mat) (n : nat) :
  length a = n -> length b = n -> length c = n -> length d = n ->
  length (cat1 [a; b; c; d]) = n.
Proof.
  intros Ha Hb Hc Hd. cbn [cat1]. rewrite !map2_length. lia.
Qed.

Lemma nth_cat1_three (a b c : mat) (i : nat) :
  i < length a -> i < length b -> i < length c ->
  nth i (cat1 [a; b; c]) [] = nth i a [] ++ nth i b [] ++ nth i c [].
Proof.
  intros Ha Hb Hc. cbn [cat1].
  rewrite (nth_map2 (@app R) a (map2 (@app R) b c) i [] [] []);
    [| assumption | rewrite map2_length; lia].
  f_equal. apply nth_map2; assumption.
Qed.

Lemma nth_cat1_four (a b c d : mat) (i : nat) :
  i < length a -> i < length b -> i < length c -> i < length d ->
  nth i (cat1 [a; b; c; d]) []
    = nth i a [] ++ nth i b [] ++ nth i c [] ++ nth i d [].
Proof.
  intros Ha Hb Hc Hd.
  change (cat1 [a; b; c; d]) with (map2 (@app R) a (cat1 [b; c; d])).
  rewrite (nth_map2 (@app R) a (cat1 [b; c; d]) i [] [] []);
    [| assumption | cbn [cat1]; rewrite !map2_length; lia].
  f_equal. apply nth_cat1_three; assumption.
Qed.

(** *** The row maximum *)

Local Open Scope R_scope.

Lemma max_from_spec (row : list R) :
  forall (best : R) (best_i i : nat),
    let r := max_from best best_i i row in
    best <= fst r /\
    Forall (fun x => x <= fst r) row /\
    ((snd r = best_i /\ fst r = best) \/
     ((i <= snd r < i + length row)%nat /\ nth (snd r - i) row 0 = fst r)).
Proof.
  induction row as [| x rest IH]; intros best best_i i; cbn [max_from].
  - cbn. split; [lra |]. split; [constructor |]. left. auto.
  - destruct (Rlt_dec best x) as [Hlt | Hge].
    + destruct (IH x i (S i)) as (Hb & Hall & Hidx).
      set (r := max_from x i (S i) rest) in *.
      split; [lra |]. split; [constructor; assumption |].
      right. destruct Hidx as [[Hi Hv] | [Hi Hv]].
      * rewrite Hi, Hv, Nat.sub_diag. cbn. split; [lia | reflexivity].
      * cbn [length]. split; [lia |].
        replace (snd r - i)%nat with (S (snd r - S i)) by lia.
        exact Hv.
    + destruct (IH best best_i (S i)) as (Hb & Hall & Hidx).
      set (r := max_from best best_i (S i) rest) in *.
      split; [exact Hb |]. split; [constructor; [lra | assumption] |].
      destruct Hidx as [[Hi Hv] | [Hi Hv]].
      * left. auto.
      * right. cbn [length]. split; [lia |].
        replace (snd r - i)%nat with (S (snd r - S i)) by lia.
        exact Hv.
Qed.

Lemma max_row_spec (row : list R) :
  row <> [] ->
  exists v j,
    max_row row = inr (v, j) /\
    (j < length row)%nat /\
    nth j row 0 = v /\
    Forall (fun x => x <= v) row.
Proof.
  destruct row as [| x rest]; [congruence |]. intros _.
  cbn [max_row].
  destruct (max_from_spec rest x 0%nat 1%nat) as (Hb & Hall & Hidx).
  destruct (max_from x 0%nat 1%nat rest) as [v j]. cbn [fst snd] in *.
  exists v, j. split; [reflexivity |].
  destruct Hidx as [[Hj Hv] | [Hj Hv]].
  - subst. cbn. split; [lia |]. split; [reflexivity |].
    constructor; [lra | assumption].
  - cbn [length]. split; [lia |]. split.
    + destruct j as [| j]; [lia |].
      cbn [nth]. rewrite Nat.sub_succ, Nat.sub_0_r in Hv. exact Hv.
    + constructor; assumption.
Qed.

Lemma max_rows_spec (m : list (list R)) :
  Forall (fun row => row <> []) m ->
  exists vals idx,
    max_rows m = inr (vals, idx) /\
    length vals = length m /\
    length idx = length m /\
    forall i, (i < length m)%nat ->
      (nth i idx 0%nat < length (nth i m []))%nat /\
      nth (nth i idx 0%nat) (nth i m []) 0 = nth i vals 0 /\
      Forall (fun x => x <= nth i vals 0) (nth i m []).
Proof.
  induction 1 as [| row rest Hrow _ IH].
  - exists [], []. cbn.
    split; [reflexivity |]. split; [reflexivity |]. split; [reflexivity |].
    intros i Hi. lia.
  - destruct (max_row_spec row Hrow) as (v & j & Hmax & Hj & Hv & Hall).
    destruct IH as (vals & idx & Hrest & Hlv & Hli & Hat).
    exists (v :: vals), (j :: idx).
    cbn [max_rows]. rewrite Hmax, Hrest. cbn [length].
    split; [reflexivity |]. split; [lia |]. split; [lia |].
    intros [| i] Hi; cbn [nth].
    + auto.
    + apply Hat. lia.
Qed.

Lemma nth_gather_rows (t : list (list R)) (index : list nat) (i : nat) :
  (i < length t)%nat -> (i < length index)%nat ->
  nth i (gather_rows t index) 0 = nth (nth i index 0%nat) (nth i t []) 0.
Proof.
  intros Ht Hi. unfold gather_rows.
  apply (nth_map2 (fun row k => nth k row 0) t index i 0 [] 0%nat);
    assumption.
Qed.

(** The arithmetic of the TD target on columns of shape (B, 1). *)
Lemma td_columns (f : R -> R) (r d t : list R) :
  squeeze
    (map2 (map2 Rplus) (unsqueeze r)
       (map2 (map2 Rmult) (map (map f) (unsqueeze d)) (unsqueeze t)))
    = map2 Rplus r (map2 Rmult (map f d) t).
Proof.
  revert d t. induction r as [| x r IH]; intros [| y d] [| z t]; cbn;
    try reflexivity.
  f_equal. apply IH.
Qed.

End TorchFacts.

(** ** Initialisation: facts *)

Module InitFacts.

Import Init.

(** With the flag off, every layer but the last is left alone, and the
    last linear layer gets the uniform-variant initialiser with the small
    gain and a zero bias. *)
Lemma init_module_weights_off (inner : Sequential) (i o : nat)
    (w : weight_init) (b : bias_init) :
  init_module_weights (inner ++ [Linear i o w b]) false
    = inr (inner ++ [Linear i o (xavier_uniform_ 1e-2) (constant_ 0)]).
Proof.
  unfold init_module_weights.
  rewrite rev_app_distr, removelast_last. reflexivity.
Qed.

(** With the flag on, the inner linear layers are orthogonal with gain
    [sqrt 2] and a zero bias, and the last one orthogonal with the small
    gain. *)
Lemma init_module_weights_on (inner : Sequential) (i o : nat)
    (w : weight_init) (b : bias_init) :
  init_module_weights (inner ++ [Linear i o w b]) true
    = inr (map init_inner inner
             ++ [Linear i o (orthogonal_ 1e-2) (constant_ 0)]).
Proof.
  unfold init_module_weights.
  rewrite rev_app_distr, removelast_last. reflexivity.
Qed.

(** The critic's constructor passes its flag on, so with the flag set the
    inner layers are orthogonal and the last layer is orthogonal with the
    small gain. *)
Lemma critic_init_forwards_flag (observation_dim action_dim : nat) :
  FullyConnectedQFunction.__init__ observation_dim action_dim true 1
    = inr (FullyConnectedQFunction.mk observation_dim action_dim true
             [Linear (observation_dim + action_dim) 256
                (orthogonal_ (sqrt 2)) (constant_ 0);
              ReLU;
              Linear 256 1 (orthogonal_ 1e-2) (constant_ 0)]).
Proof. reflexivity. Qed.

(** C10: whatever [orthogonal_init] is, the policy's constructor returns a
    policy that stores the flag and whose base network has its three inner
    linear layers as [nn.Linear] left them and its last linear layer
    filled by [xavier_uniform_] with gain 0.01 and a zero bias. *)
Theorem policy_init_ignores_orthogonal_flag
    (state_dim action_dim : nat)
    (max_action log_std_multiplier log_std_offset : R)
    (orthogonal_init no_tanh : bool) :
  TanhGaussianPolicy.__init__ state_dim action_dim max_action
      log_std_multiplier log_std_offset orthogonal_init no_tanh
    = inr (TanhGaussianPolicy.mk state_dim action_dim max_action
             orthogonal_init no_tanh
             [Linear state_dim 256 default_weight default_bias;
              ReLU;
              Linear 256 256 default_weight default_bias;
              ReLU;
              Linear 256 256 default_weight default_bias;
              ReLU;
              Linear 256 (2 * action_dim) (xavier_uniform_ 1e-2)
                (constant_ 0)]
             (Scalar.mk log_std_multiplier) (Scalar.mk log_std_offset)
             (ReparameterizedTanhGaussian.__init__ no_tanh)).
Proof.
  unfold TanhGaussianPolicy.__init__.
  change [nn_Linear state_dim 256; ReLU; nn_Linear 256 256; ReLU;
          nn_Linear 256 256; ReLU; nn_Linear 256 (2 * action_dim)]
    with ([nn_Linear state_dim 256; ReLU; nn_Linear 256 256; ReLU;
           nn_Linear 256 256; ReLU]
            ++ [Linear 256 (2 * action_dim) default_weight default_bias]).
  rewrite init_module_weights_off.
  destruct orthogonal_init; reflexivity.
Qed.

End InitFacts.

(** ** Policy and critic: rows of the batched calls *)

Module NetFacts.

Import Torch TorchFacts.
Module Policy := TanhGaussianPolicy.
Module QFunction := FullyConnectedQFunction.

Section Networks.

Variable apply_net : Parameters -> vec -> vec.

Lemma forward_lengths (id : leaf) (pi : Policy.t Parameters)
    (observations : mat) (deterministic : bool) (eps : nat -> nat -> R) :
  length (data (fst (Policy.forward apply_net id pi observations
                       deterministic eps))) = length observations /\
  length (data (snd (Policy.forward apply_net id pi observations
                       deterministic eps))) = length observations.
Proof.
  unfold Policy.forward. cbn [fst snd data].
  rewrite !length_map, imap_length. auto.
Qed.

Lemma forward_row_at (id : leaf) (pi : Policy.t Parameters)
    (observations : mat) (deterministic : bool) (eps : nat -> nat -> R)
    (i : nat) :
  i < length observations ->
  nth i (data (fst (Policy.forward apply_net id pi observations
                      deterministic eps))) []
    = fst (Policy.forward_row apply_net pi deterministic
             (nth i observations []) (eps i)) /\
  nth i (data (snd (Policy.forward apply_net id pi observations
                      deterministic eps))) 0%R
    = snd (Policy.forward_row apply_net pi deterministic
             (nth i observations []) (eps i)).
Proof.
  intros Hi. unfold Policy.forward. cbn [fst snd data].
  set (g := fun (i : nat) (o : list R) =>
              Policy.forward_row apply_net pi deterministic o (eps i)).
  split.
  - rewrite (nth_map_default fst _ [] (g 0 []) i)
      by (rewrite imap_length; exact Hi).
    rewrite (nth_imap g observations i _ [] Hi). reflexivity.
  - rewrite (nth_map_default snd _ 0%R (g 0 []) i)
      by (rewrite imap_length; exact Hi).
    rewrite (nth_imap g observations i _ [] Hi). reflexivity.
Qed.

Lemma forward_repeat_lengths (id : leaf) (pi : Policy.t Parameters)
    (observations : mat) (deterministic : bool) (n : nat)
    (eps : nat -> nat -> nat -> R) :
  length (data (fst (Policy.forward_repeat apply_net id pi observations
                       deterministic n eps))) = length observations /\
  length (data (snd (Policy.forward_repeat apply_net id pi observations
                       deterministic n eps))) = length observations.
Proof.
  unfold Policy.forward_repeat, extend_and_repeat. cbn [fst snd data].
  rewrite !length_map, imap_length, length_map. auto.
Qed.

Lemma forward_repeat_row_at (id : leaf) (pi : Policy.t Parameters)
    (observations : mat) (deterministic : bool) (n : nat)
    (eps : nat -> nat -> nat -> R) (i : nat) :
  i < length observations ->
  nth i (data (fst (Policy.forward_repeat apply_net id pi observations
                      deterministic n eps))) []
    = map (fun j =>
             fst (Policy.forward_row apply_net pi deterministic
                    (nth i observations []) (eps i j)))
          (seq 0 n) /\
  nth i (data (snd (Policy.forward_repeat apply_net id pi observations
                      deterministic n eps))) []
    = map (fun j =>
             snd (Policy.forward_row apply_net pi deterministic
                    (nth i observations []) (eps i j)))
          (seq 0 n).
Proof.
  intros Hi. unfold Policy.forward_repeat, extend_and_repeat.
  cbn [fst snd data].
  set (g := fun (i : nat) (candidates : list (list R)) =>
              imap (fun j o =>
                      Policy.forward_row apply_net pi deterministic o
                        (eps i j)) candidates).
  assert (Hrow : nth i (imap g (map (fun row => repeat row n) observations))
                     []
                 = map (fun j =>
                          Policy.forward_row apply_net pi deterministic
                            (nth i observations []) (eps i j))
                       (seq 0 n)).
  { rewrite (nth_imap g _ i _ [])
      by (rewrite length_map; exact Hi).
    rewrite (nth_map_default (fun row => repeat row n) observations [] []
               i Hi).
    unfold g. apply imap_repeat. }
  split.
  - rewrite (nth_map_default (map fst) _ [] [] i)
      by (rewrite imap_length, length_map; exact Hi).
    rewrite Hrow, map_map. reflexivity.
  - rewrite (nth_map_default (map snd) _ [] [] i)
      by (rewrite imap_length, length_map; exact Hi).
    rewrite Hrow, map_map. reflexivity.
Qed.

Lemma q_forward_length (id : leaf) (q : QFunction.t Parameters)
    (observations : mat) (actions : tensor mat) :
  length (data (QFunction.forward apply_net id q observations actions))
    = Nat.min (length observations) (length (data actions)).
Proof. unfold QFunction.forward. cbn [data]. apply map2_length. Qed.

Lemma q_forward_at (id : leaf) (q : QFunction.t Parameters)
    (observations : mat) (actions : tensor mat) (i : nat) :
  i < length observations -> i < length (data actions) ->
  nth i (data (QFunction.forward apply_net id q observations actions)) 0%R
    = QFunction.q_value apply_net q (nth i observations [])
        (nth i (data actions) []).
Proof.
  intros Ho Ha. unfold QFunction.forward. cbn [data].
  apply nth_map2; assumption.
Qed.

Lemma q_forward_multi_length (id : leaf) (q : QFunction.t Parameters)
    (observations : mat) (actions : tensor cube) :
  length (data (QFunction.forward_multi apply_net id q observations actions))
    = Nat.min (length observations) (length (data actions)).
Proof. unfold QFunction.forward_multi. cbn [data]. apply map2_length. Qed.

Lemma q_forward_multi_at (id : leaf) (q : QFunction.t Parameters)
    (observations : mat) (actions : tensor cube) (i : nat) :
  i < length observations -> i < length (data actions) ->
  nth i (data (QFunction.forward_multi apply_net id q observations actions))
      []
    = map (QFunction.q_value apply_net q (nth i observations []))
          (nth i (data actions) []).
Proof.
  intros Ho Ha. unfold QFunction.forward_multi. cbn [data].
  apply (nth_map2 (fun o candidates =>
                     map (QFunction.q_value apply_net q o) candidates)
           observations (data actions) i [] [] []); assumption.
Qed.

End Networks.

End NetFacts.

(** ** The trainer: facts *)

Module CQLFacts.

Import Torch TorchFacts NetFacts CQL.
Local Open Scope R_scope.

(** *** Target synchronisation *)

Lemma soft_update_parameters_spec (tau : R) (target source : Parameters) :
  same_shape target source ->
  soft_update_parameters tau target source
    = map2 (map2 (lerp tau)) target source.
Proof.
  induction 1 as [| t s target' source' _ _ IH]; simpl.
  - reflexivity.
  - rewrite IH. reflexivity.
Qed.

Lemma same_shape_length (p q : Parameters) :
  same_shape p q -> length p = length q.
Proof. induction 1; simpl; congruence. Qed.

Lemma same_shape_at (p q : Parameters) (i : nat) :
  same_shape p q -> length (nth i p []) = length (nth i q []).
Proof.
  intros H. revert i. induction H as [| a b p q Hab _ IH]; intros [| i];
    simpl; auto.
Qed.

Lemma soft_update_parameters_at (tau : R) (target source : Parameters)
    (i j : nat) :
  same_shape target source ->
  (i < length target)%nat ->
  (j < length (nth i target []))%nat ->
  nth j (nth i (soft_update_parameters tau target source) []) 0
    = (1 - tau) * nth j (nth i target []) 0 + tau * nth j (nth i source []) 0.
Proof.
  intros Hs Hi Hj.
  rewrite soft_update_parameters_spec by exact Hs.
  pose proof (same_shape_length _ _ Hs) as Hlen.
  pose proof (same_shape_at _ _ i Hs) as Hrow.
  rewrite (nth_map2 (map2 (lerp tau)) target source i [] [] [])
    by lia.
  rewrite (nth_map2 (lerp tau) _ _ j 0 0 0) by lia.
  reflexivity.
Qed.

Lemma soft_update_parameters_shape (tau : R) (target source : Parameters) :
  same_shape target source ->
  same_shape (soft_update_parameters tau target source) target.
Proof.
  induction 1 as [| t s target' source' Hts _ IH]; simpl.
  - constructor.
  - constructor; [| exact IH].
    rewrite map2_length. lia.
Qed.

(** Running a step on a world whose effects are all writes: the monad's
    combinators are unfolded and the record projections taken. *)
Ltac run_world :=
  cbv beta iota zeta
      delta [bind modify ret get put raise lift emit update optimizer_step
             is_sync_step];
  cbn [self calls hyper total_it set_total_it set_critic_1 set_critic_2
       set_target_critic_1 set_target_critic_2 set_actor set_log_alpha
       set_log_alpha_prime].

Section Networks.

Variable apply_net : Parameters -> list R -> list R.

(** *** The actor loss *)

Lemma policy_loss_ori_bc (s : ContinuousCQL) (observations : mat)
    (actions new_actions : tensor mat) (alpha : tensor R)
    (log_pi : tensor vec) (eps : nat -> nat -> R) :
  (total_it s <= bc_steps (hyper s))%Z ->
  _policy_loss_ori apply_net s observations actions new_actions alpha log_pi
      eps
    = tmean (vsub (scale alpha log_pi)
               (Policy.log_prob apply_net Actor (actor s) observations
                  actions eps)).
Proof.
  intros H. unfold _policy_loss_ori.
  apply Z.leb_le in H. rewrite H. reflexivity.
Qed.

Lemma policy_loss_ori_q (s : ContinuousCQL) (observations : mat)
    (actions new_actions : tensor mat) (alpha : tensor R)
    (log_pi : tensor vec) (eps : nat -> nat -> R) :
  (bc_steps (hyper s) < total_it s)%Z ->
  _policy_loss_ori apply_net s observations actions new_actions alpha log_pi
      eps
    = tmean (vsub (scale alpha log_pi)
               (vmin (QFunction.forward apply_net Critic1 (critic_1 s)
                        observations new_actions)
                     (QFunction.forward apply_net Critic2 (critic_2 s)
                        observations new_actions))).
Proof.
  intros H. unfold _policy_loss_ori.
  apply Z.leb_gt in H. rewrite H. reflexivity.
Qed.

(** In the behaviour-cloning regime the loss is the same whatever the two
    critics are, and its graph reaches no critic unless [alpha] or
    [log_pi] already did. *)
Lemma policy_loss_ori_bc_no_critic (s : ContinuousCQL) (observations : mat)
    (actions new_actions : tensor mat) (alpha : tensor R)
    (log_pi : tensor vec) (eps : nat -> nat -> R)
    (q1 q2 : QFunction.t Parameters) :
  (total_it s <= bc_steps (hyper s))%Z ->
  _policy_loss_ori apply_net (set_critic_1 q1 (set_critic_2 q2 s))
      observations actions new_actions alpha log_pi eps
    = _policy_loss_ori apply_net s observations actions new_actions alpha
        log_pi eps /\
  leaves (_policy_loss_ori apply_net s observations actions new_actions
            alpha log_pi eps)
    = leaves alpha ++ leaves log_pi ++ [Actor].
Proof.
  intros H. split.
  - rewrite !policy_loss_ori_bc by exact H. reflexivity.
  - rewrite policy_loss_ori_bc by exact H.
    cbn. rewrite <- app_assoc. reflexivity.
Qed.

(** Past the behaviour-cloning steps the loss is built from both critics:
    its graph reaches each of them. *)
Lemma policy_loss_ori_q_reaches_critics (s : ContinuousCQL)
    (observations : mat) (actions new_actions : tensor mat)
    (alpha : tensor R) (log_pi : tensor vec) (eps : nat -> nat -> R) :
  (bc_steps (hyper s) < total_it s)%Z ->
  let loss :=
    _policy_loss_ori apply_net s observations actions new_actions alpha
      log_pi eps in
  In Critic1 (leaves loss) /\ In Critic2 (leaves loss) /\
  data loss
    = mean (map2 Rminus (map (Rmult (data alpha)) (data log_pi))
              (map2 Rmin
                 (map2 (QFunction.q_value apply_net (critic_1 s))
                       observations (data new_actions))
                 (map2 (QFunction.q_value apply_net (critic_2 s))
                       observations (data new_actions)))).
Proof.
  intros H. cbv zeta. rewrite policy_loss_ori_q by exact H.
  cbn [tmean vsub vmin scale lift1 lift2 leaves data QFunction.forward].
  split; [| split; [| reflexivity]];
    apply in_or_app; right; apply in_or_app.
  - left. left. reflexivity.
  - right. left. reflexivity.
Qed.

(** The call [self.actor.log_prob(observations, actions)] never reads the
    values of [actions]. *)
Lemma log_prob_ignores_actions (id : leaf) (pi : Policy.t Parameters)
    (observations : mat) (actions actions' : tensor mat)
    (eps : nat -> nat -> R) :
  Policy.log_prob apply_net id pi observations actions eps
    = Policy.log_prob apply_net id pi observations actions' eps.
Proof. reflexivity. Qed.

(** *** The TD target *)

Lemma map2_map_seq {X Y Z : Type} (f : X -> Y -> Z) (g : nat -> X)
    (h : nat -> Y) (n : nat) :
  map2 f (map g (seq 0 n)) (map h (seq 0 n))
    = map (fun j => f (g j) (h j)) (seq 0 n).
Proof.
  generalize 0%nat. induction n as [| n IH]; intros k; cbn;
    [| rewrite IH]; reflexivity.
Qed.

Lemma target_backup_plain (s : ContinuousCQL) (next_observations : mat)
    (d : Draws) :
  cql_max_target_backup (hyper s) = false ->
  exists tqv nlp,
    target_backup apply_net s next_observations d = inr (tqv, nlp) /\
    length (data tqv) = length next_observations /\
    length (data nlp) = length next_observations /\
    forall i, (i < length next_observations)%nat ->
      let s' := nth i next_observations [] in
      let eps := next_actions_eps d i in
      nth i (data tqv) 0
        = min_target apply_net s s' (fst (policy_draw apply_net s s' eps)) /\
      nth i (data nlp) 0 = snd (policy_draw apply_net s s' eps).
Proof.
  intros Hmax. unfold target_backup. rewrite Hmax.
  pose proof (forward_lengths apply_net Actor (actor s) next_observations
                false (next_actions_eps d)) as [Hla Hll].
  pose proof (forward_row_at apply_net Actor (actor s) next_observations
                false (next_actions_eps d)) as Hrow.
  destruct (Policy.forward apply_net Actor (actor s) next_observations false
              (next_actions_eps d)) as [nna nlp].
  cbn [fst snd] in *.
  eexists. exists nlp. split; [reflexivity |].
  unfold vmin, lift2. cbn [data].
  split; [rewrite map2_length, !q_forward_length; lia |].
  split; [exact Hll |].
  intros i Hi. destruct (Hrow i Hi) as [Ha Hl].
  split; [| exact Hl].
  rewrite (nth_map2 Rmin _ _ i 0 0 0)
    by (rewrite q_forward_length; lia).
  rewrite !q_forward_at by lia.
  rewrite Ha. reflexivity.
Qed.

Lemma target_backup_max (s : ContinuousCQL) (next_observations : mat)
    (d : Draws) :
  cql_max_target_backup (hyper s) = true ->
  (0 < cql_n_actions (hyper s))%nat ->
  exists tqv nlp,
    target_backup apply_net s next_observations d = inr (tqv, nlp) /\
    length (data tqv) = length next_observations /\
    length (data nlp) = length next_observations /\
    forall i, (i < length next_observations)%nat ->
      let s' := nth i next_observations [] in
      let value eps :=
        min_target apply_net s s' (fst (policy_draw apply_net s s' eps)) in
      exists j,
        (j < cql_n_actions (hyper s))%nat /\
        (forall k, (k < cql_n_actions (hyper s))%nat ->
           value (next_actions_repeat_eps d i k)
             <= value (next_actions_repeat_eps d i j)) /\
        nth i (data tqv) 0 = value (next_actions_repeat_eps d i j) /\
        nth i (data nlp) 0
          = snd (policy_draw apply_net s s' (next_actions_repeat_eps d i j)).
Proof.
  intros Hmax Hn. unfold target_backup. rewrite Hmax.
  set (n := cql_n_actions (hyper s)) in *.
  pose proof (forward_repeat_lengths apply_net Actor (actor s)
                next_observations false n (next_actions_repeat_eps d))
    as [Hla Hll].
  pose proof (forward_repeat_row_at apply_net Actor (actor s)
                next_observations false n (next_actions_repeat_eps d))
    as Hrow.
  destruct (Policy.forward_repeat apply_net Actor (actor s)
              next_observations false n (next_actions_repeat_eps d))
    as [nna nlp].
  cbn [fst snd] in *.
  set (cand := mmin _ _).
  assert (Hclen : length (data cand) = length next_observations).
  { unfold cand, mmin, lift2. cbn [data].
    rewrite map2_length, !q_forward_multi_length. lia. }
  assert (Hcrow : forall i, (i < length next_observations)%nat ->
            nth i (data cand) []
              = map (fun j =>
                       min_target apply_net s (nth i next_observations [])
                         (fst (policy_draw apply_net s
                                 (nth i next_observations [])
                                 (next_actions_repeat_eps d i j))))
                    (seq 0 n)).
  { intros i Hi. unfold cand, mmin, lift2. cbn [data].
    rewrite (nth_map2 (map2 Rmin) _ _ i [] [] [])
      by (rewrite q_forward_multi_length; lia).
    rewrite !q_forward_multi_at by lia.
    destruct (Hrow i Hi) as [Ha _]. rewrite Ha.
    rewrite !map_map. rewrite map2_map_seq. reflexivity. }
  assert (Hne : Forall (fun row => row <> []) (data cand)).
  { apply Forall_forall. intros row Hin.
    destruct (In_nth _ _ [] Hin) as (i & Hi & <-).
    rewrite Hcrow by lia.
    destruct n; [lia |]. cbn. discriminate. }
  destruct (max_rows_spec (data cand) Hne)
    as (vals & idx & Hmr & Hlv & Hli & Hat).
  rewrite Hmr.
  eexists. eexists. split; [reflexivity |].
  cbn [data lift1].
  split; [lia |].
  split; [unfold gather_rows; rewrite map2_length; lia |].
  intros i Hi. cbv zeta.
  destruct (Hat i ltac:(lia)) as (Hj & Hv & Hall).
  rewrite (Hcrow i Hi) in Hj, Hv, Hall.
  rewrite length_map, length_seq in Hj.
  exists (nth i idx 0%nat).
  split; [exact Hj |].
  rewrite (nth_map_seq _ n _ 0 Hj) in Hv.
  split; [| split].
  - intros k Hk. rewrite Hv.
    rewrite Forall_forall in Hall. apply Hall.
    apply in_map_iff. exists k. split; [reflexivity |].
    apply in_seq. lia.
  - rewrite <- Hv. reflexivity.
  - rewrite nth_gather_rows by lia.
    destruct (Hrow i Hi) as [_ Hl]. rewrite Hl.
    rewrite (nth_map_seq _ n _ 0 Hj). reflexivity.
Qed.

Lemma td_target_from_backup (s : ContinuousCQL) (next_observations : mat)
    (r_col d_col : list R) (alpha : tensor R) (d : Draws)
    (tqv nlp : tensor (list R)) :
  target_backup apply_net s next_observations d = inr (tqv, nlp) ->
  length (data tqv) = length next_observations ->
  length (data nlp) = length next_observations ->
  length r_col = length next_observations ->
  length d_col = length next_observations ->
  exists tq y,
    td_target apply_net s next_observations (unsqueeze r_col)
        (unsqueeze d_col) alpha d = inr (tq, y) /\
    leaves y = [] /\
    length (data y) = length next_observations /\
    forall i, (i < length next_observations)%nat ->
      nth i (data y) 0
        = nth i r_col 0
          + (1 - nth i d_col 0) * discount (hyper s)
            * (if backup_entropy (hyper s)
               then nth i (data tqv) 0 - data alpha * nth i (data nlp) 0
               else nth i (data tqv) 0).
Proof.
  intros Hb Hlt Hll Hlr Hld. unfold td_target. rewrite Hb.
  eexists. eexists. split; [reflexivity |].
  cbn [lift1 lift2 constant detach data leaves app].
  split; [reflexivity |].
  rewrite td_columns.
  set (t := data (if backup_entropy (hyper s)
                  then vsub tqv (scale alpha nlp) else tqv)).
  assert (Htl : length t = length next_observations).
  { unfold t. destruct (backup_entropy (hyper s)); [| exact Hlt].
    cbn. rewrite map2_length, length_map. lia. }
  split.
  - rewrite !map2_length, length_map. lia.
  - intros i Hi.
    rewrite (nth_map2 Rplus _ _ i 0 0 0)
      by (rewrite ?map2_length, ?length_map; lia).
    rewrite (nth_map2 Rmult _ _ i 0 0 0)
      by (rewrite ?length_map; lia).
    rewrite (nth_map_default _ d_col 0 0 i) by lia.
    f_equal. f_equal.
    unfold t. destruct (backup_entropy (hyper s)); [| reflexivity].
    cbn.
    rewrite (nth_map2 Rminus _ _ i 0 0 0) by (rewrite ?length_map; lia).
    rewrite (nth_map_default _ (data nlp) 0 0 i) by lia.
    reflexivity.
Qed.

(** C4: the TD target of row [i] is
    [r + (1 - done) * discount * min(target_Q1, target_Q2)(s', a')], where
    [a'] is one fresh draw of the policy at [s'] or, with
    [cql_max_target_backup], the candidate among the [cql_n_actions] draws
    whose min-target value is highest; with [backup_entropy] the term
    [alpha * next_log_pi] of that same action is subtracted first; and the
    target's graph reaches no parameter. *)
Theorem td_target_formula (s : ContinuousCQL) (next_observations : mat)
    (r_col d_col : list R) (alpha : tensor R) (d : Draws) :
  length r_col = length next_observations ->
  length d_col = length next_observations ->
  (cql_max_target_backup (hyper s) = true ->
   (0 < cql_n_actions (hyper s))%nat) ->
  exists tq y,
    td_target apply_net s next_observations (unsqueeze r_col)
        (unsqueeze d_col) alpha d = inr (tq, y) /\
    leaves y = [] /\
    length (data y) = length next_observations /\
    forall i, (i < length next_observations)%nat ->
      let s' := nth i next_observations [] in
      let value eps :=
        min_target apply_net s s' (fst (policy_draw apply_net s s' eps)) in
      exists eps : nat -> R,
        (if cql_max_target_backup (hyper s) then
           exists j,
             (j < cql_n_actions (hyper s))%nat /\
             eps = next_actions_repeat_eps d i j /\
             forall k, (k < cql_n_actions (hyper s))%nat ->
               value (next_actions_repeat_eps d i k) <= value eps
         else eps = next_actions_eps d i) /\
        nth i (data y) 0
          = nth i r_col 0
            + (1 - nth i d_col 0) * discount (hyper s)
              * (if backup_entropy (hyper s)
                 then value eps
                      - data alpha * snd (policy_draw apply_net s s' eps)
                 else value eps).
Proof.
  intros Hlr Hld Hn.
  destruct (cql_max_target_backup (hyper s)) eqn:Hmax.
  - destruct (target_backup_max s next_observations d Hmax (Hn eq_refl))
      as (tqv & nlp & Hb & Hlt & Hll & Hat).
    destruct (td_target_from_backup s next_observations r_col d_col alpha d
                tqv nlp Hb Hlt Hll Hlr Hld)
      as (tq & y & Htd & Hleaves & Hly & Hy).
    exists tq, y. repeat (split; [assumption |]).
    intros i Hi. cbv zeta.
    destruct (Hat i Hi) as (j & Hj & Hbest & Hv & Hl).
    exists (next_actions_repeat_eps d i j).
    split; [exists j; auto |].
    rewrite (Hy i Hi), Hv, Hl. reflexivity.
  - destruct (target_backup_plain s next_observations d Hmax)
      as (tqv & nlp & Hb & Hlt & Hll & Hat).
    destruct (td_target_from_backup s next_observations r_col d_col alpha d
                tqv nlp Hb Hlt Hll Hlr Hld)
      as (tq & y & Htd & Hleaves & Hly & Hy).
    exists tq, y. repeat (split; [assumption |]).
    intros i Hi. cbv zeta.
    destruct (Hat i Hi) as (Hv & Hl).
    exists (next_actions_eps d i).
    split; [reflexivity |].
    rewrite (Hy i Hi), Hv, Hl. reflexivity.
Qed.

(** *** The conservative penalty *)

Lemma cql_random_actions_at (actions : mat) (n : nat) (d : Draws) (i : nat) :
  (i < length actions)%nat ->
  nth i (data (cql_random_actions actions n d)) []
    = map (fun j => map (fun k => cql_random d i j k)
                        (seq 0 (length (hd [] actions))))
          (seq 0 n).
Proof.
  intros Hi. unfold cql_random_actions, constant. cbn [data].
  apply (nth_map_seq
           (fun i => map (fun j => map (fun k => cql_random d i j k)
                                       (seq 0 (length (hd [] actions))))
                         (seq 0 n))).
  exact Hi.
Qed.

Lemma candidates_rows (id : leaf) (critic : QFunction.t Parameters)
    (s : ContinuousCQL) (observations actions next_observations : mat)
    (d : Draws) :
  length actions = length observations ->
  length next_observations = length observations ->
  let c := candidates apply_net id critic s observations actions
             next_observations d in
  let n := cql_n_actions (hyper s) in
  (length (data (cql_q_rand c)) = length observations /\
   length (data (cql_q_next_actions c)) = length observations /\
   length (data (cql_q_current_actions c)) = length observations /\
   length (data (cql_next_log_pis c)) = length observations /\
   length (data (cql_current_log_pis c)) = length observations) /\
  (leaves (cql_q_rand c) = [id] /\
   leaves (cql_q_next_actions c) = [id] /\
   leaves (cql_q_current_actions c) = [id] /\
   leaves (cql_next_log_pis c) = [] /\
   leaves (cql_current_log_pis c) = []) /\
  forall i, (i < length observations)%nat ->
    let o := nth i observations [] in
    let o' := nth i next_observations [] in
    nth i (data (cql_q_rand c)) []
      = q_rand_row apply_net critic o (length (hd [] actions)) n d i /\
    nth i (data (cql_q_next_actions c)) []
      = q_policy_row apply_net critic (actor s) o o' n (cql_next_eps d i) /\
    nth i (data (cql_q_current_actions c)) []
      = q_policy_row apply_net critic (actor s) o o n
          (cql_current_eps d i) /\
    nth i (data (cql_next_log_pis c)) []
      = log_pi_row apply_net (actor s) o' n (cql_next_eps d i) /\
    nth i (data (cql_current_log_pis c)) []
      = log_pi_row apply_net (actor s) o n (cql_current_eps d i).
Proof.
  intros Hla Hln. cbv zeta. unfold candidates.
  set (n := cql_n_actions (hyper s)).
  pose proof (forward_repeat_lengths apply_net Actor (actor s) observations
                false n (cql_current_eps d)) as [Hca Hcl].
  pose proof (forward_repeat_row_at apply_net Actor (actor s) observations
                false n (cql_current_eps d)) as Hcrow.
  destruct (Policy.forward_repeat apply_net Actor (actor s) observations
              false n (cql_current_eps d)) as [cur_a cur_l].
  pose proof (forward_repeat_lengths apply_net Actor (actor s)
                next_observations false n (cql_next_eps d)) as [Hna Hnl].
  pose proof (forward_repeat_row_at apply_net Actor (actor s)
                next_observations false n (cql_next_eps d)) as Hnrow.
  destruct (Policy.forward_repeat apply_net Actor (actor s)
              next_observations false n (cql_next_eps d)) as [nxt_a nxt_l].
  cbn [fst snd] in *.
  cbn [cql_q_rand cql_q_next_actions cql_q_current_actions cql_next_log_pis
       cql_current_log_pis].
  split; [| split].
  - rewrite !q_forward_multi_length. cbn [detach data].
    unfold cql_random_actions, constant. cbn [data].
    rewrite length_map, length_seq. repeat split; lia.
  - repeat split.
  - intros i Hi.
    destruct (Hcrow i Hi) as [Hca_i Hcl_i].
    destruct (Hnrow i ltac:(lia)) as [Hna_i Hnl_i].
    rewrite !q_forward_multi_at
      by (cbn [detach data]; unfold cql_random_actions, constant;
          cbn [data]; rewrite ?length_map, ?length_seq; lia).
    cbn [detach data].
    rewrite cql_random_actions_at by lia.
    rewrite Hca_i, Hna_i, Hcl_i, Hnl_i.
    unfold q_rand_row, q_policy_row, log_pi_row.
    rewrite !map_map. repeat split.
Qed.

Lemma nth_msub (u v : list (list R)) (i : nat) :
  (i < length u)%nat -> (i < length v)%nat ->
  nth i (map2 (map2 Rminus) u v) [] = map2 Rminus (nth i u []) (nth i v []).
Proof. intros Hu Hv. apply nth_map2; assumption. Qed.

Lemma cql_qf_ood_rows (id : leaf) (critic : QFunction.t Parameters)
    (s : ContinuousCQL) (observations actions next_observations : mat)
    (d : Draws) :
  length actions = length observations ->
  length next_observations = length observations ->
  let c := candidates apply_net id critic s observations actions
             next_observations d in
  let q_predicted :=
    QFunction.forward apply_net id critic observations (constant actions) in
  let ood := cql_qf_ood s c q_predicted actions in
  length (data ood) = length observations /\
  (forall l, In l (leaves ood) -> l = id) /\
  forall i, (i < length observations)%nat ->
    let o := nth i observations [] in
    let a := nth i actions [] in
    let o' := nth i next_observations [] in
    let action_dim := length (hd [] actions) in
    nth i (data ood) 0
      = smoothed_max (cql_temp (hyper s))
          (if cql_importance_sample (hyper s)
           then ood_row_importance apply_net critic s o o' action_dim d i
           else ood_row_plain apply_net critic s o a o' action_dim d i).
Proof.
  intros Hla Hln. cbv zeta.
  destruct (candidates_rows id critic s observations actions
              next_observations d Hla Hln)
    as ((Hl1 & Hl2 & Hl3 & Hl4 & Hl5) & (Hv1 & Hv2 & Hv3 & Hv4 & Hv5) & Hrow).
  cbv zeta in Hrow.
  set (c := candidates apply_net id critic s observations actions
              next_observations d) in *.
  set (q_predicted := QFunction.forward apply_net id critic observations
                        (constant actions)).
  assert (Hlq : length (data q_predicted) = length observations).
  { unfold q_predicted. rewrite q_forward_length. cbn. lia. }
  unfold cql_qf_ood, cql_cat, lift1. cbn [data leaves].
  destruct (cql_importance_sample (hyper s)).
  - unfold cql_cat_importance, tcat, msub, lift1, lift2, detach.
    cbn [map data leaves concat app].
    rewrite Hv1, Hv2, Hv3. cbn [app].
    split; [| split].
    + rewrite length_map.
      apply cat1_length_three;
        rewrite ?length_map, ?map2_length; lia.
    + intros l [<- | [<- | [<- | []]]]; reflexivity.
    + intros i Hi.
      destruct (Hrow i Hi) as (R1 & R2 & R3 & R4 & R5).
      rewrite (nth_map_default _ _ 0 [] i)
        by (rewrite (cat1_length_three _ _ _ (length observations));
            rewrite ?length_map, ?map2_length; lia).
      f_equal.
      rewrite nth_cat1_three
        by (rewrite ?length_map, ?map2_length; lia).
      rewrite (nth_map_default
                 (map (fun q => q - ln (0.5 ^ length (hd [] actions)))) _ []
                 [] i) by lia.
      rewrite !nth_msub by lia.
      rewrite R1, R2, R3, R4, R5. reflexivity.
  - unfold cql_cat_plain, tcat, lift1.
    cbn [map data leaves concat app].
    rewrite Hv1, Hv2, Hv3. unfold q_predicted at 2.
    cbn [QFunction.forward leaves constant app].
    split; [| split].
    + rewrite length_map.
      apply cat1_length_four; unfold unsqueeze1;
        rewrite ?length_map; lia.
    + intros l [<- | [<- | [<- | [<- | []]]]]; reflexivity.
    + intros i Hi.
      destruct (Hrow i Hi) as (R1 & R2 & R3 & R4 & R5).
      rewrite (nth_map_default _ _ 0 [] i)
        by (rewrite (cat1_length_four _ _ _ _ (length observations));
            unfold unsqueeze1; rewrite ?length_map; lia).
      f_equal.
      rewrite nth_cat1_four
        by (unfold unsqueeze1; rewrite ?length_map; lia).
      unfold unsqueeze1.
      rewrite (nth_map_default (fun x => [x]) _ [] 0 i) by lia.
      unfold q_predicted. rewrite q_forward_at by (cbn; lia).
      cbn [constant data].
      rewrite R1, R2, R3. reflexivity.
Qed.

(** *** Log-sum-exp *)

Lemma sum_exp_nonneg (row : list R) : 0 <= sum (map exp row).
Proof.
  unfold sum. induction row as [| y row IH]; cbn; [lra |].
  pose proof (exp_pos y). lra.
Qed.

Lemma sum_exp_pos (row : list R) : row <> [] -> 0 < sum (map exp row).
Proof.
  destruct row as [| x row]; [congruence |]. intros _.
  pose proof (sum_exp_nonneg row) as H. pose proof (exp_pos x) as Hx.
  unfold sum in *. cbn. lra.
Qed.

Lemma sum_app (u v : list R) : sum (u ++ v) = sum u + sum v.
Proof. unfold sum. induction u as [| x u IH]; cbn; [| rewrite IH]; lra. Qed.

(** One more entry on the candidate axis changes the smoothed maximum. *)
Lemma smoothed_max_extra (temp : R) (row : list R) (x : R) :
  temp <> 0 -> row <> [] ->
  smoothed_max temp (row ++ [x]) <> smoothed_max temp row.
Proof.
  intros Ht Hrow. unfold smoothed_max, logsumexp.
  rewrite !map_app, sum_app. cbn [map sum fold_right].
  assert (Hpos : 0 < sum (map exp (map (fun q => q / temp) row))).
  { apply sum_exp_pos. destruct row; [congruence | cbn; discriminate]. }
  pose proof (exp_pos (x / temp)) as Hx.
  set (S := sum (map exp (map (fun q => q / temp) row))) in *.
  assert (Hln : ln S < ln (S + (exp (x / temp) + 0))).
  { apply ln_increasing; lra. }
  intros Heq. apply Rmult_eq_reg_r in Heq; [lra | exact Ht].
Qed.

(** Four equal entries: the smoothed maximum is the value plus
    [temp * ln 4]. *)
Lemma smoothed_max_four_equal (temp c : R) :
  temp <> 0 -> smoothed_max temp [c; c; c; c] = c + temp * ln 4.
Proof.
  intros Ht. unfold smoothed_max, logsumexp. cbn [map sum fold_right].
  replace (exp (c / temp) + (exp (c / temp) + (exp (c / temp)
             + (exp (c / temp) + 0))))
    with (4 * exp (c / temp)) by lra.
  rewrite ln_mult by (try apply exp_pos; lra).
  rewrite ln_exp. field. exact Ht.
Qed.

(** *** The critic loss and the multiplier *)

Lemma td_target_total (s : ContinuousCQL) (next_observations rewards dones : mat)
    (alpha : tensor R) (d : Draws) :
  (cql_max_target_backup (hyper s) = true ->
   (0 < cql_n_actions (hyper s))%nat) ->
  exists tq y,
    td_target apply_net s next_observations rewards dones alpha d
      = inr (tq, y).
Proof.
  intros Hn. unfold td_target.
  destruct (cql_max_target_backup (hyper s)) eqn:Hmax.
  - destruct (target_backup_max s next_observations d Hmax (Hn eq_refl))
      as (tqv & nlp & -> & _). eexists. eexists. reflexivity.
  - destruct (target_backup_plain s next_observations d Hmax)
      as (tqv & nlp & -> & _). eexists. eexists. reflexivity.
Qed.

Lemma q_loss_run (observations actions next_observations rewards dones : mat)
    (alpha : tensor R) (log : log_dict) (d : Draws) (o : OptimizerSteps)
    (w : World) (tq : tensor mat) (y : tensor (list R)) :
  let s := self w in
  let h := hyper s in
  let q1 := QFunction.forward apply_net Critic1 (critic_1 s) observations
              (constant actions) in
  let q2 := QFunction.forward apply_net Critic2 (critic_2 s) observations
              (constant actions) in
  let c1 := candidates apply_net Critic1 (critic_1 s) s observations actions
              next_observations d in
  let c2 := candidates apply_net Critic2 (critic_2 s) s observations actions
              next_observations d in
  let diff1 := cql_qf_diff s c1 q1 actions in
  let diff2 := cql_qf_diff s c2 q2 actions in
  td_target apply_net s next_observations rewards dones alpha d
    = inr (tq, y) ->
  exists qf_loss alpha_prime alpha_prime_loss log' term1 term2,
    _q_loss apply_net observations actions next_observations rewards dones
        alpha log d o w
      = (inr (qf_loss, alpha_prime, alpha_prime_loss, log'),
         if cql_lagrange h then
           mkWorld
             (set_log_alpha_prime (Scalar.mk (stepped_log_alpha_prime o)) s)
             (calls w ++ [zero_grad alpha_prime_optimizer;
                          backward alpha_prime_loss true;
                          step alpha_prime_optimizer])
         else w) /\
    data qf_loss
      = mse_loss (data q1) (data y) + mse_loss (data q2) (data y)
        + data term1 + data term2 /\
    (if cql_lagrange h then
       alpha_prime = lagrange_alpha_prime s /\
       term1 = lagrange_term s alpha_prime diff1 /\
       term2 = lagrange_term s alpha_prime diff2 /\
       alpha_prime_loss = lagrange_alpha_prime_loss term1 term2
     else
       alpha_prime = constant 0 /\
       term1 = fixed_term s diff1 /\
       term2 = fixed_term s diff2 /\
       alpha_prime_loss = constant 0) /\
    dict_get "alpha_prime" log' = Some (data alpha_prime) /\
    dict_get "alpha_prime_loss" log' = Some (data alpha_prime_loss) /\
    dict_get "cql_min_qf1_loss" log' = Some (data term1) /\
    dict_get "cql_min_qf2_loss" log' = Some (data term2).
Proof.
  cbv zeta. intros Htd.
  unfold _q_loss. rewrite bind_get. cbv zeta.
  rewrite Htd. cbn [lift fst snd]. rewrite bind_ret.
  destruct (cql_lagrange (hyper (self w))).
  - unfold optimizer_step, emit, update. monad_steps.
    cbn [self calls]. rewrite <- !app_assoc. cbn [app].
    do 6 eexists. split; [reflexivity |].
    repeat split; reflexivity.
  - monad_steps.
    do 6 eexists. split; [destruct w; reflexivity |].
    repeat split; reflexivity.
Qed.

(** *** One training step *)

Lemma alpha_total (s : ContinuousCQL) (log_pi : tensor (list R)) :
  (use_automatic_entropy_tuning (hyper s) = true -> log_alpha s <> None) ->
  exists alpha alpha_loss,
    _alpha_and_alpha_loss s log_pi = inr (alpha, alpha_loss).
Proof.
  intros H. unfold _alpha_and_alpha_loss.
  destruct (use_automatic_entropy_tuning (hyper s)).
  - destruct (log_alpha s) as [la |]; [| exfalso; apply H; reflexivity].
    eexists. eexists. reflexivity.
  - eexists. eexists. reflexivity.
Qed.

Lemma apply_updates_run (alpha_loss policy_loss qf_loss : tensor R)
    (o : OptimizerSteps) (s : ContinuousCQL) (cs : list call) :
  let h := hyper s in
  let s_alpha :=
    if use_automatic_entropy_tuning h then
      set_log_alpha
        (option_map (fun _ => Scalar.mk (stepped_log_alpha o)) (log_alpha s))
        s
    else s in
  let s_actor := set_actor (write_actor o (actor s_alpha)) s_alpha in
  let s_c1 :=
    set_critic_1 (write_critic (stepped_critic_1 o) (critic_1 s_actor))
      s_actor in
  let s_c2 :=
    set_critic_2 (write_critic (stepped_critic_2 o) (critic_2 s_c1)) s_c1 in
  target_update_period h <> 0%Z ->
  apply_updates alpha_loss policy_loss qf_loss o (mkWorld s cs)
    = (inr tt,
       mkWorld
         (if (total_it s mod target_update_period h =? 0)%Z
          then update_target_network (soft_target_update_rate h) s_c2
          else s_c2)
         (cs
            ++ (if use_automatic_entropy_tuning h then
                  [zero_grad alpha_optimizer;
                   backward alpha_loss false;
                   step alpha_optimizer]
                else [])
            ++ [zero_grad actor_optimizer;
                backward policy_loss false;
                step actor_optimizer;
                zero_grad critic_1_optimizer;
                zero_grad critic_2_optimizer;
                backward qf_loss true;
                step critic_1_optimizer;
                step critic_2_optimizer])).
Proof.
  cbv zeta. intros Hp.
  assert (Hz : (target_update_period (hyper s) =? 0)%Z = false)
    by (apply Z.eqb_neq; exact Hp).
  unfold apply_updates.
  destruct (use_automatic_entropy_tuning (hyper s)) eqn:Eu;
    run_world; rewrite Eu; run_world; rewrite Hz; run_world;
    destruct (total_it s mod target_update_period (hyper s) =? 0)%Z;
    run_world; rewrite <- !app_assoc; reflexivity.
Qed.

Lemma train_ori_run
    (observations actions rewards next_observations dones : mat)
    (d : Draws) (o : OptimizerSteps) (w : World) :
  let s1 := set_total_it (total_it (self w) + 1) (self w) in
  let h := hyper (self w) in
  (use_automatic_entropy_tuning h = true -> log_alpha (self w) <> None) ->
  (cql_max_target_backup h = true -> (0 < cql_n_actions h)%nat) ->
  target_update_period h <> 0%Z ->
  exists log log0 alpha alpha_loss policy_loss qf_loss alpha_prime
         alpha_prime_loss w2,
    let pi := Policy.forward apply_net Actor (actor s1) observations false
                (new_actions_eps d) in
    _alpha_and_alpha_loss s1 (snd pi) = inr (alpha, alpha_loss) /\
    policy_loss
      = _policy_loss_ori apply_net s1 observations (constant actions)
          (fst pi) alpha (snd pi) (log_prob_eps d) /\
    _q_loss apply_net observations actions next_observations rewards dones
        alpha log0 d o (mkWorld s1 (calls w))
      = (inr (qf_loss, alpha_prime, alpha_prime_loss, log), w2) /\
    train_ori apply_net
        [observations; actions; rewards; next_observations; dones] d o w
      = (inr log,
         mkWorld
           (if (total_it s1 mod target_update_period h =? 0)%Z
            then update_target_network (soft_target_update_rate h)
                   (after_steps o s1)
            else after_steps o s1)
           (calls w
              ++ training_calls h alpha_prime_loss alpha_loss policy_loss
                   qf_loss)).
Proof.
  cbv zeta. intros Hla Hn Hp.
  set (s1 := set_total_it (total_it (self w) + 1) (self w)).
  set (h := hyper (self w)) in *.
  unfold train_ori, update. rewrite bind_modify, bind_get.
  cbn [self calls]. fold s1.
  destruct (Policy.forward apply_net Actor (actor s1) observations false
              (new_actions_eps d)) as [new_actions log_pi] eqn:Epi.
  destruct (alpha_total s1 log_pi Hla) as (alpha & alpha_loss & Ha).
  rewrite Ha. cbn [lift fst snd]. rewrite bind_ret.
  destruct (td_target_total s1 next_observations rewards dones alpha d Hn)
    as (tq & y & Htd).
  set (policy_loss :=
         _policy_loss_ori apply_net s1 observations (constant actions)
           new_actions alpha log_pi (log_prob_eps d)).
  set (log0 := [("log_pi"%string, mean (data log_pi));
                ("policy_loss"%string, data policy_loss);
                ("alpha_loss"%string, data alpha_loss);
                ("alpha"%string, data alpha)]).
  destruct (q_loss_run observations actions next_observations rewards dones
              alpha log0 d o (mkWorld s1 (calls w)) tq y Htd)
    as (qf_loss & alpha_prime & alpha_prime_loss & log & t1 & t2 & Hq & _).
  rewrite (bind_run _ _ _ _ _ Hq).
  exists log, log0, alpha, alpha_loss, policy_loss, qf_loss, alpha_prime,
    alpha_prime_loss.
  eexists. cbn [fst snd].
  split; [exact Ha |]. split; [reflexivity |]. split; [exact Hq |].
  clear Hq. cbn [self calls].
  change (hyper s1) with h.
  unfold after_steps, training_calls.
  change (hyper s1) with h.
  destruct (cql_lagrange h) eqn:El.
  - rewrite (bind_run _ _ _ _ _
               (apply_updates_run alpha_loss policy_loss qf_loss o
                  (set_log_alpha_prime
                     (Scalar.mk (stepped_log_alpha_prime o)) s1)
                  _ Hp)).
    unfold ret. rewrite <- !app_assoc. reflexivity.
  - rewrite (bind_run _ _ _ _ _
               (apply_updates_run alpha_loss policy_loss qf_loss o s1 _ Hp)).
    unfold ret. reflexivity.
Qed.

(** *** The out-of-distribution estimate: results *)

(** C1 (amended): for each critic, row [i] of the OOD estimate is
    [temp * logsumexp(row / temp)].  Without importance sampling the row is
    the concatenation of four groups: the critic at the random actions, at
    the dataset action, at the next-state candidates and at the
    current-policy candidates.  With importance sampling it is the
    concatenation of three groups only: the random-action values minus
    [log(0.5^action_dim)] and the next-state and current-policy values
    minus their log-probabilities; the value at the dataset action is not
    part of it.  The estimate's graph reaches that critic only, so the
    log-probabilities enter detached. *)
Theorem ood_estimate_rows (s : ContinuousCQL)
    (observations actions next_observations : mat) (d : Draws) :
  length actions = length observations ->
  length next_observations = length observations ->
  let estimate id critic :=
    cql_qf_ood s
      (candidates apply_net id critic s observations actions
         next_observations d)
      (QFunction.forward apply_net id critic observations (constant actions))
      actions in
  let row critic i :=
    let o := nth i observations [] in
    let a := nth i actions [] in
    let o' := nth i next_observations [] in
    let action_dim := length (hd [] actions) in
    if cql_importance_sample (hyper s)
    then ood_row_importance apply_net critic s o o' action_dim d i
    else ood_row_plain apply_net critic s o a o' action_dim d i in
  (forall l, In l (leaves (estimate Critic1 (critic_1 s))) -> l = Critic1) /\
  (forall l, In l (leaves (estimate Critic2 (critic_2 s))) -> l = Critic2) /\
  forall i, (i < length observations)%nat ->
    nth i (data (estimate Critic1 (critic_1 s))) 0
      = smoothed_max (cql_temp (hyper s)) (row (critic_1 s) i) /\
    nth i (data (estimate Critic2 (critic_2 s))) 0
      = smoothed_max (cql_temp (hyper s)) (row (critic_2 s) i).
Proof.
  intros Hla Hln. cbv zeta.
  destruct (cql_qf_ood_rows Critic1 (critic_1 s) s observations actions
              next_observations d Hla Hln) as (_ & Hl1 & Hr1).
  destruct (cql_qf_ood_rows Critic2 (critic_2 s) s observations actions
              next_observations d Hla Hln) as (_ & Hl2 & Hr2).
  cbv zeta in Hr1, Hr2.
  split; [exact Hl1 |]. split; [exact Hl2 |].
  intros i Hi. split; [apply Hr1 | apply Hr2]; exact Hi.
Qed.

(** C2 (amended): without importance sampling and with one candidate per
    group, a critic that returns [c] on every input gives the OOD estimate
    [c + cql_temp * log 4] on every row: the candidate axis holds four
    entries equal to [c], and the log-sum-exp of four equal values exceeds
    the value by [log 4]. *)
Theorem ood_estimate_constant_critic (id : leaf)
    (critic : QFunction.t Parameters) (s : ContinuousCQL)
    (observations actions next_observations : mat) (d : Draws) (c : R)
    (i : nat) :
  (forall o a, QFunction.q_value apply_net critic o a = c) ->
  cql_importance_sample (hyper s) = false ->
  cql_n_actions (hyper s) = 1%nat ->
  cql_temp (hyper s) <> 0 ->
  length actions = length observations ->
  length next_observations = length observations ->
  (i < length observations)%nat ->
  nth i (data (cql_qf_ood s
                 (candidates apply_net id critic s observations actions
                    next_observations d)
                 (QFunction.forward apply_net id critic observations
                    (constant actions))
                 actions)) 0
    = c + cql_temp (hyper s) * ln 4.
Proof.
  intros Hc His Hn Ht Hla Hln Hi.
  destruct (cql_qf_ood_rows id critic s observations actions
              next_observations d Hla Hln) as (_ & _ & Hrow).
  cbv zeta in Hrow. rewrite (Hrow i Hi), His.
  unfold ood_row_plain, q_rand_row, q_policy_row. rewrite Hn.
  cbn [seq map app]. rewrite !Hc.
  apply smoothed_max_four_equal. exact Ht.
Qed.

(** *** The training step: results *)

Lemma after_steps_fields (o : OptimizerSteps) (s : ContinuousCQL) :
  hyper (after_steps o s) = hyper s /\
  total_it (after_steps o s) = total_it s /\
  target_critic_1 (after_steps o s) = target_critic_1 s /\
  target_critic_2 (after_steps o s) = target_critic_2 s /\
  critic_1 (after_steps o s) = write_critic (stepped_critic_1 o) (critic_1 s)
  /\
  critic_2 (after_steps o s) = write_critic (stepped_critic_2 o) (critic_2 s)
  /\
  log_alpha_prime (after_steps o s)
    = (if cql_lagrange (hyper s)
       then Scalar.mk (stepped_log_alpha_prime o)
       else log_alpha_prime s).
Proof.
  unfold after_steps.
  destruct (cql_lagrange (hyper s));
    cbn [hyper set_log_alpha_prime];
    destruct (use_automatic_entropy_tuning (hyper s));
    repeat split.
Qed.

(** C5: one training step increments the counter; it synchronises the
    targets exactly when the new counter is a multiple of
    [target_update_period], and then every entry of every parameter tensor
    of each target critic is [(1 - tau) * old + tau * source], the source
    being the critic as its optimizer left it; otherwise both targets are
    unchanged. *)
Theorem target_sync_on_period
    (observations actions rewards next_observations dones : mat)
    (d : Draws) (o : OptimizerSteps) (w : World) :
  let s := self w in
  let h := hyper s in
  let tau := soft_target_update_rate h in
  (use_automatic_entropy_tuning h = true -> log_alpha s <> None) ->
  (cql_max_target_backup h = true -> (0 < cql_n_actions h)%nat) ->
  target_update_period h <> 0%Z ->
  same_shape (QFunction.network (target_critic_1 s)) (stepped_critic_1 o) ->
  same_shape (QFunction.network (target_critic_2 s)) (stepped_critic_2 o) ->
  exists log w',
    train_ori apply_net
        [observations; actions; rewards; next_observations; dones] d o w
      = (inr log, w') /\
    let s' := self w' in
    total_it s' = (total_it s + 1)%Z /\
    QFunction.network (critic_1 s') = stepped_critic_1 o /\
    QFunction.network (critic_2 s') = stepped_critic_2 o /\
    ((target_update_period h | total_it s')%Z ->
     target_critic_1 s' = soft_update (target_critic_1 s) (critic_1 s') tau
     /\
     target_critic_2 s' = soft_update (target_critic_2 s) (critic_2 s') tau
     /\
     forall i j,
       ((i < length (QFunction.network (target_critic_1 s)))%nat ->
        (j < length (nth i (QFunction.network (target_critic_1 s)) []))%nat
        ->
        nth j (nth i (QFunction.network (target_critic_1 s')) []) 0
          = (1 - tau)
              * nth j (nth i (QFunction.network (target_critic_1 s)) []) 0
            + tau * nth j (nth i (QFunction.network (critic_1 s')) []) 0) /\
       ((i < length (QFunction.network (target_critic_2 s)))%nat ->
        (j < length (nth i (QFunction.network (target_critic_2 s)) []))%nat
        ->
        nth j (nth i (QFunction.network (target_critic_2 s')) []) 0
          = (1 - tau)
              * nth j (nth i (QFunction.network (target_critic_2 s)) []) 0
            + tau * nth j (nth i (QFunction.network (critic_2 s')) []) 0)) /\
    (~ (target_update_period h | total_it s')%Z ->
     target_critic_1 s' = target_critic_1 s /\
     target_critic_2 s' = target_critic_2 s).
Proof.
  cbv zeta. intros Hla Hn Hp Hs1 Hs2.
  destruct (train_ori_run observations actions rewards next_observations
              dones d o w Hla Hn Hp)
    as (log & log0 & alpha & alpha_loss & policy_loss & qf_loss
        & alpha_prime & alpha_prime_loss & w2 & _ & _ & _ & Hrun).
  cbv zeta in Hrun.
  set (s1 := set_total_it (total_it (self w) + 1) (self w)) in *.
  destruct (after_steps_fields o s1)
    as (Fh & Ft & Ft1 & Ft2 & Fc1 & Fc2 & _).
  set (sa := after_steps o s1) in *.
  set (h := hyper (self w)) in *.
  eexists. eexists. split; [exact Hrun |].
  cbn [self].
  assert (Hmod : forall b : bool,
            ((total_it s1 mod target_update_period h =? 0)%Z = b) ->
            if b then (target_update_period h | total_it s1)%Z
            else ~ (target_update_period h | total_it s1)%Z).
  { intros [|] Hb.
    - apply Z.eqb_eq in Hb. apply Z.mod_divide; assumption.
    - apply Z.eqb_neq in Hb. intros Hd. apply Hb.
      apply Z.mod_divide; assumption. }
  destruct (total_it s1 mod target_update_period h =? 0)%Z eqn:Esync;
    specialize (Hmod _ eq_refl); cbv iota in Hmod.
  - unfold update_target_network.
    cbn [total_it critic_1 critic_2 target_critic_1 target_critic_2
         set_target_critic_1 set_target_critic_2].
    rewrite Ft, Fc1, Fc2, Ft1, Ft2.
    cbn [total_it target_critic_1 target_critic_2 s1 set_total_it
         write_critic QFunction.network].
    split; [reflexivity |]. split; [reflexivity |]. split; [reflexivity |].
    split.
    + intros _. split; [reflexivity |]. split; [reflexivity |].
      intros i j. unfold soft_update. cbn [QFunction.network].
      split; intros Hi Hj;
        apply soft_update_parameters_at; assumption.
    + intros Hnd. exfalso. apply Hnd. exact Hmod.
  - rewrite Ft, Fc1, Fc2, Ft1, Ft2.
    cbn [total_it target_critic_1 target_critic_2 s1 set_total_it
         write_critic QFunction.network].
    split; [reflexivity |]. split; [reflexivity |]. split; [reflexivity |].
    split.
    + intros Hd. exfalso. apply Hmod. exact Hd.
    + intros _. split; reflexivity.
Qed.

Lemma log_alpha_prime_after_sync (b : bool) (tau : R) (s : ContinuousCQL) :
  log_alpha_prime (if b then update_target_network tau s else s)
    = log_alpha_prime s.
Proof. destruct b; reflexivity. Qed.

(** C8: in Lagrange mode [alpha_prime] is
    [clamp(exp(log_alpha_prime), 0, 1e6)], each critic's conservative term
    is [alpha_prime * cql_alpha * (penalty - target_action_gap)], and the
    multiplier's own optimizer is stepped on [-(term1 + term2) / 2] before
    the backward pass of the critic loss; with Lagrange mode off each term
    is [penalty * cql_alpha], [alpha_prime] is reported as 0 and the
    multiplier is left alone.  In both modes the critic loss is the sum of
    the two squared TD errors and the two terms. *)
Theorem conservative_terms_and_multiplier
    (observations actions rewards next_observations dones : mat)
    (d : Draws) (o : OptimizerSteps) (w : World) :
  let h := hyper (self w) in
  let s := set_total_it (total_it (self w) + 1) (self w) in
  let q1 := QFunction.forward apply_net Critic1 (critic_1 s) observations
              (constant actions) in
  let q2 := QFunction.forward apply_net Critic2 (critic_2 s) observations
              (constant actions) in
  let penalty1 :=
    data (cql_qf_diff s
            (candidates apply_net Critic1 (critic_1 s) s observations actions
               next_observations d) q1 actions) in
  let penalty2 :=
    data (cql_qf_diff s
            (candidates apply_net Critic2 (critic_2 s) s observations actions
               next_observations d) q2 actions) in
  (use_automatic_entropy_tuning h = true -> log_alpha (self w) <> None) ->
  (cql_max_target_backup h = true -> (0 < cql_n_actions h)%nat) ->
  target_update_period h <> 0%Z ->
  exists log w' alpha alpha_loss policy_loss qf_loss alpha_prime
         alpha_prime_loss tq y term1 term2,
    train_ori apply_net
        [observations; actions; rewards; next_observations; dones] d o w
      = (inr log, w') /\
    td_target apply_net s next_observations rewards dones alpha d
      = inr (tq, y) /\
    calls w'
      = calls w
          ++ training_calls h alpha_prime_loss alpha_loss policy_loss qf_loss
    /\
    data qf_loss
      = mse_loss (data q1) (data y) + mse_loss (data q2) (data y)
        + term1 + term2 /\
    dict_get "alpha_prime" log = Some (data alpha_prime) /\
    dict_get "cql_min_qf1_loss" log = Some term1 /\
    dict_get "cql_min_qf2_loss" log = Some term2 /\
    if cql_lagrange h then
      data alpha_prime
        = clamp 0 1000000 (exp (Scalar.constant (log_alpha_prime (self w))))
      /\
      term1
        = data alpha_prime * cql_alpha h
          * (penalty1 - cql_target_action_gap h) /\
      term2
        = data alpha_prime * cql_alpha h
          * (penalty2 - cql_target_action_gap h) /\
      data alpha_prime_loss = - (term1 + term2) / 2 /\
      log_alpha_prime (self w') = Scalar.mk (stepped_log_alpha_prime o) /\
      exists between rest,
        calls w'
          = calls w
              ++ [zero_grad alpha_prime_optimizer;
                  backward alpha_prime_loss true;
                  step alpha_prime_optimizer]
              ++ between ++ [backward qf_loss true] ++ rest
    else
      term1 = penalty1 * cql_alpha h /\
      term2 = penalty2 * cql_alpha h /\
      data alpha_prime = 0 /\
      log_alpha_prime (self w') = log_alpha_prime (self w) /\
      ~ In (step alpha_prime_optimizer)
           (training_calls h alpha_prime_loss alpha_loss policy_loss qf_loss).
Proof.
  cbv zeta. intros Hla Hn Hp.
  destruct (train_ori_run observations actions rewards next_observations
              dones d o w Hla Hn Hp)
    as (log & log0 & alpha & alpha_loss & policy_loss & qf_loss
        & alpha_prime & alpha_prime_loss & w2 & _ & _ & Hq & Hrun).
  cbv zeta in Hrun.
  set (s := set_total_it (total_it (self w) + 1) (self w)) in *.
  set (h := hyper (self w)) in *.
  destruct (td_target_total s next_observations rewards dones alpha d Hn)
    as (tq & y & Htd).
  destruct (q_loss_run observations actions next_observations rewards dones
              alpha log0 d o (mkWorld s (calls w)) tq y Htd)
    as (qf' & ap' & apl' & log' & t1 & t2 & Hq' & Hsum & Hmode & Hd1 & _
        & Hd3 & Hd4).
  rewrite Hq in Hq'. injection Hq' as <- <- <- <- _.
  cbn [self] in Hsum, Hmode.
  change (hyper s) with h in Hmode.
  exists log. eexists.
  exists alpha, alpha_loss, policy_loss, qf_loss, alpha_prime,
    alpha_prime_loss, tq, y, (data t1), (data t2).
  split; [exact Hrun |]. split; [exact Htd |].
  cbn [self calls].
  split; [reflexivity |]. split; [exact Hsum |].
  split; [exact Hd1 |]. split; [exact Hd3 |]. split; [exact Hd4 |].
  rewrite log_alpha_prime_after_sync.
  destruct (after_steps_fields o s) as (_ & _ & _ & _ & _ & _ & Fap).
  rewrite Fap. change (hyper s) with h.
  unfold training_calls.
  destruct (cql_lagrange h).
  - destruct Hmode as (Hap & Ht1 & Ht2 & Hapl).
    split; [rewrite Hap; reflexivity |].
    split; [rewrite Ht1; reflexivity |].
    split; [rewrite Ht2; reflexivity |].
    split.
    { rewrite Hapl. unfold lagrange_alpha_prime_loss, lift1, lift2.
      cbn [data]. lra. }
    split; [reflexivity |].
    exists ((if use_automatic_entropy_tuning h
             then [zero_grad alpha_optimizer;
                   backward alpha_loss false;
                   step alpha_optimizer]
             else [])
            ++ [zero_grad actor_optimizer;
                backward policy_loss false;
                step actor_optimizer;
                zero_grad critic_1_optimizer;
                zero_grad critic_2_optimizer]),
      [step critic_1_optimizer; step critic_2_optimizer].
    destruct (use_automatic_entropy_tuning h); reflexivity.
  - destruct Hmode as (Hap & Ht1 & Ht2 & Hapl).
    split; [rewrite Ht1; reflexivity |].
    split; [rewrite Ht2; reflexivity |].
    split; [rewrite Hap; reflexivity |].
    split; [reflexivity |].
    cbn [app]. intros Hin.
    apply in_app_or in Hin. destruct Hin as [Hin | Hin].
    + destruct (use_automatic_entropy_tuning h); cbn in Hin;
        intuition discriminate.
    + cbn in Hin. intuition discriminate.
Qed.

End Networks.

End CQLFacts.

(** ** Replay buffer: further properties *)

Module BufferMore.

Import Buffer BufferFacts.

Section WithCast.

Variable float32 : R -> R.

(** X16: Sampling a batch of at least one transition from a buffer that
    holds none (freshly built, or after a load of an empty dataset) raises
    the generator's [ValueError]; neither the buffer nor the generator
    moves.  (For a batch of size 0 numpy hands back an empty array before
    it looks at the range; that call is left out.) *)
Theorem sample_from_empty_buffer (w : World) (batch_size : nat) :
  0 < batch_size ->
  _size (buffer w) = 0 \/ _pointer (buffer w) = 0 ->
  sample batch_size w = (inl (ValueError "low >= high"), w).
Proof.
  intros _ Hempty.
  assert (Hmin : Nat.min (_size (buffer w)) (_pointer (buffer w)) = 0)
    by (destruct Hempty as [-> | ->]; [apply Nat.min_0_l | apply Nat.min_0_r]).
  unfold sample. rewrite bind_get. rewrite Hmin.
  unfold bind, with_rng, randint. cbn [Nat.leb].
  destruct w. reflexivity.
Qed.



End WithCast.

End BufferMore.

(** ** The policy: further properties *)

Module PolicyMore.

Import Torch TorchFacts NetFacts More.
Module RTG := ReparameterizedTanhGaussian.
Local Open Scope R_scope.

(** *** The tanh transform *)




Lemma clamp_idempotent (lo hi x : R) :
  lo <= hi -> clamp lo hi (clamp lo hi x) = clamp lo hi x.
Proof.
  intros H. unfold clamp, Rmin, Rmax.
  repeat (destruct (Rle_dec _ _)); lra.
Qed.

(** *** Lists *)

Lemma map2_ext {A B C : Type} (f g : A -> B -> C) (xs : list A)
    (ys : list B) :
  (forall a b, f a b = g a b) -> map2 f xs ys = map2 g xs ys.
Proof.
  intros H. revert ys. induction xs as [| x xs IH]; intros [| y ys];
    simpl; try reflexivity.
  rewrite H, IH. reflexivity.
Qed.

Lemma map2_map_r {A B C D : Type} (f : A -> B -> C) (g : D -> B)
    (xs : list A) (ys : list D) :
  map2 f xs (map g ys) = map2 (fun a d => f a (g d)) xs ys.
Proof.
  revert ys. induction xs as [| x xs IH]; intros [| y ys];
    simpl; try reflexivity.
  rewrite IH. reflexivity.
Qed.

Lemma Forall_imap_from {A B : Type} (P : B -> Prop) (f : nat -> A -> B)
    (xs : list A) (k : nat) :
  (forall i a, P (f i a)) -> Forall P (imap_from k f xs).
Proof.
  intros H. revert k. induction xs as [| x xs IH]; intros k; simpl;
    constructor; auto.
Qed.

(** *** Sampling and scoring agree *)


Section Networks.

Variable apply_net : Parameters -> list R -> list R.

(** *** Actions stay inside the action range *)


(** *** Acting in evaluation mode *)

(** X12: Outside training mode [act] returns [max_action * tanh(mean)]: the
    noise and the log-std play no part, and the tanh is applied even by a
    policy built with [no_tanh]. *)
Theorem act_in_eval_mode (self : Policy.t Parameters) (state : list R)
    (eps : nat -> R) :
  act apply_net self false state eps
    = map (fun m => Policy.max_action self * tanh m)
        (firstn (Policy.action_dim self)
           (apply_net (Policy.base_network self) state)).
Proof.
  unfold act, Policy.forward, imap. cbn [negb imap_from map fst data concat].
  unfold Policy.forward_row, Policy.mean_log_std, RTG.forward.
  cbv zeta. cbn [fst]. rewrite app_nil_r, map_map. reflexivity.
Qed.

(** *** The density used by the regularised policy loss *)

(** X13: [get_log_density] scores, row by row, the action clipped into
    [[-1 + EPS, 1 - EPS]] under the tanh-Gaussian.  Hence an action and its
    clipped version have the same density, and for a policy with the tanh
    each row is the distribution's own [log_prob] at the clipped action;
    the action is not divided by [max_action]. *)
Theorem get_log_density_is_log_prob_of_clipped_action (id : leaf)
    (self : Policy.t Parameters) (observations : list (list R))
    (action : tensor (list (list R))) :
  let clip := map (clamp (-1 + Policy.EPS) (1 - Policy.EPS)) in
  data (Policy.get_log_density apply_net id self observations
          (lift1 (map clip) action))
    = data (Policy.get_log_density apply_net id self observations action) /\
  (RTG.no_tanh (Policy.tanh_gaussian self) = false ->
   forall i,
     (i < length observations)%nat ->
     (i < length (data action))%nat ->
     nth i
       (data (Policy.get_log_density apply_net id self observations action))
       0
     = let (mean, log_std) :=
         Policy.mean_log_std apply_net self (nth i observations []) in
       RTG.log_prob (Policy.tanh_gaussian self) mean log_std
         (clip (nth i (data action) []))).
Proof.
  cbv zeta. split.
  - unfold Policy.get_log_density, lift1. cbn [data].
    rewrite map2_map_r. apply map2_ext. intros o a.
    destruct (Policy.mean_log_std apply_net self o) as [mean log_std].
    assert (Hclip : map (clamp (-1 + Policy.EPS) (1 - Policy.EPS))
                      (map (clamp (-1 + Policy.EPS) (1 - Policy.EPS)) a)
                    = map (clamp (-1 + Policy.EPS) (1 - Policy.EPS)) a).
    { rewrite map_map. apply map_ext. intros y. apply clamp_idempotent.
      unfold Policy.EPS. lra. }
    rewrite Hclip. reflexivity.
  - intros Hn i Hi Ha. unfold Policy.get_log_density. cbn [data].
    rewrite (nth_map2 _ observations (data action) i 0 [] []) by lia.
    destruct (Policy.mean_log_std apply_net self (nth i observations []))
      as [mean log_std].
    unfold RTG.log_prob. cbv zeta. f_equal.
    apply map2_ext. intros ms y. unfold RTG.coordinate_log_prob.
    rewrite Hn. reflexivity.
Qed.

End Networks.

End PolicyMore.

(** ** Construction of the critics: further properties *)

Module InitMore.

Import Init InitFacts More.
Module QFunction := FullyConnectedQFunction.

Lemma hidden_length (n : nat) : length (QFunction.hidden n) = 2 * n.
Proof. induction n as [| n IH]; simpl; [reflexivity | rewrite IH; lia]. Qed.

(** X14: The critic's constructor succeeds at every depth, and its flag
    decides the initialiser of every linear layer: with the flag set the
    inner layers are orthogonal with gain [sqrt 2] and the last one
    orthogonal with gain 0.01, all with zero bias; without it the inner
    layers stay as [nn.Linear] made them and the last one is filled by
    [xavier_uniform_] with gain 0.01 and a zero bias. *)
Theorem critic_init_at_every_depth (observation_dim action_dim : nat)
    (orthogonal_init : bool) (n_hidden_layers : nat) :
  QFunction.__init__ observation_dim action_dim orthogonal_init
      n_hidden_layers
    = inr (QFunction.mk observation_dim action_dim orthogonal_init
             (if orthogonal_init then
                [Linear (observation_dim + action_dim) 256
                   (orthogonal_ (sqrt 2)) (constant_ 0); ReLU]
                  ++ map init_inner (QFunction.hidden (n_hidden_layers - 1))
                  ++ [Linear 256 1 (orthogonal_ 1e-2) (constant_ 0)]
              else
                [nn_Linear (observation_dim + action_dim) 256; ReLU]
                  ++ QFunction.hidden (n_hidden_layers - 1)
                  ++ [Linear 256 1 (xavier_uniform_ 1e-2) (constant_ 0)])).
Proof.
  unfold QFunction.__init__. cbv zeta.
  rewrite app_assoc. unfold nn_Linear at 2.
  destruct orthogonal_init.
  - rewrite init_module_weights_on, map_app, <- app_assoc. reflexivity.
  - rewrite init_module_weights_off, <- app_assoc. reflexivity.
Qed.

Lemma critic_init_length (observation_dim action_dim : nat)
    (orthogonal_init : bool) (n_hidden_layers : nat)
    (q : QFunction.t Sequential) :
  QFunction.__init__ observation_dim action_dim orthogonal_init
      n_hidden_layers = inr q ->
  length (QFunction.network q) = 2 * (n_hidden_layers - 1) + 3.
Proof.
  unfold QFunction.__init__. cbv zeta.
  rewrite app_assoc. unfold nn_Linear at 2.
  destruct orthogonal_init.
  - rewrite init_module_weights_on. intros [= <-].
    cbn [QFunction.network map init_inner app length].
    rewrite length_app, length_map, hidden_length. simpl. lia.
  - rewrite init_module_weights_off. intros [= <-].
    cbn [QFunction.network app length].
    rewrite length_app, hidden_length. simpl. lia.
Qed.

(** X15: The training script builds both critics, whatever the configured
    depth; the second critic always has three hidden blocks (seven
    submodules), so the two critics have the same number of layers exactly
    when [q_n_hidden_layers] is 3. *)
Theorem second_critic_ignores_configured_depth (state_dim action_dim : nat)
    (orthogonal_init : bool) (q_n_hidden_layers : nat) :
  exists critic_1 critic_2,
    build_critics state_dim action_dim orthogonal_init q_n_hidden_layers
      = inr (critic_1, critic_2) /\
    length (QFunction.network critic_2) = 7 /\
    length (QFunction.network critic_1) = 2 * (q_n_hidden_layers - 1) + 3 /\
    (length (QFunction.network critic_1) = length (QFunction.network critic_2)
     <-> q_n_hidden_layers = 3).
Proof.
  unfold build_critics.
  destruct (QFunction.__init__ state_dim action_dim orthogonal_init
              q_n_hidden_layers) as [e | critic_1] eqn:E1.
  { unfold QFunction.__init__ in E1. cbv zeta in E1.
    rewrite app_assoc in E1. unfold nn_Linear at 2 in E1.
    destruct orthogonal_init.
    - rewrite init_module_weights_on in E1. discriminate.
    - rewrite init_module_weights_off in E1. discriminate. }
  destruct (QFunction.__init__ state_dim action_dim orthogonal_init 3)
    as [e | critic_2] eqn:E2.
  { destruct orthogonal_init; discriminate. }
  exists critic_1, critic_2.
  pose proof (critic_init_length _ _ _ _ _ E1) as H1.
  pose proof (critic_init_length _ _ _ _ _ E2) as H2.
  split; [reflexivity |]. split; [exact H2 |]. split; [exact H1 |].
  rewrite H1, H2. lia.
Qed.

End InitMore.

(** ** Dataset utilities: properties *)

Module DataMore.

Import Buffer Data.
Local Open Scope R_scope.

(** *** The episode loop *)

Lemma list_sum_snoc (l : list nat) (n : nat) :
  list_sum (l ++ [n]) = (list_sum l + n)%nat.
Proof. rewrite list_sum_app. simpl. lia. Qed.

(** Every step of the loop is counted once, in a closed episode or in the
    open one. *)
Lemma episode_steps_counted (m : Z) (l : list (R * R)) (st : episodes) :
  let st' := fold_left (episode_step m) l st in
  (list_sum (lengths st') + ep_len st'
   = list_sum (lengths st) + ep_len st + length l)%nat.
Proof.
  cbv zeta. revert st. induction l as [| rd l IH]; intros st; simpl.
  - lia.
  - rewrite IH. unfold episode_step.
    destruct (truthy (snd rd) || (Z.of_nat (ep_len st + 1) =? m)%Z);
      cbn [lengths ep_len]; rewrite ?list_sum_snoc; lia.
Qed.

Lemma episode_loop_counted (m : Z) (rewards terminals : list R) :
  let st := episode_loop m rewards terminals in
  list_sum (lengths st ++ [ep_len st])
    = Nat.min (length rewards) (length terminals).
Proof.
  cbv zeta. rewrite list_sum_snoc. unfold episode_loop.
  rewrite (episode_steps_counted m (combine rewards terminals)
             (mkEpisodes [] [] 0 0)).
  cbn [lengths ep_len]. unfold list_sum. cbn [fold_right].
  rewrite length_combine. lia.
Qed.

(** X19: The assertion of [return_reward_range] fails exactly when there are
    fewer terminal flags than rewards: [zip] stops at the shorter array,
    so the counted steps fall short of [len(dataset["rewards"])]. *)
Theorem reward_range_assertion (dataset : Dataset) (max_episode_steps : Z) :
  return_reward_range dataset max_episode_steps = inl AssertionError
  <-> (length (terminals dataset) < length (rewards dataset))%nat.
Proof.
  unfold return_reward_range. cbv zeta.
  rewrite episode_loop_counted.
  destruct (Nat.min (length (rewards dataset)) (length (terminals dataset))
            =? length (rewards dataset))%nat eqn:E.
  - apply Nat.eqb_eq in E. split.
    + destruct (returns _); discriminate.
    + lia.
  - apply Nat.eqb_neq in E. split; [lia | reflexivity].
Qed.

(** Without a closed episode there is nothing to take the minimum of. *)
Lemma open_episode (m : Z) (l : list (R * R)) (st : episodes) :
  Forall (fun rd => snd rd = 0) l ->
  (Z.of_nat (ep_len st + length l) < m)%Z ->
  returns (fold_left (episode_step m) l st) = returns st.
Proof.
  intros H. revert st. induction H as [| rd l Hrd _ IH]; intros st Hlt;
    simpl in *; [reflexivity |].
  unfold episode_step at 2. rewrite Hrd. unfold truthy.
  destruct (Req_dec_T 0 0) as [_ | Hne]; [| contradiction].
  destruct (Z.of_nat (ep_len st + 1) =? m)%Z eqn:E;
    [apply Z.eqb_eq in E; lia |].
  cbn [orb]. rewrite IH; [reflexivity |]. cbn [ep_len]. lia.
Qed.

(** X20: A dataset that holds one unfinished trajectory (no terminal flag set,
    fewer steps than [max_episode_steps]) has no episode return, and
    [return_reward_range] raises the [ValueError] of [min] on an empty
    list. *)
Theorem reward_range_without_closed_episode (dataset : Dataset)
    (max_episode_steps : Z) :
  Forall (fun d => d = 0) (terminals dataset) ->
  (length (rewards dataset) <= length (terminals dataset))%nat ->
  (Z.of_nat (length (rewards dataset)) < max_episode_steps)%Z ->
  return_reward_range dataset max_episode_steps
    = inl (Raised (ValueError "min() arg is an empty sequence")).
Proof.
  intros Hflags Hlen Hshort.
  unfold return_reward_range. cbv zeta.
  rewrite episode_loop_counted.
  replace (Nat.min (length (rewards dataset)) (length (terminals dataset)))
    with (length (rewards dataset)) by lia.
  rewrite Nat.eqb_refl.
  unfold episode_loop. rewrite open_episode; [reflexivity | |].
  - apply Forall_forall. intros [r d] Hin. cbn [snd].
    apply in_combine_r in Hin.
    rewrite Forall_forall in Hflags. apply Hflags. exact Hin.
  - cbn [ep_len]. rewrite length_combine. lia.
Qed.

(** *** Scaling the rewards scales the returns *)

Lemma episode_step_scale (m : Z) (c : R) (st : episodes) (r d : R) :
  episode_step m (scale_episodes c st) (c * r, d)
    = scale_episodes c (episode_step m st (r, d)).
Proof.
  unfold episode_step, scale_episodes. cbn [fst snd ep_ret ep_len returns
    lengths].
  destruct (truthy d || (Z.of_nat (ep_len st + 1) =? m)%Z);
    cbn [ep_ret ep_len returns lengths].
  - rewrite map_app. cbn [map]. f_equal; [| ring].
    f_equal. f_equal. ring.
  - f_equal. ring.
Qed.

Lemma episode_fold_scale (m : Z) (c : R) (rs ts : list R) (st : episodes) :
  fold_left (episode_step m) (combine (map (Rmult c) rs) ts)
      (scale_episodes c st)
    = scale_episodes c (fold_left (episode_step m) (combine rs ts) st).
Proof.
  revert ts st. induction rs as [| r rs IH]; intros [| t ts] st;
    try reflexivity.
  cbn [map combine fold_left].
  rewrite episode_step_scale. apply IH.
Qed.

Lemma episode_loop_scale (m : Z) (c : R) (rs ts : list R) :
  episode_loop m (map (Rmult c) rs) ts
    = scale_episodes c (episode_loop m rs ts).
Proof.
  unfold episode_loop. rewrite <- episode_fold_scale.
  unfold scale_episodes. cbn [map returns lengths ep_ret ep_len].
  rewrite Rmult_0_r. reflexivity.
Qed.

Lemma Rmin_scale (c a b : R) : 0 <= c -> Rmin (c * a) (c * b) = c * Rmin a b.
Proof.
  intros Hc. unfold Rmin.
  destruct (Rle_dec (c * a) (c * b)), (Rle_dec a b); try reflexivity; nra.
Qed.

Lemma Rmax_scale (c a b : R) : 0 <= c -> Rmax (c * a) (c * b) = c * Rmax a b.
Proof.
  intros Hc. unfold Rmax.
  destruct (Rle_dec (c * a) (c * b)), (Rle_dec a b); try reflexivity; nra.
Qed.

Lemma list_min_scale (c x : R) (rest : list R) :
  0 <= c -> list_min (c * x) (map (Rmult c) rest) = c * list_min x rest.
Proof.
  intros Hc. unfold list_min. revert x.
  induction rest as [| y rest IH]; intros x; simpl; [reflexivity |].
  rewrite Rmin_scale by exact Hc. apply IH.
Qed.

Lemma list_max_scale (c x : R) (rest : list R) :
  0 <= c -> list_max (c * x) (map (Rmult c) rest) = c * list_max x rest.
Proof.
  intros Hc. unfold list_max. revert x.
  induction rest as [| y rest IH]; intros x; simpl; [reflexivity |].
  rewrite Rmax_scale by exact Hc. apply IH.
Qed.

Lemma reward_range_scale (dataset : Dataset) (m : Z) (c lo hi : R) :
  0 <= c ->
  return_reward_range dataset m = inr (lo, hi) ->
  return_reward_range (set_rewards (map (Rmult c) (rewards dataset)) dataset)
      m
    = inr (c * lo, c * hi).
Proof.
  intros Hc. unfold return_reward_range. cbv zeta.
  cbn [set_rewards rewards terminals].
  rewrite episode_loop_scale.
  cbn [scale_episodes lengths ep_len returns]. rewrite length_map.
  destruct (list_sum _ =? _)%nat; [| discriminate].
  destruct (returns (episode_loop m (rewards dataset) (terminals dataset)))
    as [| x rest]; [discriminate |].
  intros [= <- <-]. cbn [map].
  rewrite list_min_scale, list_max_scale by exact Hc. reflexivity.
Qed.

Lemma list_min_le_max (x : R) (rest : list R) :
  list_min x rest <= list_max x rest.
Proof.
  unfold list_min, list_max.
  assert (H : forall a b, a <= b ->
            fold_left Rmin rest a <= fold_left Rmax rest b).
  { induction rest as [| y rest IH]; intros a b Hab; simpl; [exact Hab |].
    apply IH. eapply Rle_trans; [apply Rmin_l |].
    eapply Rle_trans; [exact Hab | apply Rmax_l]. }
  apply H. lra.
Qed.

(** *** Reward normalisation *)

(** X21: For a locomotion task whose best and worst episode returns differ,
    [modify_reward] with a positive scale and no bias rescales the rewards
    so that, in the dataset it leaves, the best and the worst episode
    return differ by exactly [max_episode_steps * reward_scale]; the other
    arrays are untouched. *)
Theorem normalised_returns_span_the_horizon (dataset : Dataset)
    (env_name : string) (max_episode_steps : Z) (reward_scale lo hi : R) :
  existsb (fun s => contains s env_name)
    ["halfcheetah"; "hopper"; "walker2d"]%string = true ->
  return_reward_range dataset max_episode_steps = inr (lo, hi) ->
  lo <> hi ->
  (0 < max_episode_steps)%Z ->
  0 < reward_scale ->
  exists dataset' lo' hi',
    modify_reward dataset env_name max_episode_steps reward_scale 0
      = inr dataset' /\
    return_reward_range dataset' max_episode_steps = inr (lo', hi') /\
    hi' - lo' = IZR max_episode_steps * reward_scale /\
    observations dataset' = observations dataset /\
    actions dataset' = actions dataset /\
    next_observations dataset' = next_observations dataset /\
    terminals dataset' = terminals dataset.
Proof.
  intros Hname Hrange Hne Hsteps Hscale.
  assert (Hlohi : lo < hi).
  { assert (lo <= hi); [| lra].
    revert Hrange. unfold return_reward_range. cbv zeta.
    destruct (list_sum _ =? _)%nat; [| discriminate].
    destruct (returns _) as [| x rest]; [discriminate |].
    intros [= <- <-]. apply list_min_le_max. }
  assert (Hm : 0 < IZR max_episode_steps) by (apply IZR_lt; exact Hsteps).
  set (c := / (hi - lo) * IZR max_episode_steps * reward_scale).
  assert (Hc : 0 < c).
  { unfold c. apply Rmult_lt_0_compat; [| exact Hscale].
    apply Rmult_lt_0_compat; [| exact Hm].
    apply Rinv_0_lt_compat. lra. }
  exists (set_rewards (map (Rmult c) (rewards dataset)) dataset),
    (c * lo), (c * hi).
  split.
  - unfold modify_reward. rewrite Hname, Hrange.
    f_equal. f_equal. rewrite map_map. apply map_ext. intros r.
    unfold c. field. lra.
  - split; [apply reward_range_scale; [lra | exact Hrange] |].
    split; [unfold c; field; lra |].
    repeat split; reflexivity.
Qed.

(** *** State normalisation *)

Lemma sum_affine (mu k : R) (xs : list R) :
  Torch.sum (map (fun x => (x - mu) * k) xs)
    = (Torch.sum xs - INR (length xs) * mu) * k.
Proof.
  unfold Torch.sum. induction xs as [| x xs IH]; [cbn; lra |].
  cbn [map fold_right length]. rewrite IH, S_INR. lra.
Qed.

Lemma sum_times (f : R -> R) (k : R) (xs : list R) :
  Torch.sum (map (fun x => f x * k) xs) = Torch.sum (map f xs) * k.
Proof.
  unfold Torch.sum. induction xs as [| x xs IH]; [cbn; lra |].
  cbn [map fold_right]. rewrite IH. lra.
Qed.

Lemma sum_squares_nonneg (m : R) (xs : list R) :
  0 <= Torch.sum (map (fun x => (x - m) ^ 2) xs).
Proof.
  unfold Torch.sum. induction xs as [| x xs IH]; cbn [map fold_right];
    [lra |].
  pose proof (pow2_ge_0 (x - m)). lra.
Qed.

Lemma np_std_nonneg (xs : list R) : 0 <= np_std xs.
Proof. unfold np_std. apply sqrt_pos. Qed.

(** Standardising one column with its own statistics. *)
Lemma standardised_column (xs : list R) (eps : R) :
  xs <> [] ->
  0 < eps ->
  let mu := Torch.mean xs in
  let s := np_std xs + eps in
  let zs := map (fun x => (x - mu) / s) xs in
  Torch.mean zs = 0 /\ np_std zs = np_std xs / s.
Proof.
  intros Hne Heps mu s zs.
  assert (Hn : 0 < INR (length xs)).
  { apply lt_0_INR. destruct xs; [contradiction | cbn; lia]. }
  assert (Hs : 0 < s) by (pose proof (np_std_nonneg xs); unfold s; lra).
  assert (Hmean : Torch.mean zs = 0).
  { unfold Torch.mean, zs. rewrite length_map.
    unfold Rdiv at 2. rewrite (sum_affine mu (/ s) xs).
    unfold mu, Torch.mean. field. split; lra. }
  split; [exact Hmean |].
  unfold np_std at 1. cbv zeta. rewrite Hmean.
  unfold zs. rewrite map_map.
  replace (map (fun x => ((x - mu) / s - 0) ^ 2) xs)
    with (map (fun x => (x - mu) ^ 2 * / (s ^ 2)) xs)
    by (apply map_ext; intros x; field; lra).
  unfold Torch.mean at 1. rewrite length_map, sum_times.
  replace (Torch.sum (map (fun x => (x - mu) ^ 2) xs) * / s ^ 2
           / INR (length xs))
    with (Torch.mean (map (fun x => (x - mu) ^ 2) xs) * / s ^ 2)
    by (unfold Torch.mean; rewrite length_map; field; split; lra).
  assert (Hv : 0 <= Torch.mean (map (fun x => (x - mu) ^ 2) xs)).
  { unfold Torch.mean. rewrite length_map.
    apply Rmult_le_pos; [apply sum_squares_nonneg |].
    apply Rlt_le, Rinv_0_lt_compat. exact Hn. }
  assert (Hi : 0 <= / s ^ 2).
  { apply Rlt_le, Rinv_0_lt_compat. nra. }
  rewrite sqrt_mult by assumption.
  replace (/ s ^ 2) with ((/ s) ^ 2) by (field; lra).
  rewrite sqrt_pow2 by (apply Rlt_le, Rinv_0_lt_compat; exact Hs).
  unfold np_std, Rdiv. fold mu. reflexivity.
Qed.

Lemma nth_seq_map {A : Type} (f : nat -> A) (n j : nat) (d : A) :
  (j < n)%nat -> nth j (map f (seq 0 n)) d = f j.
Proof.
  intros Hj.
  rewrite (nth_indep _ d (f 0%nat)) by (rewrite length_map, length_seq; lia).
  rewrite map_nth, seq_nth by lia. reflexivity.
Qed.

Lemma nth_map2_in {A B C : Type} (f : A -> B -> C) (xs : list A)
    (ys : list B) (i : nat) (dc : C) (da : A) (db : B) :
  (i < length xs)%nat -> (i < length ys)%nat ->
  nth i (Torch.map2 f xs ys) dc = f (nth i xs da) (nth i ys db).
Proof.
  revert ys i. induction xs as [| x xs IH]; intros [| y ys] [| i] Hx Hy;
    simpl in *; try lia; auto.
  apply IH; lia.
Qed.

Lemma map2_length_min {A B C : Type} (f : A -> B -> C) (xs : list A)
    (ys : list B) :
  length (Torch.map2 f xs ys) = Nat.min (length xs) (length ys).
Proof.
  revert ys. induction xs as [| x xs IH]; intros [| y ys]; simpl; auto.
Qed.

(** X22: After [compute_mean_std] and [normalize_states] with a positive [eps],
    on an array with at least one row and [dim] columns, every column of
    the result has mean 0 and (population) standard deviation
    [sigma / (sigma + eps)], where [sigma] is the column's deviation before;
    that is below 1, and no division by zero occurs since every divisor is
    at least [eps]. *)
Theorem normalised_columns_are_standardised (states : list (list R))
    (eps : R) (dim j : nat) :
  states <> [] ->
  Forall (fun row => length row = dim) states ->
  0 < eps ->
  (j < dim)%nat ->
  let (mean, std) := compute_mean_std states eps in
  let normalised := normalize_states states (array mean) (array std) in
  let sigma := np_std (column j states) in
  eps <= nth j std 0 /\
  Torch.mean (column j normalised) = 0 /\
  np_std (column j normalised) = sigma / (sigma + eps) /\
  np_std (column j normalised) < 1.
Proof.
  intros Hne Hrect Heps Hj. unfold compute_mean_std. cbv zeta.
  assert (Hcols : n_columns states = dim).
  { unfold n_columns. destruct states as [| row rest]; [contradiction |].
    inversion Hrect; subst. reflexivity. }
  assert (Hstd : nth j (map (fun s => s + eps) (std0 states)) 0
                 = np_std (column j states) + eps).
  { unfold std0. rewrite map_map, Hcols.
    apply (nth_seq_map (fun j => np_std (column j states) + eps)). exact Hj. }
  assert (Hmu : nth j (mean0 states) 0 = Torch.mean (column j states)).
  { unfold mean0. rewrite Hcols.
    apply (nth_seq_map (fun j => Torch.mean (column j states))). exact Hj. }
  assert (Hcol : column j
                   (normalize_states states (array (mean0 states))
                      (array (map (fun s => s + eps) (std0 states))))
                 = map (fun x => (x - Torch.mean (column j states))
                                 / (np_std (column j states) + eps))
                     (column j states)).
  { unfold column, normalize_states, broadcast. rewrite !map_map.
    apply map_ext_in. intros row Hrow.
    rewrite Forall_forall in Hrect. specialize (Hrect row Hrow).
    assert (Hlm : length (mean0 states) = dim)
      by (unfold mean0; rewrite length_map, length_seq; exact Hcols).
    assert (Hls : length (map (fun s => s + eps) (std0 states)) = dim)
      by (unfold std0; rewrite !length_map, length_seq; exact Hcols).
    rewrite (nth_map2_in Rdiv _ _ j 0 0 0)
      by (rewrite ?map2_length_min; lia).
    rewrite (nth_map2_in Rminus _ _ j 0 0 0) by lia.
    rewrite Hstd, Hmu. reflexivity. }
  rewrite Hcol, Hstd.
  assert (Hc : column j states <> []).
  { unfold column. destruct states; [contradiction | discriminate]. }
  destruct (standardised_column (column j states) eps Hc Heps) as [H0 H1].
  cbv zeta in H0, H1.
  pose proof (np_std_nonneg (column j states)) as Hsig.
  split; [lra |]. split; [exact H0 |]. split; [exact H1 |].
  rewrite H1.
  apply (Rmult_lt_reg_r (np_std (column j states) + eps)); [lra |].
  unfold Rdiv. rewrite Rmult_assoc, Rinv_l by lra. lra.
Qed.

(** X23: With normalisation off the script passes the numbers 0 and 1, and
    [normalize_states] returns the states as they are. *)
Theorem normalisation_off_is_identity (states : list (list R)) :
  normalize_states states (scalar 0) (scalar 1) = states.
Proof.
  unfold normalize_states, broadcast.
  rewrite <- (map_id states) at 2. apply map_ext. intros row.
  rewrite map_map. rewrite <- (map_id row) at 2.
  apply map_ext. intros x. field.
Qed.

End DataMore.

(** ** Splitting a dataset: properties *)

Module SplitMore.

Import Buffer Data.

Lemma append_to_last_snoc {A : Type} (x : A) (l : list (list A))
    (t : list A) :
  append_to_last x (l ++ [t]) = l ++ [t ++ [x]].
Proof.
  induction l as [| a l IH]; [reflexivity |].
  cbn [app append_to_last]. rewrite IH.
  destruct l; reflexivity.
Qed.

Lemma firstn_of_seq (k a m : nat) :
  firstn k (seq a m) = seq a (Nat.min k m).
Proof.
  revert a m. induction k as [| k IH]; intros a [| m]; try reflexivity.
  cbn [seq firstn Nat.min]. rewrite IH. reflexivity.
Qed.

Lemma slice_seq (lo hi m : nat) :
  slice lo hi (seq 0 m) = seq lo (Nat.min hi m - lo).
Proof.
  unfold slice. rewrite skipn_seq, firstn_of_seq. cbn [Nat.add].
  f_equal. lia.
Qed.

Lemma concat_singletons {A B : Type} (f : A -> B) (l : list A) :
  concat (map (fun x => [f x]) l) = map f l.
Proof. induction l as [| x l IH]; simpl; [| rewrite IH]; reflexivity. Qed.

Lemma no_empty_singleton {A B : Type} (f : A -> B) (l : list A) :
  existsb is_empty (map (fun x => [f x]) l) = false.
Proof. induction l as [| x l IH]; simpl; auto. Qed.

Lemma collect_map {A B : Type} (c : A -> bool) (g : A -> B) (e : exn)
    (f : A -> exn + B) (l : list A) :
  (forall x, In x l -> f x = if c x then inl e else inr (g x)) ->
  collect (map f l) = if existsb c l then inl e else inr (map g l).
Proof.
  induction l as [| x l IH]; intros H; [reflexivity |].
  cbn [map collect existsb].
  rewrite (H x (or_introl eq_refl)).
  destruct (c x); [reflexivity |].
  rewrite IH by (intros y Hy; apply H; right; exact Hy).
  cbn [orb]. destruct (existsb c l); reflexivity.
Qed.

Section Split.

Variable float32 : R -> R.

Lemma read_transition_at (dataset : Dataset) (i : nat) :
  readable dataset ->
  i + 1 < length (rewards dataset) ->
  read_transition float32 dataset i
    = inr (transition_at float32 dataset i).
Proof.
  intros (Ho & Ha & Ht) Hi. unfold read_transition, transition_at.
  rewrite (nth_error_nth' (observations dataset) [] (n := i)) by lia.
  rewrite (nth_error_nth' (observations dataset) [] (n := i + 1)) by lia.
  rewrite (nth_error_nth' (actions dataset) [] (n := i)) by lia.
  rewrite (nth_error_nth' (rewards dataset) 0%R (n := i)) by lia.
  rewrite (nth_error_nth' (terminals dataset) 0%R (n := i)) by lia.
  reflexivity.
Qed.

(** Without [terminate_on_end] every transition becomes a trajectory of
    its own. *)
Lemma split_loop_default (dataset : Dataset) (k a : nat)
    (closed : list (list transition)) :
  readable dataset ->
  a + k = length (rewards dataset) - 1 ->
  1 <= k ->
  split_loop float32 dataset (length (rewards dataset)) false (seq a k)
      (closed ++ [[]])
    = inr (closed
             ++ map (fun i => [transition_at float32 dataset i]) (seq a k)).
Proof.
  intros Hr. revert a closed.
  induction k as [| k IH]; intros a closed Hak Hk; [lia |].
  cbn [seq split_loop map].
  rewrite read_transition_at by (try exact Hr; lia).
  cbv zeta. rewrite append_to_last_snoc. cbn [app negb andb].
  destruct (a =? length (rewards dataset) - 2) eqn:E.
  - apply Nat.eqb_eq in E. assert (k = 0) by lia. subst k.
    reflexivity.
  - apply Nat.eqb_neq in E. cbn [negb].
    rewrite (IH (S a) (closed ++ [[transition_at float32 dataset a]]))
      by lia.
    rewrite <- app_assoc. reflexivity.
Qed.

(** With [terminate_on_end] no trajectory is ever closed. *)
Lemma split_loop_single (dataset : Dataset) (k a : nat)
    (open : list transition) :
  readable dataset ->
  a + k = length (rewards dataset) - 1 ->
  split_loop float32 dataset (length (rewards dataset)) true (seq a k)
      [open]
    = inr [open ++ map (transition_at float32 dataset) (seq a k)].
Proof.
  intros Hr. revert a open.
  induction k as [| k IH]; intros a open Hak.
  - cbn. rewrite app_nil_r. reflexivity.
  - cbn [seq split_loop map].
    rewrite read_transition_at by (try exact Hr; lia).
    cbv zeta. cbn [negb andb append_to_last].
    rewrite IH by lia. rewrite <- app_assoc. reflexivity.
Qed.

Lemma dict_of_singletons (dataset : Dataset) (ks : list nat) :
  dataset_dict (map (fun k => [transition_at float32 dataset k]) ks)
    = if is_empty ks
      then inl (ValueError "need at least one array to concatenate")
      else inr (transitions_dict float32 dataset ks).
Proof.
  destruct ks as [| k ks]; [reflexivity |].
  unfold dataset_dict.
  rewrite (no_empty_singleton (transition_at float32 dataset) (k :: ks)).
  cbn [andb is_empty].
  rewrite (concat_singletons (transition_at float32 dataset) (k :: ks)).
  unfold transitions_dict. rewrite !map_map. reflexivity.
Qed.

Lemma select_singletons (dataset : Dataset) (m lo len : nat) :
  len = 0 \/ lo + len <= m ->
  map (fun j =>
         nth j (map (fun i => [transition_at float32 dataset i]) (seq 0 m))
           [])
      (seq lo len)
    = map (fun k => [transition_at float32 dataset k]) (seq lo len).
Proof.
  intros H. apply map_ext_in. intros j Hj. apply in_seq in Hj.
  rewrite (nth_indep _ [] [transition_at float32 dataset 0])
    by (rewrite length_map, length_seq; lia).
  rewrite (map_nth (fun i => [transition_at float32 dataset i])).
  rewrite seq_nth by lia. reflexivity.
Qed.

(** The general form of the default mode: split [i] holds the transitions
    from [i * size] up to [(i + 1) * size], cut at the last but one row,
    and the call raises when one of these ranges is empty. *)
Lemma split_default_general (dataset : Dataset) (size num_dataset : nat) :
  let n := length (rewards dataset) in
  let chunk i :=
    seq (i * size) (Nat.min ((i + 1) * size) (n - 1) - i * size) in
  readable dataset ->
  2 <= n ->
  dataset_split_diy float32 dataset size num_dataset false
    = if existsb (fun i => is_empty (chunk i)) (seq 0 num_dataset)
      then inl (ValueError "need at least one array to concatenate")
      else inr (map (fun i => transitions_dict float32 dataset (chunk i))
                  (seq 0 num_dataset)).
Proof.
  intros n chunk Hr Hn. unfold dataset_split_diy. cbv zeta. fold n.
  pose proof (split_loop_default dataset (n - 1) 0 [] Hr) as Hloop.
  cbn [app] in Hloop. fold n in Hloop.
  rewrite Hloop by lia.
  rewrite length_map, length_seq, !map_map.
  apply collect_map. intros i _.
  rewrite slice_seq. fold (chunk i).
  unfold chunk at 1.
  rewrite select_singletons by lia.
  fold (chunk i). apply dict_of_singletons.
Qed.

(** X24: Without [terminate_on_end], on a dataset of [n >= 2] rows, when even
    the last requested split starts before row [n - 1]: the call returns
    [num_dataset] dictionaries, and dictionary [i] holds the transitions
    [i * size, ..., min((i + 1) * size, n - 1) - 1] in order, each with
    the observation of the following row as its next observation.  The
    dataset's own next observations are not read, and row [n - 1] gives no
    transition. *)
Theorem split_into_consecutive_blocks (dataset : Dataset)
    (size num_dataset : nat) :
  let n := length (rewards dataset) in
  readable dataset ->
  2 <= n ->
  0 < size ->
  (num_dataset - 1) * size < n - 1 ->
  dataset_split_diy float32 dataset size num_dataset false
    = inr (map (fun i =>
                  transitions_dict float32 dataset
                    (seq (i * size)
                       (Nat.min ((i + 1) * size) (n - 1) - i * size)))
             (seq 0 num_dataset)).
Proof.
  intros n Hr Hn Hsize Hfit.
  rewrite (split_default_general dataset size num_dataset Hr Hn). fold n.
  replace (existsb _ (seq 0 num_dataset)) with false; [reflexivity |].
  symmetry. apply Bool.not_true_is_false. intros Hex.
  apply existsb_exists in Hex. destruct Hex as (i & Hi & Hempty).
  apply in_seq in Hi.
  assert (Hlo : i * size < n - 1) by nia.
  destruct (Nat.min ((i + 1) * size) (n - 1) - i * size) eqn:E;
    [nia | discriminate].
Qed.

(** X25: Asking for more splits than the rows fill raises: when split
    [num_dataset - 1] would start at or after row [n - 1], the call fails
    with the [ValueError] of [np.concatenate] on an empty list. *)
Theorem split_beyond_the_data_raises (dataset : Dataset)
    (size num_dataset : nat) :
  let n := length (rewards dataset) in
  readable dataset ->
  2 <= n ->
  0 < num_dataset ->
  n - 1 <= (num_dataset - 1) * size \/ size = 0 ->
  dataset_split_diy float32 dataset size num_dataset false
    = inl (ValueError "need at least one array to concatenate").
Proof.
  intros n Hr Hn Hnum Hover.
  rewrite (split_default_general dataset size num_dataset Hr Hn). fold n.
  replace (existsb _ (seq 0 num_dataset)) with true; [reflexivity |].
  symmetry. apply existsb_exists. exists (num_dataset - 1). split.
  - apply in_seq. lia.
  - replace (Nat.min ((num_dataset - 1 + 1) * size) (n - 1)
             - (num_dataset - 1) * size) with 0; [reflexivity |].
    destruct Hover as [Hover | ->]; lia.
Qed.

(** X26: With [terminate_on_end] all transitions stay in one trajectory, so
    [size] no longer counts transitions: a single requested split with a
    positive [size] receives every transition of the dataset, and a
    second split cannot be served. *)
Theorem split_with_terminate_on_end (dataset : Dataset)
    (size num_dataset : nat) :
  let n := length (rewards dataset) in
  readable dataset ->
  0 < size ->
  (num_dataset = 1 ->
   dataset_split_diy float32 dataset size num_dataset true
     = inr [transitions_dict float32 dataset (seq 0 (n - 1))]) /\
  (2 <= num_dataset ->
   dataset_split_diy float32 dataset size num_dataset true
     = inl (ValueError "need at least one array to concatenate")).
Proof.
  intros n Hr Hsize.
  assert (Hrun : forall num,
            dataset_split_diy float32 dataset size num true
              = collect
                  (map (fun i =>
                          dataset_dict
                            (map (fun j =>
                                    nth j
                                      [map (transition_at float32 dataset)
                                         (seq 0 (n - 1))] [])
                               (seq (i * size)
                                  (Nat.min ((i + 1) * size) 1 - i * size))))
                     (seq 0 num))).
  { intros num. unfold dataset_split_diy. cbv zeta. fold n.
    pose proof (split_loop_single dataset (n - 1) 0 [] Hr) as Hloop.
    cbn [app] in Hloop. fold n in Hloop.
    rewrite Hloop by lia.
    cbn [length]. rewrite !map_map.
    f_equal. apply map_ext. intros i.
    rewrite (slice_seq (i * size) ((i + 1) * size) 1). reflexivity. }
  assert (Hfirst : dataset_dict
                     (map (fun j =>
                             nth j
                               [map (transition_at float32 dataset)
                                  (seq 0 (n - 1))] [])
                        (seq (0 * size)
                           (Nat.min ((0 + 1) * size) 1 - 0 * size)))
                   = inr (transitions_dict float32 dataset
                            (seq 0 (n - 1)))).
  { replace (Nat.min ((0 + 1) * size) 1 - 0 * size) with 1 by lia.
    cbn [Nat.mul seq map nth]. unfold dataset_dict.
    assert (Hmix : existsb is_empty
                     [map (transition_at float32 dataset) (seq 0 (n - 1))]
                   && existsb (fun t => negb (is_empty t))
                        [map (transition_at float32 dataset)
                           (seq 0 (n - 1))] = false).
    { cbn [existsb]. destruct (map _ (seq 0 (n - 1))); reflexivity. }
    rewrite Hmix. cbn [concat]. rewrite app_nil_r.
    unfold transitions_dict. rewrite !map_map. reflexivity. }
  split.
  - intros ->. rewrite Hrun. cbn [seq map collect].
    rewrite Hfirst. reflexivity.
  - intros Hnum. rewrite Hrun.
    destruct num_dataset as [| [| num]]; try lia.
    cbn [seq map collect]. rewrite Hfirst.
    replace (Nat.min ((1 + 1) * size) 1 - 1 * size) with 0 by lia.
    reflexivity.
Qed.

End Split.

End SplitMore.

(** ** The trainer: further properties *)

Module CQLMore.

Import Torch TorchFacts NetFacts CQL CQLFacts More.
Local Open Scope R_scope.

(** *** Target synchronisation as a moving average *)

Lemma same_shape_refl (p : Parameters) : same_shape p p.
Proof. induction p; constructor; auto. Qed.

Lemma same_shape_sym (p q : Parameters) : same_shape p q -> same_shape q p.
Proof. induction 1; constructor; auto. Qed.

Lemma same_shape_trans (p q r : Parameters) :
  same_shape p q -> same_shape q r -> same_shape p r.
Proof.
  intros H. revert r. induction H as [| a b p q Hab _ IH]; intros r Hr;
    inversion Hr; subst; constructor.
  - congruence.
  - apply IH. assumption.
Qed.

Lemma map2_pointwise {A B : Type} (f : A -> B -> A) (xs : list A)
    (ys : list B) :
  length xs = length ys ->
  (forall x y, f x y = x) ->
  map2 f xs ys = xs.
Proof.
  revert ys. induction xs as [| x xs IH]; intros [| y ys] Hlen Hf;
    simpl in *; try discriminate; auto.
  rewrite Hf, IH; auto.
Qed.

Lemma map2_pointwise_r {A B : Type} (f : A -> B -> B) (xs : list A)
    (ys : list B) :
  length xs = length ys ->
  (forall x y, f x y = y) ->
  map2 f xs ys = ys.
Proof.
  revert ys. induction xs as [| x xs IH]; intros [| y ys] Hlen Hf;
    simpl in *; try discriminate; auto.
  rewrite Hf, IH; auto.
Qed.


(** X1: With rate 0 a synchronisation leaves the target as it is, and with
    rate 1 it copies the source. *)
Theorem soft_update_endpoints (target source : Parameters) :
  same_shape target source ->
  soft_update_parameters 0 target source = target /\
  soft_update_parameters 1 target source = source.
Proof.
  induction 1 as [| t s target' source' Hts _ [IH0 IH1]]; simpl.
  - split; reflexivity.
  - rewrite IH0, IH1. split; f_equal.
    + apply map2_pointwise; [exact Hts |].
      intros x y. unfold lerp. lra.
    + apply map2_pointwise_r; [exact Hts |].
      intros x y. unfold lerp. lra.
Qed.



Lemma sync_times_shape (k : nat) (tau : R) (target source : Parameters) :
  same_shape target source ->
  same_shape (sync_times k tau target source) source.
Proof.
  intros Hs. induction k as [| k IH]; simpl; [exact Hs |].
  eapply same_shape_trans.
  - apply soft_update_parameters_shape. exact IH.
  - exact IH.
Qed.

(** X3: Each synchronisation shrinks the gap between a target entry and the
    source entry by the factor [1 - tau]: after [k] of them against a
    fixed source the gap is [(1 - tau)^k] times the initial one. *)
Theorem sync_gap_contracts (k : nat) (tau : R) (target source : Parameters)
    (i j : nat) :
  same_shape target source ->
  (i < length target)%nat ->
  (j < length (nth i target []))%nat ->
  nth j (nth i (sync_times k tau target source) []) 0
    - nth j (nth i source []) 0
    = (1 - tau) ^ k
      * (nth j (nth i target []) 0 - nth j (nth i source []) 0).
Proof.
  intros Hs Hi Hj. induction k as [| k IH]; simpl.
  - lra.
  - pose proof (sync_times_shape k tau target source Hs) as Hk.
    rewrite soft_update_parameters_at.
    + replace ((1 - tau) * nth j (nth i (sync_times k tau target source) []) 0
               + tau * nth j (nth i source []) 0
               - nth j (nth i source []) 0)
        with ((1 - tau)
              * (nth j (nth i (sync_times k tau target source) []) 0
                 - nth j (nth i source []) 0)) by lra.
      rewrite IH. lra.
    + exact Hk.
    + rewrite (same_shape_length _ _ Hk), <- (same_shape_length _ _ Hs).
      exact Hi.
    + rewrite (same_shape_at _ _ i Hk), <- (same_shape_at _ _ i Hs).
      exact Hj.
Qed.

(** *** Sums and means *)

Lemma sum_scale (a : R) (xs : list R) :
  sum (map (Rmult a) xs) = a * sum xs.
Proof. unfold sum. induction xs as [| x xs IH]; cbn; [| rewrite IH]; lra. Qed.

Lemma sum_shift (c : R) (xs : list R) :
  sum (map (fun x => x + c) xs) = sum xs + INR (length xs) * c.
Proof.
  unfold sum. induction xs as [| x xs IH]; [cbn; lra |].
  cbn [map fold_right length]. rewrite IH, S_INR. lra.
Qed.




Section Networks.

Variable apply_net : Parameters -> list R -> list R.

(** *** The temperature *)

(** X4: With automatic tuning, on a batch that is not empty:
    [alpha = exp(log_alpha) * alpha_multiplier], the loss is
    [- exp(log_alpha) * (mean(log_pi) + target_entropy)], and the loss's
    graph reaches the temperature only, whatever the graph of [log_pi]. *)
Theorem alpha_loss_closed_form (s : ContinuousCQL) (la : Scalar.t)
    (log_pi : tensor (list R)) :
  use_automatic_entropy_tuning (hyper s) = true ->
  log_alpha s = Some la ->
  data log_pi <> [] ->
  exists alpha alpha_loss,
    _alpha_and_alpha_loss s log_pi = inr (alpha, alpha_loss) /\
    data alpha = exp (Scalar.constant la) * alpha_multiplier (hyper s) /\
    data alpha_loss
      = - (exp (Scalar.constant la)
           * (mean (data log_pi) + target_entropy (hyper s))) /\
    leaves alpha_loss = [LogAlpha] /\
    leaves alpha = [LogAlpha].
Proof.
  intros Hauto Hla Hne. unfold _alpha_and_alpha_loss.
  rewrite Hauto, Hla. eexists. eexists. split; [reflexivity |].
  cbn [lift1 lift2 tmean scale detach data leaves Scalar.forward app].
  repeat split.
  f_equal. unfold mean. rewrite length_map, length_map.
  rewrite sum_scale, sum_shift.
  assert (Hn : INR (length (data log_pi)) <> 0).
  { apply not_0_INR. destruct (data log_pi); [congruence | discriminate]. }
  field. exact Hn.
Qed.

(** X5: Right after construction the temperature is [alpha_multiplier], with
    or without automatic tuning. *)
Theorem alpha_at_construction (h : Hyperparameters)
    (critic_1 critic_2 : QFunction.t Parameters)
    (actor : Policy.t Parameters) (log_pi : tensor (list R)) :
  exists alpha alpha_loss,
    _alpha_and_alpha_loss (__init__ h critic_1 critic_2 actor) log_pi
      = inr (alpha, alpha_loss) /\
    data alpha = alpha_multiplier h.
Proof.
  unfold _alpha_and_alpha_loss, __init__. cbn [hyper log_alpha].
  destruct (use_automatic_entropy_tuning h).
  - eexists. eexists. split; [reflexivity |].
    cbn [lift1 data Scalar.forward Scalar.constant].
    rewrite exp_0. lra.
  - eexists. eexists. split; reflexivity.
Qed.

(** *** The conservative penalty is not negative *)




(** *** The TD target at terminal transitions *)

Lemma target_backup_total (s : ContinuousCQL) (next_observations : mat)
    (d : Draws) :
  (cql_max_target_backup (hyper s) = true ->
   (0 < cql_n_actions (hyper s))%nat) ->
  exists tqv nlp,
    target_backup apply_net s next_observations d = inr (tqv, nlp) /\
    length (data tqv) = length next_observations /\
    length (data nlp) = length next_observations.
Proof.
  intros Hn. destruct (cql_max_target_backup (hyper s)) eqn:Hmax.
  - destruct (target_backup_max apply_net s next_observations d Hmax
                (Hn eq_refl)) as (tqv & nlp & H1 & H2 & H3 & _).
    exists tqv, nlp. auto.
  - destruct (target_backup_plain apply_net s next_observations d Hmax)
      as (tqv & nlp & H1 & H2 & H3 & _).
    exists tqv, nlp. auto.
Qed.

(** X7: On a row whose [done] flag is 1, or with a discount of 0, the TD
    target is the reward itself: nothing of the target critics, the policy
    or the temperature enters it. *)
Theorem td_target_at_terminal (s : ContinuousCQL) (next_observations : mat)
    (r_col d_col : list R) (alpha : tensor R) (d : Draws) (i : nat) :
  length r_col = length next_observations ->
  length d_col = length next_observations ->
  (cql_max_target_backup (hyper s) = true ->
   (0 < cql_n_actions (hyper s))%nat) ->
  (i < length next_observations)%nat ->
  nth i d_col 0 = 1 \/ discount (hyper s) = 0 ->
  exists tq y,
    td_target apply_net s next_observations (unsqueeze r_col)
        (unsqueeze d_col) alpha d = inr (tq, y) /\
    nth i (data y) 0 = nth i r_col 0.
Proof.
  intros Hlr Hld Hn Hi Hterm.
  destruct (target_backup_total s next_observations d Hn)
    as (tqv & nlp & Hb & Hlt & Hll).
  destruct (td_target_from_backup apply_net s next_observations r_col d_col
              alpha d tqv nlp Hb Hlt Hll Hlr Hld)
    as (tq & y & Htd & _ & _ & Hy).
  exists tq, y. split; [exact Htd |].
  rewrite (Hy i Hi).
  destruct Hterm as [-> | ->]; ring.
Qed.

(** *** What the critic loss writes *)

(** X8: Computing the critic loss changes no network: the trainer afterwards
    is the trainer before with, at most, another Lagrange multiplier.  With
    the Lagrange mode off, or when the computation raises, the trainer and
    the recorded calls are exactly as before. *)
Theorem q_loss_writes_only_the_multiplier
    (observations actions next_observations rewards dones : mat)
    (alpha : tensor R) (log : log_dict) (d : Draws) (o : OptimizerSteps)
    (w : World) :
  let r := _q_loss apply_net observations actions next_observations rewards
             dones alpha log d o w in
  (exists lap, self (snd r) = set_log_alpha_prime lap (self w)) /\
  (cql_lagrange (hyper (self w)) = false -> snd r = w) /\
  (forall e, fst r = inl e -> snd r = w).
Proof.
  cbv zeta. unfold _q_loss. rewrite bind_get. cbv zeta.
  destruct (td_target apply_net (self w) next_observations rewards dones
              alpha d) as [e | [tq y]].
  - cbn [lift]. rewrite bind_raise. unfold raise. cbn [fst snd].
    split; [| split; [reflexivity | reflexivity]].
    exists (log_alpha_prime (self w)). destruct w as [[] ?]. reflexivity.
  - cbn [lift fst snd]. rewrite bind_ret.
    destruct (cql_lagrange (hyper (self w))).
    + run_world. cbn [fst snd self].
      split; [eexists; reflexivity |].
      split; [discriminate | discriminate].
    + run_world. cbn [fst snd].
      split; [| split; [destruct w; reflexivity | discriminate]].
      exists (log_alpha_prime (self w)). destruct w as [[] ?]. reflexivity.
Qed.

(** *** A zero synchronisation period *)

Lemma apply_updates_zero_period (alpha_loss policy_loss qf_loss : tensor R)
    (o : OptimizerSteps) (s : ContinuousCQL) (cs : list call) :
  let h := hyper s in
  let s_alpha :=
    if use_automatic_entropy_tuning h then
      set_log_alpha
        (option_map (fun _ => Scalar.mk (stepped_log_alpha o)) (log_alpha s))
        s
    else s in
  let s_actor := set_actor (write_actor o (actor s_alpha)) s_alpha in
  let s_c1 :=
    set_critic_1 (write_critic (stepped_critic_1 o) (critic_1 s_actor))
      s_actor in
  let s_c2 :=
    set_critic_2 (write_critic (stepped_critic_2 o) (critic_2 s_c1)) s_c1 in
  target_update_period h = 0%Z ->
  apply_updates alpha_loss policy_loss qf_loss o (mkWorld s cs)
    = (inl ZeroDivisionError,
       mkWorld s_c2
         (cs
            ++ (if use_automatic_entropy_tuning h then
                  [zero_grad alpha_optimizer;
                   backward alpha_loss false;
                   step alpha_optimizer]
                else [])
            ++ [zero_grad actor_optimizer;
                backward policy_loss false;
                step actor_optimizer;
                zero_grad critic_1_optimizer;
                zero_grad critic_2_optimizer;
                backward qf_loss true;
                step critic_1_optimizer;
                step critic_2_optimizer])).
Proof.
  cbv zeta. intros Hp.
  unfold apply_updates.
  destruct (use_automatic_entropy_tuning (hyper s)) eqn:Eu;
    run_world; rewrite Eu; run_world; rewrite Hp; run_world;
    cbn [Z.eqb]; rewrite <- !app_assoc; reflexivity.
Qed.

Lemma bind_fail {S A B : Type} (m : M S A) (k : A -> M S B) (s s' : S)
    (e : exn) :
  m s = (inl e, s') -> bind m k s = (inl e, s').
Proof. intros H. unfold bind. rewrite H. reflexivity. Qed.

(** X9: With [target_update_period = 0] a training step raises
    [ZeroDivisionError], and it does so late: the iteration counter has
    been incremented and every optimizer has stepped by then.  The target
    critics are the ones the step started with. *)
Theorem train_ori_zero_period
    (observations actions rewards next_observations dones : mat)
    (d : Draws) (o : OptimizerSteps) (w : World) :
  let s1 := set_total_it (total_it (self w) + 1) (self w) in
  let h := hyper (self w) in
  (use_automatic_entropy_tuning h = true -> log_alpha (self w) <> None) ->
  (cql_max_target_backup h = true -> (0 < cql_n_actions h)%nat) ->
  target_update_period h = 0%Z ->
  exists alpha_prime_loss alpha_loss policy_loss qf_loss,
    train_ori apply_net
        [observations; actions; rewards; next_observations; dones] d o w
      = (inl ZeroDivisionError,
         mkWorld (after_steps o s1)
           (calls w
              ++ training_calls h alpha_prime_loss alpha_loss policy_loss
                   qf_loss)) /\
    target_critic_1 (after_steps o s1) = target_critic_1 (self w) /\
    target_critic_2 (after_steps o s1) = target_critic_2 (self w) /\
    total_it (after_steps o s1) = (total_it (self w) + 1)%Z.
Proof.
  cbv zeta. intros Hla Hn Hp.
  set (s1 := set_total_it (total_it (self w) + 1) (self w)).
  set (h := hyper (self w)) in *.
  unfold train_ori, update. rewrite bind_modify, bind_get.
  cbn [self calls]. fold s1.
  destruct (Policy.forward apply_net Actor (actor s1) observations false
              (new_actions_eps d)) as [new_actions log_pi] eqn:Epi.
  destruct (alpha_total s1 log_pi Hla) as (alpha & alpha_loss & Ha).
  rewrite Ha. cbn [lift fst snd]. rewrite bind_ret.
  destruct (td_target_total apply_net s1 next_observations rewards dones
              alpha d Hn) as (tq & y & Htd).
  set (policy_loss :=
         _policy_loss_ori apply_net s1 observations (constant actions)
           new_actions alpha log_pi (log_prob_eps d)).
  set (log0 := [("log_pi"%string, mean (data log_pi));
                ("policy_loss"%string, data policy_loss);
                ("alpha_loss"%string, data alpha_loss);
                ("alpha"%string, data alpha)]).
  destruct (q_loss_run apply_net observations actions next_observations
              rewards dones alpha log0 d o (mkWorld s1 (calls w)) tq y Htd)
    as (qf_loss & alpha_prime & alpha_prime_loss & log & t1 & t2 & Hq & _).
  rewrite (bind_run _ _ _ _ _ Hq).
  exists alpha_prime_loss, alpha_loss, policy_loss, qf_loss.
  clear Hq. cbn [self calls].
  change (hyper s1) with h.
  split.
  - unfold after_steps, training_calls.
    change (hyper s1) with h.
    destruct (cql_lagrange h) eqn:El.
    + rewrite (bind_fail _ _ _ _ _
                 (apply_updates_zero_period alpha_loss policy_loss qf_loss o
                    (set_log_alpha_prime
                       (Scalar.mk (stepped_log_alpha_prime o)) s1)
                    _ Hp)).
      rewrite <- !app_assoc. reflexivity.
    + rewrite (bind_fail _ _ _ _ _
                 (apply_updates_zero_period alpha_loss policy_loss qf_loss o
                    s1 _ Hp)).
      reflexivity.
  - unfold after_steps. change (hyper s1) with h.
    destruct (cql_lagrange h); cbn [hyper set_log_alpha_prime];
      change (hyper s1) with h;
      destruct (use_automatic_entropy_tuning h);
      repeat split; reflexivity.
Qed.

(** *** Behaviour cloning inside a training step *)

Lemma alpha_leaves (s : ContinuousCQL) (log_pi : tensor (list R))
    (alpha alpha_loss : tensor R) :
  _alpha_and_alpha_loss s log_pi = inr (alpha, alpha_loss) ->
  forall l, In l (leaves alpha) -> l = LogAlpha.
Proof.
  unfold _alpha_and_alpha_loss.
  destruct (use_automatic_entropy_tuning (hyper s)).
  - destruct (log_alpha s) as [la |]; [| discriminate].
    intros [= <- _] l Hl. cbn in Hl. destruct Hl as [<- | []]. reflexivity.
  - intros [= <- _] l Hl. destruct Hl.
Qed.

(** X27: [train_ori] increments the counter before it chooses the policy
    loss, so a step that starts at counter [t] is a behaviour-cloning step
    exactly when [t + 1 <= bc_steps].  On such a step the loss handed to
    the actor's [backward] reaches no critic; on every later step it
    reaches both. *)
Theorem bc_steps_send_no_gradient_to_critics
    (observations actions rewards next_observations dones : mat)
    (d : Draws) (o : OptimizerSteps) (w : World) :
  let h := hyper (self w) in
  (use_automatic_entropy_tuning h = true -> log_alpha (self w) <> None) ->
  (cql_max_target_backup h = true -> (0 < cql_n_actions h)%nat) ->
  target_update_period h <> 0%Z ->
  exists log w' alpha_prime_loss alpha_loss policy_loss qf_loss,
    train_ori apply_net
        [observations; actions; rewards; next_observations; dones] d o w
      = (inr log, w') /\
    calls w'
      = calls w
          ++ training_calls h alpha_prime_loss alpha_loss policy_loss
               qf_loss /\
    ((total_it (self w) + 1 <= bc_steps h)%Z ->
     ~ In Critic1 (leaves policy_loss) /\
     ~ In Critic2 (leaves policy_loss)) /\
    ((bc_steps h < total_it (self w) + 1)%Z ->
     In Critic1 (leaves policy_loss) /\ In Critic2 (leaves policy_loss)).
Proof.
  cbv zeta. intros Hla Hn Hp.
  destruct (train_ori_run apply_net observations actions rewards
              next_observations dones d o w Hla Hn Hp)
    as (log & log0 & alpha & alpha_loss & policy_loss & qf_loss
        & alpha_prime & alpha_prime_loss & w2 & Ha & Hpl & _ & Hrun).
  cbv zeta in Ha, Hpl.
  exists log. eexists. exists alpha_prime_loss, alpha_loss, policy_loss,
    qf_loss.
  split; [exact Hrun |]. split; [reflexivity |].
  set (s1 := set_total_it (total_it (self w) + 1) (self w)) in *.
  pose proof (alpha_leaves s1 _ alpha alpha_loss Ha) as Hal.
  split.
  - intros Hbc.
    assert (Hbc1 : (total_it s1 <= bc_steps (hyper s1))%Z) by exact Hbc.
    pose proof (policy_loss_ori_bc apply_net s1 observations
                  (constant actions)
                  (fst (Policy.forward apply_net Actor (actor s1)
                          observations false (new_actions_eps d)))
                  alpha
                  (snd (Policy.forward apply_net Actor (actor s1)
                          observations false (new_actions_eps d)))
                  (log_prob_eps d) Hbc1) as Hloss.
    rewrite <- Hpl in Hloss.
    assert (Hleaves : forall l, In l (leaves policy_loss) ->
              l = LogAlpha \/ l = Actor).
    { rewrite Hloss.
      cbn [tmean vsub scale lift1 lift2 leaves data Policy.log_prob
           Policy.forward snd].
      intros l Hl. repeat (apply in_app_or in Hl; destruct Hl as [Hl | Hl]).
      - left. apply Hal. exact Hl.
      - right. destruct Hl as [<- | []]. reflexivity.
      - right. destruct Hl as [<- | []]. reflexivity. }
    split; intros Hin; destruct (Hleaves _ Hin); discriminate.
  - intros Hq.
    assert (Hq1 : (bc_steps (hyper s1) < total_it s1)%Z) by exact Hq.
    destruct (policy_loss_ori_q_reaches_critics apply_net s1 observations
                (constant actions)
                (fst (Policy.forward apply_net Actor (actor s1)
                        observations false (new_actions_eps d)))
                alpha
                (snd (Policy.forward apply_net Actor (actor s1)
                        observations false (new_actions_eps d)))
                (log_prob_eps d) Hq1) as (H1 & H2 & _).
    cbv zeta in H1, H2. rewrite <- Hpl in H1, H2. split; assumption.
Qed.

End Networks.

End CQLMore.

(** ** Concrete runs *)

Module BufferRuns.

Import Buffer BufferFacts BufferExample.

(** C6, as stated, fails: a load of a dataset with no transition succeeds
    and leaves the size at zero, so the load that follows immediately
    succeeds as well and overwrites slot 0. *)
Lemma second_load_after_empty_load_succeeds :
  exists b1 b2,
    load_d4rl_dataset exact empty_dataset (init 2 1 1) = (inr tt, b1) /\
    load_d4rl_dataset exact one_transition b1 = (inr tt, b2) /\
    _size b1 = 0 /\ _size b2 = 1 /\
    _states b1 = [[0; 0]]%R /\ _states b2 = [[1; 2]]%R.
Proof.
  do 2 eexists.
  split; [vm_compute; reflexivity |].
  split; [vm_compute; reflexivity |].
  repeat split.
Qed.

Lemma load_guards_witness :
  load_d4rl_dataset exact empty_dataset (loaded exact 2 1 1 one_transition)
    = (inl (ValueError "Trying to load data into non-empty replay buffer"),
       loaded exact 2 1 1 one_transition) /\
  load_d4rl_dataset exact one_transition (init 2 1 0)
    = (inl (ValueError
         "Replay buffer is smaller than the dataset you are trying to load!"),
       init 2 1 0) /\
  load_d4rl_dataset exact one_transition (loaded exact 2 1 1 one_transition)
    = (inl (ValueError "Trying to load data into non-empty replay buffer"),
       loaded exact 2 1 1 one_transition).
Proof.
  split; [| split].
  - apply (proj1 (load_guards exact (loaded exact 2 1 1 one_transition)
                    empty_dataset)).
    cbn. discriminate.
  - apply (proj1 (proj2 (load_guards exact (init 2 1 0) one_transition))).
    + reflexivity.
    + cbn. lia.
  - apply (proj2 (proj2 (load_guards exact (init 2 1 1) one_transition))).
    + cbn. lia.
    + vm_compute. reflexivity.
Defined.

Lemma sample_returns_loaded_rows_witness :
  exists indices states actions rewards next_states dones g',
    sample 1 (mkWorld (loaded exact 2 1 1 one_transition) zero_words)
      = (inr [states; actions; rewards; next_states; dones],
         mkWorld (loaded exact 2 1 1 one_transition) g') /\
    length indices = 1 /\
    length states = 1 /\ length actions = 1 /\ length rewards = 1 /\
    length next_states = 1 /\ length dones = 1 /\
    Forall (fun i => i < Nat.min 1 1) indices /\
    Forall (fun i => i < 1) indices /\
    states = map (fun i => map exact (nth i [[1; 2]]%R [])) indices /\
    actions = map (fun i => map exact (nth i [[3]]%R [])) indices /\
    rewards = map (fun i => [exact (nth i [4]%R 0%R)]) indices /\
    next_states = map (fun i => map exact (nth i [[5; 6]]%R [])) indices /\
    dones = map (fun i => [exact (nth i [0]%R 0%R)]) indices.
Proof.
  apply (sample_returns_loaded_rows exact 2 1 1 one_transition
           (loaded exact 2 1 1 one_transition) zero_words 1).
  - repeat split.
  - vm_compute. reflexivity.
  - cbn. lia.
Defined.

End BufferRuns.

Module CQLRuns.

Import Torch TorchFacts NetFacts CQL CQLFacts Example.
Local Open Scope R_scope.

(** Evaluation of the list structure of a concrete run; the real-number
    operations stay as they are. *)
Ltac list_eval :=
  cbv - [Rplus Rmult Rminus Ropp Rdiv Rinv exp ln sqrt PI IZR INR Rmin Rmax
         pow Rle_dec Rlt_dec tanh Rle Rlt].

Lemma ln_2_lt : ln 2 < 3 / 4.
Proof.
  assert (H : 2 < exp (3 / 4)).
  { pose proof (exp_ineq1_le (3 / 32)) as H1.
    assert (E2 : exp (3 / 16) = exp (3 / 32) * exp (3 / 32))
      by (rewrite <- exp_plus; f_equal; lra).
    assert (E4 : exp (3 / 8) = exp (3 / 16) * exp (3 / 16))
      by (rewrite <- exp_plus; f_equal; lra).
    assert (E8 : exp (3 / 4) = exp (3 / 8) * exp (3 / 8))
      by (rewrite <- exp_plus; f_equal; lra).
    assert (H2 : 1225 / 1024 <= exp (3 / 16)) by (rewrite E2; nra).
    assert (H4 : 1500625 / 1048576 <= exp (3 / 8)) by (rewrite E4; nra).
    rewrite E8. nra. }
  rewrite <- (ln_exp (3 / 4)). apply ln_increasing; lra.
Qed.

Lemma ln_4_pos : 0 < ln 4.
Proof. rewrite <- ln_1. apply ln_increasing; lra. Qed.

Lemma clamp_zero : Rmin (Rmax (1 * 0 + 0) (-20)) 2 = 0.
Proof.
  rewrite Rmax_left by lra. rewrite Rmin_left by lra. lra.
Qed.

(** C3, at a concrete input.  The trainer is in the behaviour-cloning
    regime (counter 0, [bc_steps] 0); the policy has mean 0 and standard
    deviation 1 at the observation; the dataset action is 0 and the draw
    inside [actor.log_prob] is 1.  The loss the code returns is that of the
    fresh sample [tanh 1], strictly below the loss with the dataset
    action's log-probability, and it stays the same whatever the dataset
    actions are. *)
Theorem bc_loss_ignores_dataset_action :
  let s := trainer0 false false in
  let loss actions :=
    data (_policy_loss_ori zero_net s observations0 (constant actions)
            (constant [[0]]) (constant 1) (constant [0]) unit_eps) in
  let claimed :=
    mean (map2 Rminus (map (Rmult 1) [0])
            (log_prob_of_dataset_action zero_net (actor s) observations0
               actions0)) in
  (total_it s <= bc_steps (hyper s))%Z /\
  loss actions0 < claimed /\
  forall actions, loss actions = loss actions0.
Proof.
  cbv zeta. split; [cbn; lia |]. split; [| intros actions; reflexivity].
  list_eval.
  rewrite clamp_zero, exp_0.
  replace (1 + 0) with 1 by lra. replace (1 - 0) with 1 by lra.
  rewrite ln_1.
  replace (-2 * ((0 - 0) / 2)) with 0 by lra. rewrite exp_0.
  replace (0 + 1 * 1) with 1 by lra. replace (-2 * 1) with (-2) by lra.
  change (INR 1) with 1.
  pose proof ln_2_lt as H2.
  assert (HE : 0 < ln (1 + exp (-2))).
  { rewrite <- ln_1. apply ln_increasing; [lra |].
    pose proof (exp_pos (-2)). lra. }
  set (L := ln (sqrt (2 * PI))). set (E := ln (1 + exp (-2))) in *.
  cbn [pow].
  replace (1 + 1) with 2 by lra.
  replace (2 * (1 * (1 * 1))) with 2 by lra.
  lra.
Qed.

(** C1, as stated, fails under importance sampling: the row that enters
    the log-sum-exp has three groups, and adding the value at the dataset
    action as a fourth one gives another estimate. *)
Lemma importance_sampling_drops_dataset_action :
  let s := trainer0 true false in
  cql_importance_sample (hyper s) = true /\
  nth 0 (data (cql_qf_ood s
                 (candidates zero_net Critic1 (critic_1 s) s observations0
                    actions0 next_observations0 draws0)
                 (QFunction.forward zero_net Critic1 (critic_1 s)
                    observations0 (constant actions0))
                 actions0)) 0
    <> smoothed_max (cql_temp (hyper s))
         (ood_row_importance_four_groups zero_net (critic_1 s) s [0] [0] [0]
            1 draws0 0).
Proof.
  cbv zeta. split; [reflexivity |].
  destruct (cql_qf_ood_rows zero_net Critic1
              (critic_1 (trainer0 true false)) (trainer0 true false)
              observations0 actions0 next_observations0 draws0
              eq_refl eq_refl) as (_ & _ & Hrow).
  cbv zeta in Hrow. rewrite (Hrow 0%nat) by (cbn; lia). clear Hrow.
  change (cql_importance_sample (hyper (trainer0 true false))) with true.
  cbv iota.
  change (cql_temp (hyper (trainer0 true false))) with 1.
  change (ood_row_importance_four_groups zero_net
            (critic_1 (trainer0 true false)) (trainer0 true false) [0] [0]
            [0] 1 draws0 0)
    with (ood_row_importance zero_net (critic_1 (trainer0 true false))
            (trainer0 true false) (nth 0 observations0 [])
            (nth 0 next_observations0 []) (length (hd [] actions0)) draws0 0
          ++ [QFunction.q_value zero_net (critic_1 (trainer0 true false))
                [0] [0]]).
  intros Heq. symmetry in Heq. revert Heq.
  apply smoothed_max_extra; [lra |].
  list_eval. discriminate.
Qed.

(** C2, as stated, fails: with the critic at 0 on every input, one
    candidate per group, temperature 1 and no importance sampling, the
    OOD estimate is [log 4], not 0. *)
Lemma constant_critic_estimate_is_not_the_constant :
  let s := trainer0 false false in
  (forall o a, QFunction.q_value zero_net (critic_1 s) o a = 0) /\
  cql_importance_sample (hyper s) = false /\
  cql_n_actions (hyper s) = 1%nat /\
  nth 0 (data (cql_qf_ood s
                 (candidates zero_net Critic1 (critic_1 s) s observations0
                    actions0 next_observations0 draws0)
                 (QFunction.forward zero_net Critic1 (critic_1 s)
                    observations0 (constant actions0))
                 actions0)) 0
    <> 0.
Proof.
  cbv zeta. split; [reflexivity |]. split; [reflexivity |].
  split; [reflexivity |].
  destruct (cql_qf_ood_rows zero_net Critic1
              (critic_1 (trainer0 false false)) (trainer0 false false)
              observations0 actions0 next_observations0 draws0
              eq_refl eq_refl) as (_ & _ & Hrow).
  cbv zeta in Hrow. rewrite (Hrow 0%nat) by (cbn; lia). clear Hrow.
  change (cql_importance_sample (hyper (trainer0 false false))) with false.
  cbv iota.
  change (cql_temp (hyper (trainer0 false false))) with 1.
  change (ood_row_plain zero_net (critic_1 (trainer0 false false))
            (trainer0 false false) (nth 0 observations0 [])
            (nth 0 actions0 []) (nth 0 next_observations0 [])
            (length (hd [] actions0)) draws0 0)
    with [0; 0; 0; 0].
  rewrite smoothed_max_four_equal by lra.
  pose proof ln_4_pos. lra.
Qed.

Lemma ood_estimate_rows_witness :
  let s := trainer0 true false in
  nth 0 (data (cql_qf_ood s
                 (candidates zero_net Critic1 (critic_1 s) s observations0
                    actions0 next_observations0 draws0)
                 (QFunction.forward zero_net Critic1 (critic_1 s)
                    observations0 (constant actions0))
                 actions0)) 0
    = smoothed_max 1
        (ood_row_importance zero_net (critic_1 s) s [0] [0] 1 draws0 0).
Proof.
  cbv zeta.
  destruct (ood_estimate_rows zero_net (trainer0 true false) observations0
              actions0 next_observations0 draws0 eq_refl eq_refl)
    as (_ & _ & Hrow).
  destruct (Hrow 0%nat) as [H1 _].
  - cbn. lia.
  - exact H1.
Defined.

Lemma ood_estimate_constant_critic_witness :
  let s := trainer0 false false in
  nth 0 (data (cql_qf_ood s
                 (candidates zero_net Critic1 (critic_1 s) s observations0
                    actions0 next_observations0 draws0)
                 (QFunction.forward zero_net Critic1 (critic_1 s)
                    observations0 (constant actions0))
                 actions0)) 0
    = 0 + 1 * ln 4.
Proof.
  cbv zeta.
  apply (ood_estimate_constant_critic zero_net Critic1
           (critic_1 (trainer0 false false)) (trainer0 false false)
           observations0 actions0 next_observations0 draws0 0 0%nat).
  - intros o a. reflexivity.
  - reflexivity.
  - reflexivity.
  - change (cql_temp (hyper (trainer0 false false))) with 1. lra.
  - reflexivity.
  - reflexivity.
  - cbn. lia.
Defined.

Lemma td_target_formula_witness :
  exists tq y,
    td_target zero_net (trainer0 false false) next_observations0
        (unsqueeze [1]) (unsqueeze [0]) (constant 1) draws0
      = inr (tq, y) /\
    leaves y = [] /\
    length (data y) = 1%nat.
Proof.
  destruct (td_target_formula zero_net (trainer0 false false)
              next_observations0 [1] [0] (constant 1) draws0)
    as (tq & y & Htd & Hleaves & Hlen & _).
  - reflexivity.
  - reflexivity.
  - cbn. discriminate.
  - exists tq, y. split; [exact Htd |]. split; [exact Hleaves |].
    exact Hlen.
Defined.

Lemma target_sync_on_period_witness :
  exists log w',
    train_ori zero_net batch0 draws0 steps0 (world0 false false)
      = (inr log, w') /\
    total_it (self w') = 1%Z /\
    nth 0 (nth 0 (QFunction.network (target_critic_1 (self w'))) []) 0
      = (1 - 0.5) * 1 + 0.5 * 5.
Proof.
  destruct (target_sync_on_period zero_net observations0 actions0 rewards0
              next_observations0 dones0 draws0 steps0 (world0 false false))
    as (log & w' & Hrun & Hit & Hc1 & _ & Hsync & _).
  - cbn. discriminate.
  - cbn. discriminate.
  - cbn. discriminate.
  - repeat constructor.
  - repeat constructor.
  - exists log, w'. split; [exact Hrun |]. split; [exact Hit |].
    destruct Hsync as (_ & _ & Hat).
    + rewrite Hit. apply Z.divide_1_l.
    + destruct (Hat 0%nat 0%nat) as [H1 _].
      rewrite H1 by (cbn; lia).
      rewrite Hc1. reflexivity.
Defined.

Lemma conservative_terms_and_multiplier_witness :
  exists log w',
    train_ori zero_net batch0 draws0 steps0 (world0 false true)
      = (inr log, w') /\
    log_alpha_prime (self w') = Scalar.mk 2.
Proof.
  destruct (conservative_terms_and_multiplier zero_net observations0 actions0
              rewards0 next_observations0 dones0 draws0 steps0
              (world0 false true))
    as (log & w' & alpha & alpha_loss & policy_loss & qf_loss & alpha_prime
        & alpha_prime_loss & tq & y & term1 & term2 & Hrun & _ & _ & _ & _
        & _ & _ & Hmode).
  - cbn. discriminate.
  - cbn. discriminate.
  - cbn. discriminate.
  - exists log, w'. split; [exact Hrun |].
    change (cql_lagrange (hyper (self (world0 false true)))) with true
      in Hmode.
    destruct Hmode as (_ & _ & _ & _ & Hlap & _). exact Hlap.
Defined.

End CQLRuns.

(** ** Further concrete runs *)

Module MoreRuns.

Import Torch TorchFacts NetFacts CQL CQLFacts More Data.
Import BufferExample Example MoreExample.
Local Open Scope R_scope.

(** *** Target synchronisation *)

Lemma soft_update_endpoints_witness :
  soft_update_parameters 0 params_a params_b = params_a /\
  soft_update_parameters 1 params_a params_b = params_b.
Proof.
  apply (CQLMore.soft_update_endpoints params_a params_b).
  repeat constructor.
Defined.

Lemma sync_gap_contracts_witness :
  nth 0 (nth 0 (sync_times 2 (1 / 2) params_a params_b) []) 0
    - nth 0 (nth 0 params_b []) 0
  = (1 - 1 / 2) ^ 2
    * (nth 0 (nth 0 params_a []) 0 - nth 0 (nth 0 params_b []) 0).
Proof.
  apply (CQLMore.sync_gap_contracts 2 (1 / 2) params_a params_b 0 0).
  - repeat constructor.
  - cbn. lia.
  - cbn. lia.
Defined.

(** *** The trainer *)

Lemma alpha_loss_closed_form_witness :
  exists alpha alpha_loss,
    _alpha_and_alpha_loss trainer_auto (constant [0])
      = inr (alpha, alpha_loss) /\
    data alpha = exp 0 * 1 /\
    data alpha_loss = - (exp 0 * (mean [0] + -1)) /\
    leaves alpha_loss = [LogAlpha] /\
    leaves alpha = [LogAlpha].
Proof.
  apply (CQLMore.alpha_loss_closed_form trainer_auto (Scalar.mk 0)
           (constant [0])).
  - reflexivity.
  - reflexivity.
  - cbn. discriminate.
Defined.


Lemma td_target_at_terminal_witness :
  exists tq y,
    td_target zero_net (trainer0 false false) next_observations0
        (unsqueeze [1]) (unsqueeze [1]) (constant 1) draws0
      = inr (tq, y) /\
    nth 0 (data y) 0 = nth 0 [1] 0.
Proof.
  apply (CQLMore.td_target_at_terminal zero_net (trainer0 false false)
           next_observations0 [1] [1] (constant 1) draws0 0).
  - reflexivity.
  - reflexivity.
  - cbn. discriminate.
  - cbn. lia.
  - left. reflexivity.
Defined.

Lemma train_ori_zero_period_witness :
  exists alpha_prime_loss alpha_loss policy_loss qf_loss,
    train_ori zero_net batch0 draws0 steps0 world_zero_period
      = (inl ZeroDivisionError,
         mkWorld
           (after_steps steps0
              (set_total_it (total_it (self world_zero_period) + 1)
                 (self world_zero_period)))
           (calls world_zero_period
              ++ training_calls hyper_zero_period alpha_prime_loss alpha_loss
                   policy_loss qf_loss)) /\
    target_critic_1
      (after_steps steps0
         (set_total_it (total_it (self world_zero_period) + 1)
            (self world_zero_period)))
      = target_critic_1 (self world_zero_period) /\
    target_critic_2
      (after_steps steps0
         (set_total_it (total_it (self world_zero_period) + 1)
            (self world_zero_period)))
      = target_critic_2 (self world_zero_period) /\
    total_it
      (after_steps steps0
         (set_total_it (total_it (self world_zero_period) + 1)
            (self world_zero_period)))
      = (total_it (self world_zero_period) + 1)%Z.
Proof.
  apply (CQLMore.train_ori_zero_period zero_net observations0 actions0
           rewards0 next_observations0 dones0 draws0 steps0
           world_zero_period).
  - cbn. discriminate.
  - cbn. discriminate.
  - reflexivity.
Defined.

Lemma bc_steps_send_no_gradient_to_critics_witness :
  exists log w' alpha_prime_loss alpha_loss policy_loss qf_loss,
    train_ori zero_net batch0 draws0 steps0 (world0 false false)
      = (inr log, w') /\
    calls w'
      = calls (world0 false false)
          ++ training_calls (hyper0 false false) alpha_prime_loss alpha_loss
               policy_loss qf_loss /\
    In Critic1 (leaves policy_loss) /\ In Critic2 (leaves policy_loss).
Proof.
  destruct (CQLMore.bc_steps_send_no_gradient_to_critics zero_net
              observations0 actions0 rewards0 next_observations0 dones0
              draws0 steps0 (world0 false false))
    as (log & w' & alpha_prime_loss & alpha_loss & policy_loss & qf_loss
        & Hrun & Hcalls & _ & Hq).
  - cbn. discriminate.
  - cbn. discriminate.
  - cbn. discriminate.
  - exists log, w', alpha_prime_loss, alpha_loss, policy_loss, qf_loss.
    split; [exact Hrun |]. split; [exact Hcalls |].
    apply Hq. cbn. lia.
Defined.

(** *** The policy *)


Lemma get_log_density_is_log_prob_of_clipped_action_witness :
  nth 0
    (data (Policy.get_log_density zero_net Actor actor0 observations0
             (constant actions0))) 0
  = let (mean, log_std) :=
      Policy.mean_log_std zero_net actor0 (nth 0 observations0 []) in
    ReparameterizedTanhGaussian.log_prob (Policy.tanh_gaussian actor0) mean
      log_std
      (map (clamp (-1 + Policy.EPS) (1 - Policy.EPS))
         (nth 0 (data (constant actions0)) [])).
Proof.
  apply (proj2 (PolicyMore.get_log_density_is_log_prob_of_clipped_action
                  zero_net Actor actor0 observations0 (constant actions0))).
  - reflexivity.
  - cbn. lia.
  - cbn. lia.
Defined.

(** *** The replay buffer *)

Lemma sample_from_empty_buffer_witness :
  Buffer.sample 1 (Buffer.mkWorld (Buffer.init 2 1 1) zero_words)
    = (inl (ValueError "low >= high"),
       Buffer.mkWorld (Buffer.init 2 1 1) zero_words).
Proof.
  apply (BufferMore.sample_from_empty_buffer
           (Buffer.mkWorld (Buffer.init 2 1 1) zero_words) 1).
  - lia.
  - left. reflexivity.
Defined.



(** *** Rewards and states *)

Lemma reward_range_without_closed_episode_witness :
  return_reward_range one_transition 1000
    = inl (Raised (ValueError "min() arg is an empty sequence")).
Proof.
  apply (DataMore.reward_range_without_closed_episode one_transition 1000).
  - repeat constructor.
  - cbn. lia.
  - cbn. lia.
Defined.

Lemma truthy_one : truthy 1 = true.
Proof. unfold truthy. destruct (Req_dec_T 1 0); [lra | reflexivity]. Qed.

Lemma episode_step_terminal (m : Z) (st : episodes) (r : R) :
  episode_step m st (r, 1)
    = mkEpisodes (returns st ++ [ep_ret st + r])
        (lengths st ++ [(ep_len st + 1)%nat]) 0 0.
Proof.
  unfold episode_step. cbn [fst snd]. rewrite truthy_one. reflexivity.
Qed.

Lemma two_episodes_range :
  return_reward_range two_episodes 1000 = inr (1, 3).
Proof.
  unfold return_reward_range, episode_loop.
  change (Buffer.rewards two_episodes) with [1; 3].
  change (Buffer.terminals two_episodes) with [1; 1].
  cbn [combine fold_left].
  rewrite !episode_step_terminal.
  cbn [ep_ret ep_len returns lengths app list_sum fold_right length Nat.add
       Nat.eqb].
  unfold list_min, list_max. cbn [fold_left].
  rewrite Rmin_left by lra. rewrite Rmax_right by lra.
  f_equal. f_equal; lra.
Qed.

Lemma normalised_returns_span_the_horizon_witness :
  exists dataset' lo' hi',
    modify_reward two_episodes "hopper-medium-v2" 1000 1 0 = inr dataset' /\
    return_reward_range dataset' 1000 = inr (lo', hi') /\
    hi' - lo' = IZR 1000 * 1 /\
    Buffer.observations dataset' = Buffer.observations two_episodes /\
    Buffer.actions dataset' = Buffer.actions two_episodes /\
    Buffer.next_observations dataset' = Buffer.next_observations two_episodes /\
    Buffer.terminals dataset' = Buffer.terminals two_episodes.
Proof.
  apply (DataMore.normalised_returns_span_the_horizon two_episodes
           "hopper-medium-v2" 1000 1 1 3).
  - reflexivity.
  - exact two_episodes_range.
  - lra.
  - lia.
  - lra.
Defined.

Lemma normalised_columns_are_standardised_witness :
  let (mean, std) := compute_mean_std two_states (1 / 1000) in
  let normalised := normalize_states two_states (array mean) (array std) in
  let sigma := np_std (column 0 two_states) in
  1 / 1000 <= nth 0 std 0 /\
  Torch.mean (column 0 normalised) = 0 /\
  np_std (column 0 normalised) = sigma / (sigma + 1 / 1000) /\
  np_std (column 0 normalised) < 1.
Proof.
  apply (DataMore.normalised_columns_are_standardised two_states (1 / 1000)
           1 0).
  - discriminate.
  - repeat constructor.
  - lra.
  - lia.
Defined.

(** *** Splitting *)

Lemma split_into_consecutive_blocks_witness :
  dataset_split_diy exact three_rows 1 2 false
    = inr [transitions_dict exact three_rows [0%nat];
           transitions_dict exact three_rows [1%nat]].
Proof.
  apply (SplitMore.split_into_consecutive_blocks exact three_rows 1 2).
  - repeat split; cbn; lia.
  - cbn. lia.
  - lia.
  - cbn. lia.
Defined.

Lemma split_beyond_the_data_raises_witness :
  dataset_split_diy exact three_rows 1 3 false
    = inl (ValueError "need at least one array to concatenate").
Proof.
  apply (SplitMore.split_beyond_the_data_raises exact three_rows 1 3).
  - repeat split; cbn; lia.
  - cbn. lia.
  - lia.
  - left. cbn. lia.
Defined.

Lemma split_with_terminate_on_end_witness :
  dataset_split_diy exact three_rows 1 1 true
    = inr [transitions_dict exact three_rows [0%nat; 1%nat]].
Proof.
  destruct (SplitMore.split_with_terminate_on_end exact three_rows 1 1)
    as [H _].
  - repeat split; cbn; lia.
  - lia.
  - apply H. reflexivity.
Defined.

End MoreRuns.
